(** * carta-electiva-api: vectorized election search, scoring and SCC

    Shallow embedding of the search-and-scoring core:
    - [core/vectorized_logic.py]     (module [VectorizedLogic])
    - [core/vectorized_ephemeris.py] (module [VectorizedEphemeris])
    - [core/vectorized_houses.py]    (module [VectorizedHouses])
    - [core/vectorized_natal.py]     (module [VectorizedNatal])
    - [core/vectorized_scoring.py]   (module [VectorizedScoring])
    - [core/theme_config.py], [config/temas_casas.py]
    - [core/election_engine.py]      (module [ElectionEngine])
    - [utils/scc_calculator.py]      (module [SCC_Calculator])
    - [core/algoritmo_busqueda.py]   (module [AlgoritmoBusqueda])

    Conventions.  A Python float is a rational [Q] (exact arithmetic); a one
    dimensional numpy array is a [list]; a two dimensional array is a list of
    rows; a boolean mask is a [list bool]; a dict is a [gmap]; a naive
    [datetime] is its number of microseconds on the proleptic time line
    ([Z]); a raised exception is the [Raise] branch of [result]. *)

From Stdlib Require Import ZArith QArith Qabs Qminmax Qround Lqa.
From Stdlib Require Import Ascii String Sorted Permutation.
From stdpp Require Import gmap strings list fin_maps.

Local Open Scope Z_scope.

(** ** Exceptions *)

Inductive exn : Type :=
| ValueError
| ZeroDivisionError
| StopIteration
| SwissephError.

Inductive result (A : Type) : Type :=
| Ok (a : A)
| Raise (e : exn).
Arguments Ok {A} a.
Arguments Raise {A} e.

Definition bind {A B : Type} (r : result A) (k : A -> result B) : result B :=
  match r with
  | Ok a => k a
  | Raise e => Raise e
  end.

Notation "'try' x <- r 'in' k" := (bind r (fun x => k))
  (at level 10, x name, r at level 200, k at level 200).

(** ** Float and array primitives *)

Module Np.

Definition Qlt_bool (a b : Q) : bool := negb (Qle_bool b a).

(** Python [a // b] on floats. *)
Definition floordiv (a b : Q) : Q := inject_Z (Qfloor (a / b)).

(** Python [a % b] on floats: the result has the sign of [b]. *)
Definition fmod (a b : Q) : Q := (a - b * inject_Z (Qfloor (a / b)))%Q.

(** [int(x)]: truncation toward zero. *)
Definition trunc (x : Q) : Z := Z.quot (Qnum x) (Z.pos (Qden x)).

Definition zeros (n : nat) : list Q := replicate n 0%Q.
Definition zeros_bool (n : nat) : list bool := replicate n false.
Definition ones_bool (n : nat) : list bool := replicate n true.

(** Elementwise binary operation on two arrays of the same shape. *)
Definition map2 {A B C : Type} (f : A -> B -> C) (xs : list A) (ys : list B) : list C :=
  zip_with f xs ys.

Definition vor (a b : list bool) : list bool := map2 orb a b.
Definition vand (a b : list bool) : list bool := map2 andb a b.
Definition vnot (a : list bool) : list bool := map negb a.
Definition vadd (a b : list Q) : list Q := map2 Qplus a b.
Definition vsub (a b : list Q) : list Q := map2 Qminus a b.

(** [np.where(mask, x, y)] with scalar [x], [y]. *)
Definition where_ (mask : list bool) (x y : Q) : list Q :=
  map (fun b : bool => if b then x else y) mask.

Definition any (mask : list bool) : bool := existsb id mask.

(** [arr[mask]]: the entries selected by a boolean mask. *)
Fixpoint select {A : Type} (mask : list bool) (arr : list A) : list A :=
  match mask, arr with
  | b :: mask', x :: arr' => if b then x :: select mask' arr' else select mask' arr'
  | _, _ => []
  end.

(** [target[mask] = values]: the selected entries are overwritten, in
    order, by the entries of [values]. *)
Fixpoint assign {A : Type} (mask : list bool) (target values : list A) : list A :=
  match mask, target with
  | b :: mask', t :: target' =>
      if b then
        match values with
        | v :: values' => v :: assign mask' target' values'
        | [] => t :: assign mask' target' []
        end
      else t :: assign mask' target' values
  | _, _ => target
  end.

(** [target[mask] = c] for a scalar [c]. *)
Definition assign_const {A : Type} (mask : list bool) (target : list A) (c : A) : list A :=
  map2 (fun (b : bool) t => if b then c else t) mask target.

(** [np.isin(arr, values)]. *)
Definition isin (arr values : list Z) : list bool :=
  map (fun s => existsb (Z.eqb s) values) arr.

(** Column [j] of a two dimensional array, [m[:, j]]. *)
Definition col (m : list (list Q)) (j : nat) : list Q :=
  map (fun row => nth j row 0%Q) m.

End Np.

(** ** core/astro_config.py *)

Module AstroConfig.

Definition ORB_CONJUNCTION : Q := 8.
Definition ORB_OPPOSITION : Q := 8.
Definition ORB_TRINE : Q := 8.
Definition ORB_SQUARE : Q := 8.
Definition ORB_SEXTILE : Q := 6.
Definition ORB_MOON_PHASE : Q := 8.

Definition get_orb (aspect_angle : Q) : Q :=
  if Qeq_bool aspect_angle 0 then ORB_CONJUNCTION
  else if Qeq_bool aspect_angle 180 then ORB_OPPOSITION
  else if Qeq_bool aspect_angle 120 then ORB_TRINE
  else if Qeq_bool aspect_angle 90 then ORB_SQUARE
  else if Qeq_bool aspect_angle 60 then ORB_SEXTILE
  else 1.

End AstroConfig.

(** ** core/vectorized_logic.py *)

Module VectorizedLogic.

Definition ARIES : Z := 0.
Definition TAURUS : Z := 1.
Definition GEMINI : Z := 2.
Definition CANCER : Z := 3.
Definition LEO : Z := 4.
Definition VIRGO : Z := 5.
Definition LIBRA : Z := 6.
Definition SCORPIO : Z := 7.
Definition SAGITTARIUS : Z := 8.
Definition CAPRICORN : Z := 9.
Definition AQUARIUS : Z := 10.
Definition PISCES : Z := 11.

(** [RULER_MAP], in insertion order (sign, planet). *)
Definition RULER_MAP : list (Z * Z) :=
  [ (ARIES, 4); (TAURUS, 3); (GEMINI, 2); (CANCER, 1); (LEO, 0); (VIRGO, 2);
    (LIBRA, 3); (SCORPIO, 4); (SAGITTARIUS, 5); (CAPRICORN, 6);
    (AQUARIUS, 6); (PISCES, 5) ].

(** [EXALTATION_MAP], (planet, sign). *)
Definition EXALTATION_MAP : list (Z * Z) :=
  [ (0, ARIES); (1, TAURUS); (2, VIRGO); (3, PISCES); (4, CAPRICORN);
    (5, CANCER); (6, LIBRA) ].

(** [d.get(k)] on an insertion-ordered table. *)
Fixpoint table_get {V : Type} (d : list (Z * V)) (k : Z) : option V :=
  match d with
  | [] => None
  | (k', v) :: d' => if Z.eqb k' k then Some v else table_get d' k
  end.

(** [d[k].append(v)], creating the list on first use. *)
Fixpoint table_append (d : list (Z * list Z)) (k v : Z) : list (Z * list Z) :=
  match d with
  | [] => [(k, [v])]
  | (k', vs) :: d' =>
      if Z.eqb k' k then (k', vs ++ [v]) :: d' else (k', vs) :: table_append d' k v
  end.

(** The loop of [__init__] that fills [DETRIMENT_MAP]. *)
Definition DETRIMENT_MAP : list (Z * list Z) :=
  fold_left (fun acc '(sign, planet) => table_append acc planet ((sign + 6) mod 12))
            RULER_MAP [].

(** The loop of [__init__] that fills [FALL_MAP]. *)
Definition FALL_MAP : list (Z * Z) :=
  map (fun '(planet, sign) => (planet, (sign + 6) mod 12)) EXALTATION_MAP.

Definition get_ruler_for_sign (sign_index : Z) : Z :=
  default 0 (table_get RULER_MAP sign_index).

(** [(longitudes // 30).astype(int) % 12].  The longitudes that reach it
    are those of [swe.calc_ut] and the cusps and angles of [swe.houses], all
    in 0 .. 360, where the floor is one of 0 .. 11 and the cast to the
    64-bit integer of [astype(int)] leaves it as it is; beyond the range of
    that integer the array and this integer part part ways. *)
Definition sign_index (longitude : Q) : Z := (Qfloor (longitude / 30)) mod 12.

Definition get_sign_indices (longitudes : list Q) : list Z := map sign_index longitudes.

Definition dignity_signs (planet_id : Z) : list Z :=
  let ruled_signs :=
    map fst (filter (fun sp : Z * Z => snd sp = planet_id) RULER_MAP) in
  match table_get EXALTATION_MAP planet_id with
  | Some exalted_sign => ruled_signs ++ [exalted_sign]
  | None => ruled_signs
  end.

Definition mask_dignity (planet_id : Z) (longitudes : list Q) : list bool :=
  Np.isin (get_sign_indices longitudes) (dignity_signs planet_id).

Definition debility_signs (planet_id : Z) : list Z :=
  let detriment_signs := default [] (table_get DETRIMENT_MAP planet_id) in
  match table_get FALL_MAP planet_id with
  | Some fall_sign => detriment_signs ++ [fall_sign]
  | None => detriment_signs
  end.

Definition mask_debility (planet_id : Z) (longitudes : list Q) : list bool :=
  Np.isin (get_sign_indices longitudes) (debility_signs planet_id).

Definition mask_signs (longitudes : list Q) (forbidden_signs : list Z) : list bool :=
  Np.isin (get_sign_indices longitudes) forbidden_signs.

(** Minimal circular separation of two longitudes. *)
Definition separation (a b : Q) : Q :=
  let diff := Qabs (a - b) in Qmin diff (360 - diff).

Definition calculate_aspects (body1_longs body2_longs : list Q) : list Q :=
  Np.map2 separation body1_longs body2_longs.

Definition mask_exact_aspect (body1 body2 : list Q) (aspect_angle orb : Q) : list bool :=
  map (fun ang_diff => Qle_bool (Qabs (ang_diff - aspect_angle)) orb)
      (calculate_aspects body1 body2).

Definition mask_phase (sun moon : list Q) (orb : Q) : list bool :=
  let diff := calculate_aspects sun moon in
  let is_new := map (fun d => Qle_bool d orb) diff in
  let is_full := map (fun d => Qle_bool (Qabs (d - 180)) orb) diff in
  Np.vor is_new is_full.

(** One pass of the innermost loop of [mask_void_of_course]:
    [is_voc[dist_to_target < dist_to_ingress] = False]. *)
Definition voc_target (moon_longs dist_to_ingress target : list Q)
           (is_voc : list bool) : list bool :=
  let dist_to_target := Np.map2 (fun t m => Np.fmod (t - m) 360) target moon_longs in
  let aspect_occurs_in_sign := Np.map2 Np.Qlt_bool dist_to_target dist_to_ingress in
  Np.assign_const aspect_occurs_in_sign is_voc false.

Definition mask_void_of_course (moon_longs : list Q)
           (planet_positions : gmap Z (list Q)) : list bool :=
  let current_sign_start := map (fun m => Np.floordiv m 30 * 30)%Q moon_longs in
  let next_sign_start := map (fun s => s + 30)%Q current_sign_start in
  let dist_to_ingress := Np.vsub next_sign_start moon_longs in
  let major_aspects : list Q := [0; 60; 90; 120; 180]%Q in
  let target_bodies : list Z := [0; 2; 3; 4; 5; 6] in
  fold_left
    (fun is_voc pid =>
       match planet_positions !! pid with
       | None => is_voc
       | Some p_longs =>
           fold_left
             (fun is_voc asp =>
                let targets :=
                  [ map (fun p => Np.fmod (p + asp) 360) p_longs;
                    map (fun p => Np.fmod (p - asp) 360) p_longs ] in
                fold_left
                  (fun is_voc target => voc_target moon_longs dist_to_ingress target is_voc)
                  targets is_voc)
             major_aspects is_voc
       end)
    target_bodies (Np.ones_bool (length moon_longs)).

End VectorizedLogic.

(** ** Time *)

(** A naive [datetime]: microseconds on the proleptic time line. *)
Definition datetime : Type := Z.

Definition MICROS_PER_SECOND : Z := 1000000.
Definition MICROS_PER_MINUTE : Z := 60 * MICROS_PER_SECOND.
Definition MICROS_PER_HOUR : Z := 60 * MICROS_PER_MINUTE.
Definition MICROS_PER_DAY : Z := 24 * MICROS_PER_HOUR.

(** [timedelta(minutes=m)] *)
Definition timedelta_minutes (m : Z) : Z := m * MICROS_PER_MINUTE.

(** [td.total_seconds()] *)
Definition total_seconds (td : Z) : Q := inject_Z td / inject_Z MICROS_PER_SECOND.

Definition dt_hour (t : datetime) : Z := (t mod MICROS_PER_DAY) / MICROS_PER_HOUR.
Definition dt_minute (t : datetime) : Z := (t mod MICROS_PER_HOUR) / MICROS_PER_MINUTE.
Definition dt_second (t : datetime) : Z := (t mod MICROS_PER_MINUTE) / MICROS_PER_SECOND.

(** [t.replace(second=0, microsecond=0)] *)
Definition round_to_minute (t : datetime) : datetime := t - t mod MICROS_PER_MINUTE.

(** ** core/vectorized_ephemeris.py *)

Module VectorizedEphemeris.

(** The tuple returned by the provider's [calc_ut]. *)
Record Position : Type := mkPosition {
  lon : Q; lat : Q; dist : Q; speed_lon : Q; speed_lat : Q; speed_dist : Q
}.

Definition row_of (p : Position) : list Q :=
  [lon p; lat p; dist p; speed_lon p; speed_lat p; speed_dist p].

Definition BODIES_values : list Z := [0; 1; 2; 3; 4; 5; 6; 7; 8; 9; 10; 11].
Definition IDX_LONG : nat := 0.
Definition IDX_SPEED_LONG : nat := 3.

Section Provider.

(** The calendar date (year, month, day) of an instant, and the
    provider's [julday] and [calc_ut]; [calc_ut] answers [None] when the
    call raises. *)
Variable ymd : datetime -> Z * Z * Z.
Variable julday : Z -> Z -> Z -> Q -> Q.
Variable calc_ut : Q -> Z -> option Position.

Definition _to_jd (t : datetime) : Q :=
  let hour_decimal :=
    (inject_Z (dt_hour t) + inject_Z (dt_minute t) / 60
     + inject_Z (dt_second t) / 3600)%Q in
  let '(year, month, day) := ymd t in
  julday year month day hour_decimal.

(** [np.vectorize(converter)(times)]: numpy refuses an input of size 0
    when no [otypes] is set ("cannot call `vectorize` on size 0 inputs
    unless `otypes` is set"). *)
Definition _convert_times_to_jd (times : list datetime) : result (list Q) :=
  match times with
  | [] => Raise ValueError
  | _ => Ok (map _to_jd times)
  end.

(** The list comprehension over [jds]: it raises as soon as one call
    raises. *)
Definition body_data (jds : list Q) (body : Z) : option (list Position) :=
  mapM (fun jd => calc_ut jd body) jds.

(** One turn of the loop over [bodies]: besides the mapping, the state
    holds the bodies for which [logger.error] has been called. *)
Definition position_step (jds : list Q) (state : gmap Z (list (list Q)) * list Z)
           (body : Z) : gmap Z (list (list Q)) * list Z :=
  match body_data jds body with
  | Some data => (<[body := map row_of data]> (fst state), snd state)
  | None =>
      (<[body := replicate (length jds) (replicate 6 0%Q)]> (fst state),
       snd state ++ [body])
  end.

(** [calculate_positions] together with its error log. *)
Definition calculate_positions_logged (times : list datetime) (bodies : option (list Z))
  : result (gmap Z (list (list Q)) * list Z) :=
  let bodies := default BODIES_values bodies in
  try jds <- _convert_times_to_jd times in
  Ok (fold_left (position_step jds) bodies (∅, [])).

(** What [calculate_positions] returns. *)
Definition calculate_positions (times : list datetime) (bodies : option (list Z))
  : result (gmap Z (list (list Q))) :=
  try r <- calculate_positions_logged times bodies in
  Ok (fst r).

(** The matrix that the loop of [calculate_positions] stores for one
    body. *)
Definition entry (jds : list Q) (body : Z) : list (list Q) :=
  match body_data jds body with
  | Some data => map row_of data
  | None => replicate (length jds) (replicate 6 0%Q)
  end.

End Provider.

Definition get_longitudes (positions : gmap Z (list (list Q))) : gmap Z (list Q) :=
  (fun v => Np.col v IDX_LONG) <$> positions.

Definition get_speeds (positions : gmap Z (list (list Q))) : gmap Z (list Q) :=
  (fun v => Np.col v IDX_SPEED_LONG) <$> positions.

End VectorizedEphemeris.

(** ** core/vectorized_houses.py *)

Module VectorizedHouses.

Section Provider.

Variable ymd : datetime -> Z * Z * Z.
Variable julday : Z -> Z -> Z -> Q -> Q.
(** [swe.houses(jd, lat, lon, hsys)] for the default house system: the
    cusps and the angles.  The call raises [swisseph.Error] where the house
    system is not defined (Placidus beyond the polar circles); the provider
    answers [None] then. *)
Variable houses : Q -> Q -> Q -> option (list Q * list Q).

(** The list comprehension over [jds] is not guarded: the first call that
    raises ends [calculate_houses]. *)
Definition calculate_houses (times : list datetime) (lat lon : Q)
  : result (list (list Q) * list (list Q)) :=
  let jds := map (VectorizedEphemeris._to_jd ymd julday) times in
  match mapM (fun jd => houses jd lat lon) jds with
  | Some batch_results => Ok (map fst batch_results, map snd batch_results)
  | None => Raise SwissephError
  end.

End Provider.

End VectorizedHouses.

(** ** core/vectorized_natal.py *)

Module VectorizedNatal.

Definition calculate_aspects_transit_to_natal (transit_longs : list Q) (natal_long : Q)
  : list Q :=
  map (fun t => let diff := Qabs (t - natal_long) in Qmin diff (360 - diff)) transit_longs.

Definition mask_transiting_aspect (transit_longs : list Q) (natal_long aspect_angle orb : Q)
  : list bool :=
  map (fun a => Qle_bool (Qabs (a - aspect_angle)) orb)
      (calculate_aspects_transit_to_natal transit_longs natal_long).

Definition default_malefics : list Z := [4; 6].

(** [n_points] is the length of one array of [transits]; the arrays of a
    batch share their length.  On an empty [transits],
    [next(iter(...))] raises [StopIteration]. *)
Definition mask_hard_aspects_to_natal_lights
           (transits : gmap Z (list Q)) (natal_chart : gmap Z Q) (malefics : list Z)
  : result (list bool) :=
  match map_to_list transits with
  | [] => Raise StopIteration
  | (_, first) :: _ =>
      let n_points := length first in
      let hard_angles : list Q := [90; 180; 0]%Q in
      let lights : list Z := [0; 1] in
      Ok (fold_left
            (fun is_bad malefic_id =>
               match transits !! malefic_id with
               | None => is_bad
               | Some t_longs =>
                   fold_left
                     (fun is_bad light_id =>
                        match natal_chart !! light_id with
                        | None => is_bad
                        | Some n_long =>
                            fold_left
                              (fun is_bad angle =>
                                 let orb := AstroConfig.get_orb angle in
                                 Np.vor is_bad
                                   (mask_transiting_aspect t_longs n_long angle orb))
                              hard_angles is_bad
                        end)
                     lights is_bad
               end)
            malefics (Np.zeros_bool n_points))
  end.

Definition default_benefics : list Z := [3; 5].

(** The booster filter: a benefic in conjunction, sextile or trine to the
    natal Ascendant or Midheaven. *)
Definition mask_benefic_aspects_to_angles
           (transits : gmap Z (list Q)) (natal_asc natal_mc : Q) (benefics : list Z)
  : result (list bool) :=
  match map_to_list transits with
  | [] => Raise StopIteration
  | (_, first) :: _ =>
      let n_points := length first in
      let soft_angles : list Q := [0; 60; 120]%Q in
      let targets : list Q := [natal_asc; natal_mc] in
      Ok (fold_left
            (fun is_good benefic_id =>
               match transits !! benefic_id with
               | None => is_good
               | Some t_longs =>
                   fold_left
                     (fun is_good target_long =>
                        fold_left
                          (fun is_good angle =>
                             let orb := AstroConfig.get_orb angle in
                             Np.vor is_good
                               (mask_transiting_aspect t_longs target_long angle orb))
                          soft_angles is_good)
                     targets is_good
               end)
            benefics (Np.zeros_bool n_points))
  end.

End VectorizedNatal.

(** ** core/theme_config.py *)

Module ThemeConfig.

Record ThemeConfig : Type := mkTheme {
  target_house : Z;
  natural_ruler : option Z;
  secondary_house : option Z;
  name_es : string
}.

Definition trabajo : ThemeConfig := mkTheme 10 (Some 6) (Some 6) "Trabajo y Carrera".

Definition THEMES : gmap string ThemeConfig :=
  list_to_map
    [ ("trabajo"%string, trabajo);
      ("lanzamiento"%string, mkTheme 10 (Some 4) (Some 1) "Lanzamiento de Proyecto");
      ("amor"%string, mkTheme 7 (Some 3) (Some 5) "Amor y Pareja");
      ("dinero"%string, mkTheme 2 (Some 5) (Some 8) "Dinero e Inversiones");
      ("viaje"%string, mkTheme 9 (Some 5) (Some 3) "Viajes y Extranjero");
      ("inmobiliaria"%string, mkTheme 4 (Some 1) None "Bienes Raíces y Hogar") ].

(** [str.lower] on the ASCII letters. *)
Definition lower_ascii (c : ascii) : ascii :=
  let n := nat_of_ascii c in
  if (65 <=? n)%nat && (n <=? 90)%nat then ascii_of_nat (n + 32) else c.

Fixpoint lower (s : string) : string :=
  match s with
  | EmptyString => EmptyString
  | String c s' => String (lower_ascii c) (lower s')
  end.

Definition get_theme_config (theme_name : string) : ThemeConfig :=
  default trabajo (THEMES !! lower theme_name).

End ThemeConfig.

(** ** config/temas_casas.py *)

Module TemasCasas.

Definition TEMAS_CASAS : gmap string Z :=
  list_to_map
    [ ("trabajo"%string, 10); ("amor"%string, 7); ("viajes"%string, 9);
      ("salud"%string, 6); ("dinero"%string, 2); ("estudios"%string, 3);
      ("familia"%string, 4); ("creatividad"%string, 5); ("amistades"%string, 11);
      ("espiritualidad"%string, 12) ].

Definition get_casa_for_tema (tema : string) : result Z :=
  match TEMAS_CASAS !! tema with
  | None => Raise ValueError
  | Some casa => Ok casa
  end.

(** The table as written, in insertion order. *)
Definition TEMAS_CASAS_items : list (string * Z) :=
  [ ("trabajo"%string, 10); ("amor"%string, 7); ("viajes"%string, 9);
    ("salud"%string, 6); ("dinero"%string, 2); ("estudios"%string, 3);
    ("familia"%string, 4); ("creatividad"%string, 5); ("amistades"%string, 11);
    ("espiritualidad"%string, 12) ].

(** [list(TEMAS_CASAS.keys())] *)
Definition get_temas_disponibles : list string := map fst TEMAS_CASAS_items.

End TemasCasas.

(** ** core/vectorized_scoring.py *)

Module VectorizedScoring.

(** The test written out three times in [calculate_combinations_score]
    (as [is_in_h10] and twice as [in_h1]): the longitude [p] lies in the
    sector that starts at cusp [c_lo] and ends before cusp [c_hi], the
    sector possibly crossing 360. *)
Definition in_sector (c_lo c_hi p : Q) : bool :=
  let case_normal := Np.Qlt_bool c_lo c_hi in
  (case_normal && Qle_bool c_lo p && Np.Qlt_bool p c_hi)
  || (negb case_normal && (Qle_bool c_lo p || Np.Qlt_bool p c_hi)).

(** [is_in_h10(p_longs)], with [cusp_10 = cusps[:, 9]] and
    [cusp_11 = cusps[:, 10]]. *)
Definition is_in_h10 (cusps : list (list Q)) (p_longs : list Q) : list bool :=
  let cusp_10 := Np.col cusps 9 in
  let cusp_11 := Np.col cusps 10 in
  Np.map2 (fun '(c10, c11) p => in_sector c10 c11 p) (zip cusp_10 cusp_11) p_longs.

(** [in_h1], with [c1 = cusps[:, 0]] and [c2 = cusps[:, 1]]. *)
Definition in_h1 (cusps : list (list Q)) (p_longs : list Q) : list bool :=
  let c1 := Np.col cusps 0 in
  let c2 := Np.col cusps 1 in
  Np.map2 (fun '(a, b) p => in_sector a b p) (zip c1 c2) p_longs.

(** One step [total_score += s; details[name] = s]. *)
Definition add_component (name : string) (s : list Q)
           (acc : list Q * gmap string (list Q)) : list Q * gmap string (list Q) :=
  (Np.vadd (fst acc) s, <[name := s]> (snd acc)).

Definition calculate_combinations_score
           (times : list datetime)
           (ruler_asc_ids : list Z) (ruler_asc_longs : list Q)
           (ruler_h10_ids : list Z) (ruler_h10_longs : list Q)
           (planet_longs : gmap Z (list Q))
           (ascmc cusps : list (list Q))
           (natal_asc_sign : option Z)
  : list Q * gmap string (list Q) :=
  let N := length times in
  let acc : list Q * gmap string (list Q) := (Np.zeros N, ∅) in
  (* 1. rulers in aspect *)
  let mask_conj := VectorizedLogic.mask_exact_aspect ruler_asc_longs ruler_h10_longs 0 8 in
  let mask_sext := VectorizedLogic.mask_exact_aspect ruler_asc_longs ruler_h10_longs 60 6 in
  let mask_trin := VectorizedLogic.mask_exact_aspect ruler_asc_longs ruler_h10_longs 120 6 in
  let score_aspect := Np.where_ (Np.vor (Np.vor mask_conj mask_sext) mask_trin) 2 0 in
  let acc := add_component "comb_pos_rulers_aspect" score_aspect acc in
  (* 2, 3, 4: Sun, Jupiter, Moon *)
  let acc :=
    match planet_longs !! 0 with
    | Some p => add_component "comb_pos_sun_h10" (Np.where_ (is_in_h10 cusps p) 2 0) acc
    | None => acc
    end in
  let acc :=
    match planet_longs !! 5 with
    | Some p => add_component "comb_pos_jup_h10" (Np.where_ (is_in_h10 cusps p) 2 0) acc
    | None => acc
    end in
  let acc :=
    match planet_longs !! 1 with
    | Some p => add_component "comb_pos_moon_h10" (Np.where_ (is_in_h10 cusps p) 2 0) acc
    | None => acc
    end in
  (* Saturn *)
  let skip_saturn :=
    match natal_asc_sign with
    | Some s => existsb (Z.eqb s) [9; 10]
    | None => false
    end in
  let acc :=
    match planet_longs !! 6 with
    | Some sat_longs =>
        if skip_saturn then acc
        else
          let acc := add_component "comb_neg_saturn_h10"
                       (Np.where_ (is_in_h10 cusps sat_longs) (-1) 0) acc in
          add_component "comb_neg_saturn_asc"
            (Np.where_ (in_h1 cusps sat_longs) (-1) 0) acc
    | None => acc
    end in
  (* Mars *)
  let skip_mars :=
    match natal_asc_sign with
    | Some s => existsb (Z.eqb s) [0; 7]
    | None => false
    end in
  match planet_longs !! 4 with
  | Some mar_longs =>
      if skip_mars then acc
      else
        let acc := add_component "comb_neg_mars_h10"
                     (Np.where_ (is_in_h10 cusps mar_longs) (-1) 0) acc in
        add_component "comb_neg_mars_asc"
          (Np.where_ (in_h1 cusps mar_longs) (-1) 0) acc
  | None => acc
  end.

(** The two penalty blocks of [calculate_natal_score]: the elected Ascendant
    within 5 degrees of the natal body [natal_pid]. *)
Definition natal_penalty (N : nat) (natal_chart : gmap Z Q) (asc_elect : list Q)
           (natal_pid : Z) (name : string) (acc : list Q * gmap string (list Q))
  : list Q * gmap string (list Q) :=
  match natal_chart !! natal_pid with
  | Some nat_pos =>
      let mask := VectorizedLogic.mask_exact_aspect asc_elect (replicate N nat_pos) 0 5 in
      add_component name (Np.where_ mask (-2) 0) acc
  | None => acc
  end.

(** The local helper [score_natal_aspect] of [calculate_natal_score]. *)
Definition score_natal_aspect (N : nat) (natal_chart : gmap Z Q) (elect_point : list Q)
           (natal_pid : Z) (points_conj points_trine points_sext : Q) (name : string)
           (acc : list Q * gmap string (list Q)) : list Q * gmap string (list Q) :=
  match natal_chart !! natal_pid with
  | None => acc
  | Some nat_pos =>
      let nat_arr := replicate N nat_pos in
      let mask_c := VectorizedLogic.mask_exact_aspect elect_point nat_arr 0 5 in
      let mask_t := VectorizedLogic.mask_exact_aspect elect_point nat_arr 120 5 in
      let mask_s := VectorizedLogic.mask_exact_aspect elect_point nat_arr 60 5 in
      let s := Np.zeros N in
      let s := Np.vadd s (Np.where_ mask_c points_conj 0) in
      let s := Np.vadd s (Np.where_ mask_t points_trine 0) in
      let s := Np.vadd s (Np.where_ mask_s points_sext 0) in
      add_component name s acc
  end.

Definition calculate_natal_score (times : list datetime) (ascmc cusps : list (list Q))
           (natal_chart : gmap Z Q) : list Q * gmap string (list Q) :=
  let N := length times in
  let acc : list Q * gmap string (list Q) := (Np.zeros N, ∅) in
  if bool_decide (natal_chart = ∅) then acc
  else
    let asc_elect := Np.col ascmc 0 in
    let mc_elect := Np.col ascmc 1 in
    let acc := natal_penalty N natal_chart asc_elect 6 "natal_asc_conj_sat" acc in
    let acc := natal_penalty N natal_chart asc_elect 4 "natal_asc_conj_mar" acc in
    let acc := score_natal_aspect N natal_chart asc_elect 0 1 1 1 "natal_asc_sun" acc in
    let acc := score_natal_aspect N natal_chart asc_elect 1 1 1 1 "natal_asc_moon" acc in
    let acc := score_natal_aspect N natal_chart asc_elect 3 1 1 1 "natal_asc_ven" acc in
    let acc := score_natal_aspect N natal_chart asc_elect 5 1 1 1 "natal_asc_jup" acc in
    let acc := score_natal_aspect N natal_chart asc_elect 12 2 1 1 "natal_asc_asc" acc in
    let acc := score_natal_aspect N natal_chart mc_elect 0 1 0 0 "natal_mc_conj_sun" acc in
    let acc := score_natal_aspect N natal_chart mc_elect 1 1 0 0 "natal_mc_conj_moon" acc in
    let acc := score_natal_aspect N natal_chart mc_elect 3 1 0 0 "natal_mc_conj_ven" acc in
    score_natal_aspect N natal_chart mc_elect 5 1 0 0 "natal_mc_conj_jup" acc.

End VectorizedScoring.

(** ** core/election_engine.py *)

Module ElectionEngine.

Import VectorizedLogic.

(** One row of the returned [DataFrame]. *)
Record CandidateRow : Type := mkRow {
  timestamp : datetime;
  is_valid : bool;
  flags : list string;
  moon_sign : Z;
  score_total : Q;
  score_general : Q;
  score_natal : Q;
  score_positive : Q;
  score_negative : Q;
  score_normalized : Q;
  norm_general : Q;
  norm_natal : Q;
  label : string;
  stars : Z;
  score_moon : Q;
  score_r_asc : Q;
  score_r_h10 : Q;
  score_comb : Q;
  components : gmap string Q
}.

(** [range(n)] *)
Definition range (n : Z) : list Z := map Z.of_nat (seq 0 (Z.to_nat n)).

(** Step 1 of [find_elections]: the time grid. *)
Definition time_grid (start_dt end_dt : datetime) (interval_minutes : Z)
  : result (list datetime) :=
  let total_time := end_dt - start_dt in
  if (interval_minutes * 60 =? 0)%Z then Raise ZeroDivisionError
  else
    let total_intervals :=
      Np.trunc (total_seconds total_time / inject_Z (interval_minutes * 60)) in
    Ok (map (fun i => start_dt + timedelta_minutes (i * interval_minutes))
            (range total_intervals)).

(** Step 5: the loop over the 12 signs that fills [is_bad_ruler]. *)
Definition bad_ruler_mask (cusp_signs : list Z) (longitudes speeds : gmap Z (list Q))
           (N : nat) : list bool :=
  fold_left
    (fun is_bad_ruler sign_idx =>
       let mask_times := map (fun s => Z.eqb s sign_idx) cusp_signs in
       if negb (Np.any mask_times) then is_bad_ruler
       else
         let ruler_id := get_ruler_for_sign sign_idx in
         let ruler_longs := Np.select mask_times (longitudes !!! ruler_id) in
         let ruler_speeds_local := Np.select mask_times (speeds !!! ruler_id) in
         let debility_local := mask_debility ruler_id ruler_longs in
         let retro_local := map (fun s => Np.Qlt_bool s 0) ruler_speeds_local in
         Np.assign mask_times is_bad_ruler (Np.vor debility_local retro_local))
    (range 12) (Np.zeros_bool N).

(** Step 6, first part: Mars or Saturn within 5 degrees of an angle. *)
Definition malefic_on_angle_mask (ascmc : list (list Q)) (longitudes : gmap Z (list Q))
           (N : nat) : list bool :=
  let asc_arr := Np.col ascmc 0 in
  let mc_arr := Np.col ascmc 1 in
  let dsc_arr := map (fun a => Np.fmod (a + 180) 360) asc_arr in
  let ic_arr := map (fun a => Np.fmod (a + 180) 360) mc_arr in
  let angles := [asc_arr; mc_arr; dsc_arr; ic_arr] in
  let malefics : list Z := [4; 6] in
  let orb_angle : Q := 5%Q in
  fold_left
    (fun acc malefic_id =>
       let malefic_pos := longitudes !!! malefic_id in
       fold_left
         (fun acc angle =>
            let mask_conj :=
              Np.map2 (fun m a => Qle_bool (separation m a) orb_angle) malefic_pos angle in
            Np.vor acc mask_conj)
         angles acc)
    malefics (Np.zeros_bool N).

(** Step 6, second part.  [is_bad_natal] starts as all [False]; under
    [if natal_chart is not None] (always taken: [None] was replaced by an
    empty dict on entry) it is assigned all [False] again, the call to
    [mask_hard_aspects_to_natal_lights] being commented out. *)
Definition bad_natal_mask (natal_chart : gmap Z Q) (N : nat) : list bool :=
  Np.zeros_bool N.

(** Steps 4 to 7: the rejection mask [is_rejected]. *)
Definition rejection_mask (target_house : Z) (natal_chart : gmap Z Q)
           (longitudes speeds : gmap Z (list Q)) (cusps ascmc : list (list Q))
           (N : nat) : list bool :=
  let moon_longs := longitudes !!! 1 in
  let sun_longs := longitudes !!! 0 in
  let mask_moon_sign := mask_signs moon_longs [7; 9] in
  let mask_phase_ := mask_phase sun_longs moon_longs AstroConfig.ORB_MOON_PHASE in
  let mask_voc := mask_void_of_course moon_longs longitudes in
  let is_bad_moon := Np.vor (Np.vor mask_moon_sign mask_phase_) mask_voc in
  let cusp_longs := Np.col cusps (Z.to_nat (target_house - 1)) in
  let cusp_signs := get_sign_indices cusp_longs in
  let is_bad_ruler := bad_ruler_mask cusp_signs longitudes speeds N in
  let is_malefic_on_angle := malefic_on_angle_mask ascmc longitudes N in
  let is_bad_natal := bad_natal_mask natal_chart N in
  Np.vor (Np.vor (Np.vor is_bad_moon is_bad_ruler) is_bad_natal) is_malefic_on_angle.

(** Step 8.A: the loop over the 12 signs that gathers, per instant, the
    id, longitude and speed of the ruler of the sign in [signs]; the
    source writes it out once for the Ascendant and once for the cusp of
    the target house. *)
Definition gather_rulers (signs : list Z) (longitudes speeds : gmap Z (list Q)) (N : nat)
  : list Z * list Q * list Q :=
  fold_left
    (fun '(ids, longs, spds) sign_idx =>
       let mask := map (fun s => Z.eqb s sign_idx) signs in
       if negb (Np.any mask) then (ids, longs, spds)
       else
         let pid := get_ruler_for_sign sign_idx in
         (Np.assign_const mask ids pid,
          Np.assign mask longs (Np.select mask (longitudes !!! pid)),
          Np.assign mask spds (Np.select mask (speeds !!! pid))))
    (range 12) (replicate N 0, Np.zeros N, Np.zeros N).

Definition clamp_0_100 (x : Q) : Q := Qmin (Qmax x 0%Q) 100%Q.

Definition label_of (score_hybrid : Q) : string * Z :=
  if Qle_bool 80 score_hybrid then ("Excelente"%string, 5)
  else if Qle_bool 60 score_hybrid then ("Muy Bueno"%string, 4)
  else if Qle_bool 40 score_hybrid then ("Bueno"%string, 3)
  else if Qle_bool 20 score_hybrid then ("Regular"%string, 2)
  else ("Pobre"%string, 1).

(** The per-group score arrays that feed the rows. *)
Record Scores : Type := mkScores {
  s_moon : list Q;
  s_r_asc : list Q;
  s_r_h10 : list Q;
  s_natal : list Q;
  s_comb : list Q;
  s_total : list Q;
  s_positive : list Q;
  s_negative : list Q;
  all_details : gmap string (list Q)
}.

Section Rows.

(** [round(x, 1)] on a float. *)
Variable round1 : Q -> Q.

(** The body of the loop [for idx in indices_to_process].  [arr[idx]] is
    read with [nth idx arr 0]: the loop only takes indices below the number
    of instants, and every array it reads holds one entry per instant as
    soon as the scorers return arrays of that length, so no read falls
    outside an array (where numpy would raise [IndexError]). *)
Definition make_row (times_arr : list datetime) (moon_longs : list Q)
           (is_rejected : list bool) (sc : Scores) (idx : nat) : CandidateRow :=
  let is_valid_moment := negb (nth idx is_rejected false) in
  let t := nth idx times_arr 0 in
  let moon_sign_idx := Np.trunc (Np.floordiv (nth idx moon_longs 0%Q) 30) in
  let components : gmap string Q :=
    omap (fun v : list Q =>
            let val := nth idx v 0%Q in
            if Np.Qlt_bool 0.001 (Qabs val) then Some val else None)
         (all_details sc) in
  let s_natal_ := nth idx (s_natal sc) 0%Q in
  let s_general := (nth idx (s_total sc) 0%Q - s_natal_)%Q in
  let MAX_GEN : Q := 30%Q in
  let MAX_NAT : Q := 10%Q in
  let norm_gen := clamp_0_100 ((s_general / MAX_GEN) * 100)%Q in
  let norm_nat := clamp_0_100 ((s_natal_ / MAX_NAT) * 100)%Q in
  let score_hybrid := (norm_gen * 0.70 + norm_nat * 0.30)%Q in
  let '(label_, stars_) := label_of score_hybrid in
  let flags_ := if is_valid_moment then [] else ["rejected"%string] in
  {| timestamp := t;
     is_valid := is_valid_moment;
     flags := flags_;
     moon_sign := moon_sign_idx;
     score_total := nth idx (s_total sc) 0%Q;
     score_general := s_general;
     score_natal := s_natal_;
     score_positive := nth idx (s_positive sc) 0%Q;
     score_negative := nth idx (s_negative sc) 0%Q;
     score_normalized := round1 score_hybrid;
     norm_general := round1 norm_gen;
     norm_natal := round1 norm_nat;
     label := label_;
     stars := stars_;
     score_moon := nth idx (s_moon sc) 0%Q;
     score_r_asc := nth idx (s_r_asc sc) 0%Q;
     score_r_h10 := nth idx (s_r_h10 sc) 0%Q;
     score_comb := nth idx (s_comb sc) 0%Q;
     components := components |}.

(** [np.where(mask)[0]]: the indices at which the mask holds. *)
Definition where_indices (mask : list bool) : list nat :=
  Np.select mask (seq 0 (length mask)).

(** Step 9, from [if return_all:] to the end of the loop. *)
Definition build_results (return_all : bool) (times_arr : list datetime)
           (moon_longs : list Q) (is_rejected : list bool) (sc : Scores)
  : list CandidateRow :=
  let indices_to_process :=
    if return_all then seq 0 (length times_arr)
    else where_indices (Np.vnot is_rejected) in
  map (make_row times_arr moon_longs is_rejected sc) indices_to_process.

End Rows.

(** What a caller sees of the filter: instant and validity flag of each
    returned row. *)
Definition validity_flags (r : result (list CandidateRow))
  : result (list (datetime * bool)) :=
  match r with
  | Ok rows => Ok (map (fun row => (timestamp row, is_valid row)) rows)
  | Raise e => Raise e
  end.

Section Engine.

(** External collaborators: the calendar, the ephemeris and house
    providers, float rounding, and the three score groups of
    [VectorizedScoring] other than the combinations group. *)
Variable ymd : datetime -> Z * Z * Z.
Variable julday : Z -> Z -> Z -> Q -> Q.
Variable calc_ut : Q -> Z -> option VectorizedEphemeris.Position.
Variable houses : Q -> Q -> Q -> option (list Q * list Q).
Variable round1 : Q -> Q.
Variable calculate_moon_score :
  list datetime -> list Q -> list Q -> gmap Z (list Q) ->
  list (list Q) -> list (list Q) -> list Q * gmap string (list Q).
Variable calculate_ruler_score :
  list datetime -> string -> list Q -> list Z -> list Q -> gmap Z (list Q) ->
  list (list Q) -> list Q -> list Q * gmap string (list Q).
Variable calculate_natal_score :
  list datetime -> list (list Q) -> list (list Q) -> gmap Z Q ->
  list Q * gmap string (list Q).

Definition search_bodies : list Z := [0; 1; 2; 3; 4; 5; 6; 10].

(** Step 8: all score groups, their total and the positive and
    negative sums.  The scorers are the methods of [VectorizedScoring];
    each returns one array entry per instant, and the element-wise sums
    below are those of numpy on arrays of that one length. *)
Definition compute_scores (times_arr : list datetime) (target_house : Z)
           (natal_chart : gmap Z Q) (longitudes speeds : gmap Z (list Q))
           (cusps ascmc : list (list Q)) : Scores :=
  let N := length times_arr in
  let moon_longs := longitudes !!! 1 in
  let sun_longs := longitudes !!! 0 in
  let asc_arr := Np.col ascmc 0 in
  let cusp_longs := Np.col cusps (Z.to_nat (target_house - 1)) in
  let cusp_signs := get_sign_indices cusp_longs in
  let asc_signs := get_sign_indices asc_arr in
  let '(ruler_asc_ids, ruler_asc_longs, ruler_asc_speeds) :=
    gather_rulers asc_signs longitudes speeds N in
  let '(ruler_h10_ids, ruler_h10_longs, ruler_h10_speeds) :=
    gather_rulers cusp_signs longitudes speeds N in
  let planet_longs_dict : gmap Z (list Q) :=
    list_to_map (map (fun pid => (pid, longitudes !!! pid)) search_bodies) in
  let '(score_moon_, details_moon) :=
    calculate_moon_score times_arr moon_longs sun_longs planet_longs_dict cusps ascmc in
  let '(score_r_asc_, details_r_asc) :=
    calculate_ruler_score times_arr "ASC" ruler_asc_longs ruler_asc_ids sun_longs
                          planet_longs_dict cusps ruler_asc_speeds in
  let '(score_r_h10_, details_r_h10) :=
    calculate_ruler_score times_arr "H10" ruler_h10_longs ruler_h10_ids sun_longs
                          planet_longs_dict cusps ruler_h10_speeds in
  let '(score_natal_, details_natal) :=
    calculate_natal_score times_arr ascmc cusps natal_chart in
  let natal_asc_sign : option Z := None in
  let '(score_comb_, details_comb) :=
    VectorizedScoring.calculate_combinations_score
      times_arr ruler_asc_ids ruler_asc_longs ruler_h10_ids ruler_h10_longs
      planet_longs_dict ascmc cusps natal_asc_sign in
  let total_score :=
    Np.vadd (Np.vadd (Np.vadd (Np.vadd score_moon_ score_r_asc_) score_r_h10_)
                     score_natal_) score_comb_ in
  (* {**details_moon, ..., **details_comb}: later dicts win *)
  let all_details_ : gmap string (list Q) :=
    details_comb ∪ (details_natal ∪ (details_r_h10 ∪ (details_r_asc ∪ details_moon))) in
  let score_positive_ :=
    map_fold (fun _ arr acc => Np.vadd acc (map (fun x => Qmax x 0%Q) arr))
             (Np.zeros N) all_details_ in
  let score_negative_ :=
    map_fold (fun _ arr acc => Np.vadd acc (map (fun x => Qmin x 0%Q) arr))
             (Np.zeros N) all_details_ in
  {| s_moon := score_moon_; s_r_asc := score_r_asc_; s_r_h10 := score_r_h10_;
     s_natal := score_natal_; s_comb := score_comb_; s_total := total_score;
     s_positive := score_positive_; s_negative := score_negative_;
     all_details := all_details_ |}.

Definition find_elections (start_dt end_dt : datetime) (lat lon : Q)
           (natal_chart : option (gmap Z Q)) (topic : string)
           (interval_minutes : Z) (return_all : bool)
  : result (list CandidateRow) :=
  let natal_chart := default ∅ natal_chart in
  let config := ThemeConfig.get_theme_config topic in
  try times_arr <- time_grid start_dt end_dt interval_minutes in
  try positions <-
    VectorizedEphemeris.calculate_positions ymd julday calc_ut times_arr
      (Some search_bodies) in
  let longitudes := VectorizedEphemeris.get_longitudes positions in
  let speeds := VectorizedEphemeris.get_speeds positions in
  try houses_ <-
    VectorizedHouses.calculate_houses ymd julday houses times_arr lat lon in
  let '(cusps, ascmc) := houses_ in
  let moon_longs := longitudes !!! 1 in
  let target_house := ThemeConfig.target_house config in
  let N := length times_arr in
  let is_rejected :=
    rejection_mask target_house natal_chart longitudes speeds cusps ascmc N in
  (* the log line divides len(valid_indices) by len(times_arr) *)
  if (N =? 0)%nat then Raise ZeroDivisionError
  else
    let sc := compute_scores times_arr target_house natal_chart longitudes speeds
                             cusps ascmc in
    Ok (build_results round1 return_all times_arr moon_longs is_rejected sc).

End Engine.

End ElectionEngine.

(** ** Python's stable sort *)

Module PySort.

Section Sort.

Context {A : Type}.

(** [before x y]: [x] may stay in front of [y], that is, [y] does not
    compare strictly before [x].  An element is inserted behind every
    element it may not overtake, so equal elements keep their order. *)
Variable before : A -> A -> bool.

Fixpoint insert (x : A) (l : list A) : list A :=
  match l with
  | [] => [x]
  | y :: l' => if before x y then x :: l else y :: insert x l'
  end.

Fixpoint sort (l : list A) : list A :=
  match l with
  | [] => []
  | x :: l' => insert x (sort l')
  end.

End Sort.

(** [sorted(values)] on floats. *)
Definition sorted (values : list Q) : list Q := sort Qle_bool values.

End PySort.

(** ** utils/scc_calculator.py *)

Module SCC_Calculator.

Local Open Scope Q_scope.

Definition ENRAIZAMIENTO_MIN : Q := -6.
Definition ENRAIZAMIENTO_MAX : Q := 10.
Definition ENRAIZAMIENTO_RANGO : Q := ENRAIZAMIENTO_MAX - ENRAIZAMIENTO_MIN.
Definition PESO_ABSOLUTO : Q := 0.8.
Definition PESO_RELATIVO : Q := 0.2.
Definition UMBRAL_MINIMO_RECOMENDABLE : Q := 40.

Definition _calcular_componente_absoluto (puntos : Q) : Q :=
  if Qle_bool puntos ENRAIZAMIENTO_MIN then 0
  else if Qle_bool ENRAIZAMIENTO_MAX puntos then 100
  else
    let ratio := (puntos - ENRAIZAMIENTO_MIN) / ENRAIZAMIENTO_RANGO in
    ratio * 100.

Definition Qnat (n : nat) : Q := inject_Z (Z.of_nat n).

(** The loop [for i, valor in enumerate(valores_ordenados)], resumed at
    index [i] with the entries [rest] still to visit; falling off the end
    returns 100. *)
Fixpoint relativo_loop (puntos : Q) (valores_ordenados : list Q) (n i : nat)
         (rest : list Q) : Q :=
  match rest with
  | [] => 100
  | valor :: rest' =>
      if Qle_bool puntos valor then
        if (i =? 0)%nat then 0
        else if Qeq_bool puntos valor then (Qnat i / Qnat n) * 100
        else
          let prev_valor := nth (i - 1) valores_ordenados 0 in
          if negb (Qeq_bool valor prev_valor) then
            let interpolacion := (puntos - prev_valor) / (valor - prev_valor) in
            ((Qnat (i - 1) + interpolacion) / Qnat n) * 100
          else (Qnat i / Qnat n) * 100
      else relativo_loop puntos valores_ordenados n (S i) rest'
  end.

Definition _calcular_componente_relativo (puntos : Q) (valores_referencia : list Q) : Q :=
  match valores_referencia with
  | [] => 50
  | _ =>
      let valores_ordenados := PySort.sorted valores_referencia in
      let n := length valores_ordenados in
      relativo_loop puntos valores_ordenados n 0 valores_ordenados
  end.

Definition _estimar_percentil_aproximado (puntos : Q) : Q :=
  if Qle_bool 3 puntos then 95
  else if Qle_bool 2 puntos then 85
  else if Qle_bool 1 puntos then 70
  else if Qle_bool 0 puntos then 50
  else if Qle_bool (-2) puntos then 30
  else 10.

(** The category strings of [_asignar_categoria_scc]. *)
Inductive Categoria : Type :=
| NO_RECOMENDABLE | EXCEPCIONAL | SOBRE_PROMEDIO | PROMEDIO | DEBAJO_PROMEDIO | LIMITADO.

Definition _asignar_categoria_scc (scc : Q) (recomendable : bool) : Categoria :=
  if negb recomendable then NO_RECOMENDABLE
  else if Qle_bool 75 scc then EXCEPCIONAL
  else if Qle_bool 65 scc then SOBRE_PROMEDIO
  else if Qle_bool 50 scc then PROMEDIO
  else if Qle_bool 40 scc then DEBAJO_PROMEDIO
  else LIMITADO.

(** The reasons of [_get_motivo_no_recomendable]. *)
Inductive Motivo : Type :=
| AbsolutoMuyBajo | BajoUmbral | CalidadInsuficiente.

Definition _get_motivo_no_recomendable (scc absoluto_pct : Q) : Motivo :=
  if Np.Qlt_bool absoluto_pct 30 then AbsolutoMuyBajo
  else if Np.Qlt_bool scc UMBRAL_MINIMO_RECOMENDABLE then BajoUmbral
  else CalidadInsuficiente.

(** The dict returned by [calcular_scc]. *)
Record SCCData : Type := mkSCC {
  scc : Q;
  absoluto_pct : Q;
  relativo_pct : Q;
  recomendable : bool;
  categoria : Categoria;
  motivo_no_recomendable : option Motivo
}.

(** The relative component chosen by [calcular_scc]. *)
Definition relativo_de (puntos : Q) (valores_referencia : option (list Q)) : Q :=
  match valores_referencia with
  | Some vs =>
      if (1 <? length vs)%nat then _calcular_componente_relativo puntos vs
      else _estimar_percentil_aproximado puntos
  | None => _estimar_percentil_aproximado puntos
  end.

(** The blended score of [calcular_scc], before rounding. *)
Definition scc_blend (puntos : Q) (valores_referencia : option (list Q)) : Q :=
  _calcular_componente_absoluto puntos * PESO_ABSOLUTO
  + relativo_de puntos valores_referencia * PESO_RELATIVO.

(** The inner dicts of [detalles] that the ranking reads. *)
Record Fase1 : Type := mkFase1 {
  puntos_luna : Q;
  puntos_regente_asc : Q;
  puntos_regente_casa10 : Q;
  puntos_combinaciones_positivas : Q;
  puntos_combinaciones_negativas : Q
}.

(** [detalles]: [enraizamiento_puro] holds
    [detalles['enraizamiento_puro']['puntos_total']] when present, [fase1]
    the points under [detalles['fase1']['detalles']] when [fase1] is
    present and not empty. *)
Record Detalles : Type := mkDetalles {
  enraizamiento_puro : option Q;
  fase1 : option Fase1
}.

(** A moment as built by [_procesar_momento_paralelo]. *)
Record Momento : Type := mkMomento {
  fecha_hora : datetime;
  tema_consulta : string;
  enraizamiento_score : Q;
  calidad_score : Q;
  enraizamiento_pct : Q;
  calidad_pct : Q;
  puntaje_ranking : Q;
  puntuacion_total : Q;
  detalles : Detalles
}.

(** A moment after [momento.update({'scc': ..., ...})]. *)
Record MomentoSCC : Type := mkMomentoSCC {
  momento : Momento;
  m_scc : Q;
  m_scc_absoluto_pct : Q;
  m_scc_relativo_pct : Q;
  m_scc_categoria : Categoria;
  m_scc_recomendable : bool
}.

Definition _extraer_enraizamiento_puro (m : Momento) : Q :=
  match enraizamiento_puro (detalles m) with
  | Some puntos_total => puntos_total
  | None =>
      let score := enraizamiento_score m in
      if Qle_bool 0 score && Qle_bool score 1 then (score - 0.5) * 8
      else 0
  end.

Section Rounding.

(** [round(x, 1)] on a float. *)
Variable round1 : Q -> Q.

Definition calcular_scc (enraizamiento_puntos : Q) (valores_referencia : option (list Q))
  : SCCData :=
  let absoluto := _calcular_componente_absoluto enraizamiento_puntos in
  let relativo := relativo_de enraizamiento_puntos valores_referencia in
  let scc_ := absoluto * PESO_ABSOLUTO + relativo * PESO_RELATIVO in
  let recomendable_ := Qle_bool UMBRAL_MINIMO_RECOMENDABLE scc_ in
  let categoria_ := _asignar_categoria_scc scc_ recomendable_ in
  {| scc := round1 scc_;
     absoluto_pct := round1 absoluto;
     relativo_pct := round1 relativo;
     recomendable := recomendable_;
     categoria := categoria_;
     motivo_no_recomendable :=
       if recomendable_ then None
       else Some (_get_motivo_no_recomendable scc_ absoluto) |}.

Definition procesar_momentos_con_scc (momentos : list Momento) : list MomentoSCC :=
  let valores_enraizamiento := map _extraer_enraizamiento_puro momentos in
  map (fun m =>
         let enraizamiento_puntos := _extraer_enraizamiento_puro m in
         let scc_data := calcular_scc enraizamiento_puntos (Some valores_enraizamiento) in
         {| momento := m;
            m_scc := scc scc_data;
            m_scc_absoluto_pct := absoluto_pct scc_data;
            m_scc_relativo_pct := relativo_pct scc_data;
            m_scc_categoria := categoria scc_data;
            m_scc_recomendable := recomendable scc_data |})
      momentos.

End Rounding.

End SCC_Calculator.

(** ** core/algoritmo_busqueda.py *)

Module AlgoritmoBusqueda.

Import SCC_Calculator.
Local Open Scope Q_scope.

Definition MAX_RESULTADOS_FINALES : nat := 25.
Definition UMBRAL_ENRAIZAMIENTO_MINIMO : Q := 25.

(** What [calcular_enraizamiento_avanzado] returns. *)
Record Resultado : Type := mkResultado {
  apto : bool;
  r_enraizamiento_score : Q;
  r_calidad_score : Q;
  r_detalles : Detalles
}.

Definition _calcular_puntaje_ranking (d : Detalles) : Q :=
  match fase1 d with
  | None => 0
  | Some f =>
      let puntaje_total :=
        puntos_luna f + puntos_regente_asc f + puntos_regente_casa10 f
        + puntos_combinaciones_positivas f + puntos_combinaciones_negativas f in
      let puntos_maximos : Q := 32 in
      let puntos_minimos : Q := -2 in
      if Qle_bool puntaje_total puntos_minimos then 0
      else if Qle_bool puntos_maximos puntaje_total then 100
      else
        let ratio := (puntaje_total - puntos_minimos) / (puntos_maximos - puntos_minimos) in
        Qmax 0 (Qmin 100 (ratio * 100))
  end.

(** [_generar_momentos_fase1]: [while fecha_actual <= fecha_fin], every
    30 minutes.  The number of turns of the loop is known beforehand. *)
Definition _generar_momentos_fase1 (fecha_inicio fecha_fin : datetime) : list datetime :=
  if (fecha_fin <? fecha_inicio)%Z then []
  else
    let turns := ((fecha_fin - fecha_inicio) / timedelta_minutes 30 + 1)%Z in
    map (fun k => (fecha_inicio + Z.of_nat k * timedelta_minutes 30)%Z)
        (seq 0 (Z.to_nat turns)).

(** The sort key [(x.get('scc', 0), x['puntuacion_total'])] and Python's
    comparison of two such tuples. *)
Definition sort_key (x : MomentoSCC) : Q * Q := (m_scc x, puntuacion_total (momento x)).

Definition tuple_lt (a b : Q * Q) : bool :=
  if Qeq_bool (fst a) (fst b) then Np.Qlt_bool (snd a) (snd b)
  else Np.Qlt_bool (fst a) (fst b).

(** [reverse=True]: [x] stays in front of [y] unless its key is smaller. *)
Definition before_desc (x y : MomentoSCC) : bool :=
  negb (tuple_lt (sort_key x) (sort_key y)).

(** The loop of [_eliminar_momentos_cercanos] over [momentos_ordenados[1:]];
    [ultimo_incluido] is the last instant kept so far. *)
Fixpoint cercanos_loop (distancia_minima_minutos : Z) (ultimo_incluido : datetime)
         (rest : list datetime) : list datetime :=
  match rest with
  | [] => []
  | momento :: rest' =>
      let diferencia_minutos := total_seconds (momento - ultimo_incluido) / 60 in
      if Qle_bool (inject_Z distancia_minima_minutos) diferencia_minutos
      then momento :: cercanos_loop distancia_minima_minutos momento rest'
      else cercanos_loop distancia_minima_minutos ultimo_incluido rest'
  end.

Definition _eliminar_momentos_cercanos (momentos : list datetime)
           (distancia_minima_minutos : Z) : list datetime :=
  match PySort.sort Z.leb momentos with
  | [] => []
  | primero :: rest => primero :: cercanos_loop distancia_minima_minutos primero rest
  end.

Section Search.

(** [round(x, 1)] and [round(x, 2)] on a float; the full evaluation of
    one instant ([None] when it returns nothing or raises); the phase 1
    check ([true]: the instant is kept); and the order in which the
    thread pool completes its futures. *)
Variable round1 round2 : Q -> Q.
Variable calcular_enraizamiento_avanzado : datetime -> option Resultado.
Variable procesar_momento_fase1_estatico : datetime -> bool.
Variable as_completed : list datetime -> list datetime.
Variable tema_consulta_ : string.

Definition _calcular_puntuacion_total_combinada (e c : Q) : Q :=
  round2 (e * 80 + c * 20).

Definition _procesar_momento_paralelo (momento : datetime) : option Momento :=
  match calcular_enraizamiento_avanzado momento with
  | Some resultado =>
      if apto resultado then
        let e_pct := r_enraizamiento_score resultado * 100 in
        let c_pct := r_calidad_score resultado * 100 in
        if Qle_bool UMBRAL_ENRAIZAMIENTO_MINIMO e_pct then
          Some {| fecha_hora := momento;
                  tema_consulta := tema_consulta_;
                  enraizamiento_score := r_enraizamiento_score resultado;
                  calidad_score := r_calidad_score resultado;
                  enraizamiento_pct := e_pct;
                  calidad_pct := c_pct;
                  puntaje_ranking := _calcular_puntaje_ranking (r_detalles resultado);
                  puntuacion_total :=
                    _calcular_puntuacion_total_combinada
                      (r_enraizamiento_score resultado) (r_calidad_score resultado);
                  detalles := r_detalles resultado |}
        else None
      else None
  | None => None
  end.

Definition _aplicar_scc_a_momentos (momentos : list Momento) : list MomentoSCC :=
  procesar_momentos_con_scc round1 momentos.

(** [ThreadPoolExecutor(max_workers=min(4, len(...)))] refuses
    [max_workers = 0]. *)
Definition _fase_2_enraizamiento (momentos_prometedores : list datetime)
  : result (list MomentoSCC) :=
  match momentos_prometedores with
  | [] => Raise ValueError
  | _ =>
      let momentos_enraizados :=
        omap _procesar_momento_paralelo (as_completed momentos_prometedores) in
      let momentos_con_scc := _aplicar_scc_a_momentos momentos_enraizados in
      let ordenados := PySort.sort before_desc momentos_con_scc in
      Ok (take MAX_RESULTADOS_FINALES ordenados)
  end.

(** [mp.Pool(processes=min(mp.cpu_count(), len(momentos_fase1)))] refuses
    [processes = 0] with a [ValueError]; [mp.cpu_count()] is at least 1, so
    this happens exactly when no instant was generated. *)
Definition _fase_1_filtro_basico (fecha_inicio fecha_fin : datetime)
  : result (list datetime) :=
  let momentos_fase1 := _generar_momentos_fase1 fecha_inicio fecha_fin in
  match momentos_fase1 with
  | [] => Raise ValueError
  | _ => Ok (filter (fun m => procesar_momento_fase1_estatico m = true) momentos_fase1)
  end.

Definition buscar_mejores_momentos (fecha_inicio fecha_fin : datetime)
  : result (list MomentoSCC) :=
  try momentos_prometedores <- _fase_1_filtro_basico fecha_inicio fecha_fin in
  match momentos_prometedores with
  | [] => Ok []
  | _ => _fase_2_enraizamiento momentos_prometedores
  end.

(** [_eliminar_duplicados_por_tiempo]: one moment per minute, the first
    one met unless a later one has a larger total score, or the same
    total score and a larger rooting score.  Nothing in this module
    calls it. *)
Fixpoint dedup_put (m : Momento) (acc : list (datetime * Momento))
  : list (datetime * Momento) :=
  match acc with
  | [] => [(round_to_minute (fecha_hora m), m)]
  | (t, existente) :: acc' =>
      if (t =? round_to_minute (fecha_hora m))%Z then
        if Np.Qlt_bool (puntuacion_total existente) (puntuacion_total m) then (t, m) :: acc'
        else if Qeq_bool (puntuacion_total m) (puntuacion_total existente) then
          if Np.Qlt_bool (enraizamiento_score existente) (enraizamiento_score m)
          then (t, m) :: acc'
          else (t, existente) :: acc'
        else (t, existente) :: acc'
      else (t, existente) :: dedup_put m acc'
  end.

Definition _eliminar_duplicados_por_tiempo (momentos : list Momento) : list Momento :=
  map snd (fold_left (fun acc m => dedup_put m acc) momentos []).

End Search.

End AlgoritmoBusqueda.

(** ** The spec's words *)

Module SpecWords.

(** "Occupies house [h]": the longitude lies in the sector that starts at
    the cusp of house [h] and ends before the cusp of the next house
    ([cusps_row] holds cusps 1 to 12). *)
Definition occupies_house (h : Z) (cusps_row : list Q) (p : Q) : bool :=
  VectorizedScoring.in_sector
    (nth (Z.to_nat (h - 1)) cusps_row 0%Q)
    (nth (Z.to_nat (h mod 12)) cusps_row 0%Q) p.

(** The occupancy mask of house [h] over a batch. *)
Definition house_mask (h : Z) (cusps : list (list Q)) (p_longs : list Q) : list bool :=
  Np.map2 (occupies_house h) cusps p_longs.

(** Absolute-range normalisation in the spec's words: the linear map of
    [lo .. hi] onto 0 .. 100, clamped. *)
Definition absolute_pct (lo hi p : Q) : Q :=
  Qmax 0 (Qmin 100 ((p - lo) / (hi - lo) * 100))%Q.

(** "A fixed coarse percentile ladder keyed on absolute value thresholds":
    [r] is the percentile of the rung on which the value [p] stands. *)
Definition on_ladder (p r : Q) : Prop :=
  ((3 <= p -> r = 95)
   /\ (2 <= p < 3 -> r = 85)
   /\ (1 <= p < 2 -> r = 70)
   /\ (0 <= p < 1 -> r = 50)
   /\ (-2 <= p < 0 -> r = 30)
   /\ (p < -2 -> r = 10))%Q.

(** The greatest and the least entry of a non-empty batch [x :: l]. *)
Definition greatest (x : Q) (l : list Q) : Q := fold_right Qmax x l.
Definition least (x : Q) (l : list Q) : Q := fold_right Qmin x l.

(** "Percentile rank within the batch via sorted-interpolation", said
    without sorting: with [k] of the [n] entries below [p], the rank is
    [k / n] when [p] is an entry of the batch, and otherwise lies between
    [(k - 1) / n] and [k / n], in the proportion in which [p] lies between
    the greatest entry below it and the least entry above it; it is 0 when
    no entry is below [p] and 100 when every entry is. *)
Definition interpolated_percentile (p : Q) (V : list Q) : Q :=
  let n := inject_Z (Z.of_nat (length V)) in
  match List.filter (fun v => Qle_bool p v) V,
        List.filter (fun v => Np.Qlt_bool v p) V with
  | [], _ => 100
  | _ :: _, [] => 0
  | u :: us, l :: ls =>
      let k := inject_Z (Z.of_nat (length (l :: ls))) in
      let hi := least u us in
      let lo := greatest l ls in
      if Qeq_bool p hi then k / n * 100
      else (k - 1 + (p - lo) / (hi - lo)) / n * 100
  end%Q.

(** "Descending by the two-level key (contextual score, then total
    score)": [x] may stand in front of [y]. *)
Definition key_ge (x y : SCC_Calculator.MomentoSCC) : Prop :=
  (SCC_Calculator.m_scc y < SCC_Calculator.m_scc x
   \/ (SCC_Calculator.m_scc x == SCC_Calculator.m_scc y
       /\ SCC_Calculator.puntuacion_total (SCC_Calculator.momento y)
          <= SCC_Calculator.puntuacion_total (SCC_Calculator.momento x)))%Q.

(** Degrees left before the Moon leaves its sign. *)
Definition to_ingress (m : Q) : Q := (Np.floordiv m 30 * 30 + 30 - m)%Q.

(** The Moon at [m] reaches the point [target] before leaving its sign. *)
Definition reaches (m target : Q) : bool :=
  Np.Qlt_bool (Np.fmod (target - m) 360) (to_ingress m).

(** The timestamp of an entry, rounded to the minute. *)
Definition minute_of (x : SCC_Calculator.MomentoSCC) : datetime :=
  round_to_minute (SCC_Calculator.fecha_hora (SCC_Calculator.momento x)).

(** What a score group returns has one entry per instant: the score array
    and every component array have [N] entries. *)
Definition per_instant (N : nat) (r : list Q * gmap string (list Q)) : Prop :=
  length (fst r) = N /\ map_Forall (fun _ arr => length arr = N) (snd r).

(** Every entry of the array lies between [lo] and [hi]. *)
Definition within (lo hi : Q) (l : list Q) : Prop :=
  List.Forall (fun x => lo <= x <= hi)%Q l.

End SpecWords.

(** ** A sample sky

    Test doubles for the external collaborators, used to run the search on
    concrete inputs: one fixed sky, equal houses from an Ascendant at 0
    degrees with the Midheaven at 270, and score groups that award nothing. *)

Module Sample.

Import VectorizedEphemeris.

Definition ymd (_ : datetime) : Z * Z * Z := (2025, 1, 1).
Definition julday (_ _ _ : Z) (hour : Q) : Q := hour.

(** Sun 190, Moon 40, Mercury 110, Venus 50, Mars 130, Jupiter 220,
    Saturn 310, node 15; every body direct. *)
Definition longitude_of (body : Z) : Q :=
  if (body =? 0)%Z then 190 else if (body =? 1)%Z then 40
  else if (body =? 2)%Z then 110 else if (body =? 3)%Z then 50
  else if (body =? 4)%Z then 130 else if (body =? 5)%Z then 220
  else if (body =? 6)%Z then 310 else 15.

Definition calc_ut (_ : Q) (body : Z) : option Position :=
  Some (mkPosition (longitude_of body) 0 1 1 0 0).

Definition cusps_row : list Q := [0; 30; 60; 90; 120; 150; 180; 210; 240; 270; 300; 330]%Q.
Definition ascmc_row : list Q := [0; 270; 0; 0; 0; 0; 0; 0; 0; 0]%Q.

(** The sample house system is not defined beyond 66 degrees of latitude. *)
Definition houses (_ lat _ : Q) : option (list Q * list Q) :=
  if Np.Qlt_bool 66 (Qabs lat) then None else Some (cusps_row, ascmc_row).

Definition round1 (x : Q) : Q := x.

Definition no_moon_score (times : list datetime) (_ _ : list Q) (_ : gmap Z (list Q))
           (_ _ : list (list Q)) : list Q * gmap string (list Q) :=
  (Np.zeros (length times), ∅).

Definition no_ruler_score (times : list datetime) (_ : string) (_ : list Q) (_ : list Z)
           (_ : list Q) (_ : gmap Z (list Q)) (_ : list (list Q)) (_ : list Q)
  : list Q * gmap string (list Q) :=
  (Np.zeros (length times), ∅).

Definition no_natal_score (times : list datetime) (_ _ : list (list Q)) (_ : gmap Z Q)
  : list Q * gmap string (list Q) :=
  (Np.zeros (length times), ∅).

(** The search over the sample sky. *)
Definition find (start_dt end_dt : datetime) (natal_chart : option (gmap Z Q))
           (topic : string) (interval_minutes : Z) (return_all : bool)
  : result (list ElectionEngine.CandidateRow) :=
  ElectionEngine.find_elections ymd julday calc_ut houses round1
    no_moon_score no_ruler_score no_natal_score
    start_dt end_dt 0 0 natal_chart topic interval_minutes return_all.

(** One hour of the sample sky, searched with the natal group of the code. *)
Definition find_natal (natal : option (gmap Z Q))
  : result (list ElectionEngine.CandidateRow) :=
  ElectionEngine.find_elections ymd julday calc_ut houses round1
    no_moon_score no_ruler_score VectorizedScoring.calculate_natal_score
    0%Z (timedelta_minutes 60) 0 0 natal "trabajo" 60 true.

(** A sky in which the Moon moves half a circle per hour: at 0h it is at
    40 degrees (Taurus), at 1h at 220 (Scorpio). *)
Definition calc_ut_moving (jd : Q) (body : Z) : option Position :=
  if (body =? 1)%Z then Some (mkPosition (40 + 180 * jd) 0 1 1 0 0)
  else calc_ut jd body.

(** A Moon group that awards 3 points at every instant. *)
Definition flat_moon_score (times : list datetime) (_ _ : list Q) (_ : gmap Z (list Q))
           (_ _ : list (list Q)) : list Q * gmap string (list Q) :=
  (replicate (length times) 3%Q, {[ "moon_sample"%string := replicate (length times) 3%Q ]}).

(** Two hours of the moving sky at latitude [lat], with the Moon group
    above and the natal group of the code. *)
Definition find_moving (lat : Q) (return_all : bool)
  : result (list ElectionEngine.CandidateRow) :=
  ElectionEngine.find_elections ymd julday calc_ut_moving houses round1
    flat_moon_score no_ruler_score VectorizedScoring.calculate_natal_score
    0%Z (timedelta_minutes 120) lat 0 None "trabajo" 60 return_all.

(** The transiting longitudes of the sample sky at one instant. *)
Definition transits : gmap Z (list Q) :=
  list_to_map (map (fun b => (b, [longitude_of b])) ElectionEngine.search_bodies).

(** A natal chart whose Sun sits where Mars transits. *)
Definition natal_sun_on_mars : gmap Z Q := {[ 0%Z := 130%Q ]}.

(** A full evaluation that finds every instant apt; an instant on a whole
    minute scores lower than one inside a minute. *)
Definition evaluate (t : datetime) : option AlgoritmoBusqueda.Resultado :=
  let score : Q := if (t mod MICROS_PER_MINUTE =? 0)%Z then 0.5%Q else 0.9%Q in
  Some (AlgoritmoBusqueda.mkResultado true score 0.5%Q
          (SCC_Calculator.mkDetalles (Some 2%Q) None)).

(** Futures completing in submission order. *)
Definition in_order (l : list datetime) : list datetime := l.

Definition fase_2 (momentos : list datetime) : result (list SCC_Calculator.MomentoSCC) :=
  AlgoritmoBusqueda._fase_2_enraizamiento round1 round1 evaluate in_order "trabajo"
    momentos.

End Sample.

(** * Properties *)

(** ** Pointwise reading of array code *)

Module Pointwise.

Lemma nth_zip_with {A B C : Type} (f : A -> B -> C) (xs : list A) (ys : list B)
      (i : nat) (da : A) (db : B) (dc : C) :
  (i < length xs)%nat -> (i < length ys)%nat ->
  nth i (zip_with f xs ys) dc = f (nth i xs da) (nth i ys db).
Proof.
  revert ys i. induction xs as [|x xs IH]; intros [|y ys] [|i] Hx Hy; cbn in *;
    try lia; [reflexivity|]. apply IH; lia.
Qed.

Lemma nth_map_in {A B : Type} (f : A -> B) (xs : list A) (i : nat) (da : A) (db : B) :
  (i < length xs)%nat -> nth i (map f xs) db = f (nth i xs da).
Proof.
  revert i. induction xs as [|x xs IH]; intros [|i] Hi; cbn in *; try lia;
    [reflexivity|]. apply IH. lia.
Qed.

Lemma nth_replicate_in {A : Type} (n i : nat) (x d : A) :
  (i < n)%nat -> nth i (replicate n x) d = x.
Proof.
  revert i. induction n as [|n IH]; intros [|i] Hi; cbn; try lia; [reflexivity|].
  apply IH. lia.
Qed.

Lemma nth_vor (n : nat) (a b : list bool) (i : nat) :
  length a = n -> length b = n -> (i < n)%nat ->
  nth i (Np.vor a b) false = nth i a false || nth i b false.
Proof.
  intros Ha Hb Hi. unfold Np.vor, Np.map2. apply nth_zip_with; lia.
Qed.

Lemma length_vor (n : nat) (a b : list bool) :
  length a = n -> length b = n -> length (Np.vor a b) = n.
Proof. intros Ha Hb. unfold Np.vor, Np.map2. rewrite length_zip_with. lia. Qed.

Lemma nth_vor6 (n : nat) (a b c d e f : list bool) (i : nat) :
  length a = n -> length b = n -> length c = n -> length d = n -> length e = n ->
  length f = n -> (i < n)%nat ->
  nth i (Np.vor (Np.vor (Np.vor (Np.vor (Np.vor a b) c) d) e) f) false
  = nth i a false || nth i b false || nth i c false || nth i d false
    || nth i e false || nth i f false.
Proof.
  intros Ha Hb Hc Hd He Hf Hi.
  pose proof (length_vor n a b Ha Hb) as H1.
  pose proof (length_vor n _ c H1 Hc) as H2.
  pose proof (length_vor n _ d H2 Hd) as H3.
  pose proof (length_vor n _ e H3 He) as H4.
  rewrite (nth_vor n _ f i H4 Hf Hi), (nth_vor n _ e i H3 He Hi),
    (nth_vor n _ d i H2 Hd Hi), (nth_vor n _ c i H1 Hc Hi), (nth_vor n a b i Ha Hb Hi).
  reflexivity.
Qed.

Lemma nth_vadd (n : nat) (a b : list Q) (i : nat) :
  length a = n -> length b = n -> (i < n)%nat ->
  nth i (Np.vadd a b) 0%Q = (nth i a 0 + nth i b 0)%Q.
Proof.
  intros Ha Hb Hi. unfold Np.vadd, Np.map2. apply nth_zip_with; lia.
Qed.

Lemma length_vadd (n : nat) (a b : list Q) :
  length a = n -> length b = n -> length (Np.vadd a b) = n.
Proof. intros Ha Hb. unfold Np.vadd, Np.map2. rewrite length_zip_with. lia. Qed.

Section Folds.

Context {X : Type}.
Variable n : nat.
Variable F : list bool -> X -> list bool.
Variable g : X -> nat -> bool.

(** A loop whose every turn and-s a condition into the mask. *)
Lemma fold_and (l : list X) (init : list bool) :
  (forall acc x, In x l -> length acc = n ->
                 length (F acc x) = n
                 /\ forall i, (i < n)%nat ->
                              nth i (F acc x) false = nth i acc false && g x i) ->
  length init = n ->
  length (fold_left F l init) = n
  /\ forall i, (i < n)%nat ->
               nth i (fold_left F l init) false
               = nth i init false && forallb (fun x => g x i) l.
Proof.
  revert init. induction l as [|x l IH]; intros init Hstep Hinit; cbn [fold_left forallb].
  - split; [exact Hinit|]. intros i _. rewrite andb_true_r. reflexivity.
  - destruct (Hstep init x (or_introl eq_refl) Hinit) as [Hlen Hval].
    destruct (IH (F init x)) as [Hlen' Hval'];
      [intros acc y Hy; apply Hstep; right; exact Hy|exact Hlen|].
    split; [exact Hlen'|]. intros i Hi.
    rewrite Hval', Hval by exact Hi. rewrite andb_assoc. reflexivity.
Qed.

(** A loop whose every turn or-s a condition into the mask. *)
Lemma fold_or (l : list X) (init : list bool) :
  (forall acc x, In x l -> length acc = n ->
                 length (F acc x) = n
                 /\ forall i, (i < n)%nat ->
                              nth i (F acc x) false = nth i acc false || g x i) ->
  length init = n ->
  length (fold_left F l init) = n
  /\ forall i, (i < n)%nat ->
               nth i (fold_left F l init) false
               = nth i init false || existsb (fun x => g x i) l.
Proof.
  revert init. induction l as [|x l IH]; intros init Hstep Hinit; cbn [fold_left existsb].
  - split; [exact Hinit|]. intros i _. rewrite orb_false_r. reflexivity.
  - destruct (Hstep init x (or_introl eq_refl) Hinit) as [Hlen Hval].
    destruct (IH (F init x)) as [Hlen' Hval'];
      [intros acc y Hy; apply Hstep; right; exact Hy|exact Hlen|].
    split; [exact Hlen'|]. intros i Hi.
    rewrite Hval', Hval by exact Hi. rewrite orb_assoc. reflexivity.
Qed.

End Folds.

End Pointwise.

(** ** Dignity and debility (vectorized_logic.py) *)

Module LogicFacts.

Import VectorizedLogic.

Lemma planet_cases (p : Z) :
  p = 0 \/ p = 1 \/ p = 2 \/ p = 3 \/ p = 4 \/ p = 5 \/ p = 6 \/ (p < 0 \/ 6 < p).
Proof. lia. Qed.

Ltac split_eqb :=
  repeat match goal with
         | |- context [Z.eqb ?a ?b] => destruct (Z.eqb_spec a b); try lia
         end.

(** A body outside Sun..Saturn has no dignity sign. *)
Lemma dignity_signs_other (p : Z) : p < 0 \/ 6 < p -> dignity_signs p = [].
Proof.
  intros Hp. unfold dignity_signs, RULER_MAP, EXALTATION_MAP.
  cbn [filter list_filter table_get snd].
  repeat case_decide; try lia.
  split_eqb. reflexivity.
Qed.

(** No sign is at once a sign of dignity and a sign of debility. *)
Lemma signs_disjoint (p s : Z) :
  existsb (Z.eqb s) (dignity_signs p) && existsb (Z.eqb s) (debility_signs p) = false.
Proof.
  destruct (planet_cases p) as [->|[->|[->|[->|[->|[->|[->|Hp]]]]]]].
  1-7: vm_compute dignity_signs; vm_compute debility_signs;
       cbn [existsb]; split_eqb; reflexivity.
  rewrite dignity_signs_other by assumption. reflexivity.
Qed.

(** C7: for every body and every longitude array, the dignity mask and the
    debility mask are never both true at the same position; underneath,
    no sign belongs both to a body's domicile/exaltation set and to its
    detriment/fall set. *)
Theorem dignity_debility_exclusive :
  (forall (body : Z) (L : list Q),
      Np.vand (mask_dignity body L) (mask_debility body L)
      = Np.zeros_bool (length L))
  /\ (forall body s : Z,
         existsb (Z.eqb s) (dignity_signs body)
         && existsb (Z.eqb s) (debility_signs body) = false).
Proof.
  split; [|exact signs_disjoint].
  intros body L. unfold Np.vand, Np.map2, mask_dignity, mask_debility, Np.isin,
                   get_sign_indices, Np.zeros_bool.
  induction L as [|x L IH]; [reflexivity|].
  cbn [map zip_with length replicate]. rewrite signs_disjoint. f_equal. exact IH.
Qed.

End LogicFacts.

(** ** Zero-filled fallback (vectorized_ephemeris.py) *)

Module EphemerisFacts.

Import VectorizedEphemeris.

Section WithProvider.

Variable calc_ut : Q -> Z -> option Position.

Lemma fold_bodies_lookup (jds : list Q) (bodies : list Z)
      (state : gmap Z (list (list Q)) * list Z) (b : Z) :
  fst (fold_left (position_step calc_ut jds) bodies state) !! b
  = if decide (b ∈ bodies) then Some (entry calc_ut jds b) else fst state !! b.
Proof.
  revert state. induction bodies as [|x bodies IH]; intros state; cbn [fold_left].
  - case_decide as H; [inversion H|reflexivity].
  - rewrite IH. destruct (decide (b ∈ bodies)) as [Hin|Hnin].
    + rewrite decide_True by (right; exact Hin). reflexivity.
    + destruct (decide (b = x)) as [->|Hne].
      * rewrite decide_True by left. unfold entry, position_step.
        destruct (body_data calc_ut jds x); apply lookup_insert_eq.
      * rewrite decide_False by (intros H; inversion H; subst; tauto).
        unfold position_step.
        destruct (body_data calc_ut jds x); apply lookup_insert_ne; congruence.
Qed.

(** A body whose computation failed is in the error log. *)
Lemma fold_bodies_logged (jds : list Q) (bodies : list Z)
      (state : gmap Z (list (list Q)) * list Z) (b : Z) :
  b ∈ snd state \/ (b ∈ bodies /\ body_data calc_ut jds b = None) ->
  b ∈ snd (fold_left (position_step calc_ut jds) bodies state).
Proof.
  revert state. induction bodies as [|x bodies IH]; intros state H; cbn [fold_left].
  - destruct H as [H|[H _]]; [exact H|inversion H].
  - apply IH. unfold position_step.
    destruct H as [H|[H Hnone]].
    + left. destruct (body_data calc_ut jds x); cbn [snd]; [exact H|].
      apply elem_of_app. left. exact H.
    + apply elem_of_cons in H. destruct H as [->|H].
      * left. rewrite Hnone. cbn [snd]. apply elem_of_app. right. left.
      * right. split; assumption.
Qed.

Lemma entry_shape (jds : list Q) (body : Z) :
  length (entry calc_ut jds body) = length jds
  /\ Forall (fun row => length row = 6%nat) (entry calc_ut jds body).
Proof.
  unfold entry. destruct (body_data calc_ut jds body) as [data|] eqn:E.
  - split.
    + rewrite length_map. symmetry. exact (length_mapM _ _ _ E).
    + apply Forall_forall. intros row Hrow. apply list_elem_of_In, in_map_iff in Hrow.
      destruct Hrow as [p [<- _]]. reflexivity.
  - split.
    + apply length_replicate.
    + apply Forall_replicate. reflexivity.
Qed.

End WithProvider.

(** A batch that is not empty always yields a mapping, with the matrix
    [entry] for every requested body. *)
Lemma calculate_positions_shape
      (ymd : datetime -> Z * Z * Z) (julday : Z -> Z -> Z -> Q -> Q)
      (calc_ut : Q -> Z -> option Position)
      (times : list datetime) (bodies : option (list Z)) :
  times <> [] ->
  exists results logged,
    calculate_positions_logged ymd julday calc_ut times bodies = Ok (results, logged)
    /\ calculate_positions ymd julday calc_ut times bodies = Ok results
    /\ (forall body, body ∈ default BODIES_values bodies ->
          results !! body = Some (entry calc_ut (map (_to_jd ymd julday) times) body))
    /\ (forall body, body ∈ default BODIES_values bodies ->
          body_data calc_ut (map (_to_jd ymd julday) times) body = None ->
          body ∈ logged)
    /\ (forall body m, results !! body = Some m -> length m = length times).
Proof.
  intros Hne. unfold calculate_positions, calculate_positions_logged, _convert_times_to_jd.
  destruct times as [|t0 times']; [congruence|]. cbn [bind].
  set (times := t0 :: times').
  destruct (fold_left (position_step calc_ut (map (_to_jd ymd julday) times))
              (default BODIES_values bodies) (∅, [])) as [results logged] eqn:E.
  exists results, logged. cbn [bind fst]. repeat split.
  - intros body Hbody.
    pose proof (fold_bodies_lookup calc_ut (map (_to_jd ymd julday) times)
                  (default BODIES_values bodies) (∅, []) body) as H.
    rewrite E in H. cbn [fst] in H. rewrite H, decide_True by exact Hbody. reflexivity.
  - intros body Hbody Hnone.
    pose proof (fold_bodies_logged calc_ut (map (_to_jd ymd julday) times)
                  (default BODIES_values bodies) (∅, []) body) as H.
    rewrite E in H. cbn [snd] in H. apply H. right. split; assumption.
  - intros body m Hm.
    pose proof (fold_bodies_lookup calc_ut (map (_to_jd ymd julday) times)
                  (default BODIES_values bodies) (∅, []) body) as H.
    rewrite E in H. cbn [fst] in H. rewrite Hm in H.
    destruct (decide (body ∈ default BODIES_values bodies)); [|discriminate].
    injection H as ->.
    destruct (entry_shape calc_ut (map (_to_jd ymd julday) times) body) as [Hlen _].
    rewrite length_map in Hlen. exact Hlen.
Qed.

(** C4: when, in a batch of N instants, the provider fails for one of the
    requested bodies, the adapter still returns a mapping: the failed body
    is logged and gets the zero-filled N x 6 matrix, and every requested
    body, failed or not, has an entry of N rows of 6 values. *)
Theorem calculate_positions_zero_fill
        (ymd : datetime -> Z * Z * Z) (julday : Z -> Z -> Z -> Q -> Q)
        (calc_ut : Q -> Z -> option Position)
        (times : list datetime) (bodies : option (list Z))
        (failed : Z) (t : datetime) :
  failed ∈ default BODIES_values bodies -> t ∈ times ->
  calc_ut (_to_jd ymd julday t) failed = None ->
  exists results logged,
    calculate_positions_logged ymd julday calc_ut times bodies = Ok (results, logged)
    /\ calculate_positions ymd julday calc_ut times bodies = Ok results
    /\ failed ∈ logged
    /\ results !! failed = Some (replicate (length times) (replicate 6 0%Q))
    /\ forall body, body ∈ default BODIES_values bodies ->
         exists m, results !! body = Some m
                   /\ length m = length times
                   /\ Forall (fun row => length row = 6%nat) m.
Proof.
  intros Hfailed Ht Hnone.
  assert (times <> []) as Hne by (intros ->; inversion Ht).
  destruct (calculate_positions_shape ymd julday calc_ut times bodies Hne)
    as [results [logged [Hlog [Hres [Hlookup [Hlogged _]]]]]].
  assert (body_data calc_ut (map (_to_jd ymd julday) times) failed = None) as Hdata.
  { apply mapM_None, Exists_exists. exists (_to_jd ymd julday t).
    split; [|exact Hnone]. apply list_elem_of_In, in_map, list_elem_of_In, Ht. }
  exists results, logged. split; [exact Hlog|]. split; [exact Hres|]. split; [|split].
  - apply Hlogged; assumption.
  - rewrite (Hlookup failed Hfailed). unfold entry. rewrite Hdata, length_map. reflexivity.
  - intros body Hbody. eexists. split; [exact (Hlookup body Hbody)|].
    destruct (entry_shape calc_ut (map (_to_jd ymd julday) times) body) as [Hlen Hrows].
    rewrite length_map in Hlen. split; [exact Hlen|exact Hrows].
Qed.

Lemma calculate_positions_zero_fill_witness :
  (4 : Z) ∈ default BODIES_values (Some [0; 4]) /\ (0 : datetime) ∈ [0%Z]
  /\ exists results logged,
      calculate_positions_logged Sample.ymd Sample.julday
        (fun jd b => if (b =? 4)%Z then None else Sample.calc_ut jd b)
        [0%Z] (Some [0; 4]) = Ok (results, logged)
      /\ (4 : Z) ∈ logged
      /\ results !! (4 : Z) = Some [replicate 6 0%Q].
Proof.
  assert ((4 : Z) ∈ default BODIES_values (Some [0; 4])) as H1
      by (right; left).
  assert ((0 : datetime) ∈ [0%Z]) as H2 by left.
  split; [exact H1|]. split; [exact H2|].
  destruct (calculate_positions_zero_fill Sample.ymd Sample.julday
              (fun jd b => if (b =? 4)%Z then None else Sample.calc_ut jd b)
              [0%Z] (Some [0; 4]) 4%Z 0%Z H1 H2 eq_refl)
    as [results [logged [Hlog [_ [Hin [Hz _]]]]]].
  exists results, logged. split; [exact Hlog|]. split; [exact Hin|exact Hz].
Defined.

End EphemerisFacts.

(** ** The search orchestrator (election_engine.py) *)

Module EngineFacts.

Import ElectionEngine.

(** *** The time grid *)

Lemma range_trunc (q : Q) : range (Np.trunc q) = range (Qfloor q).
Proof.
  unfold range, Np.trunc. destruct q as [n d]. cbn [Qfloor Qnum Qden].
  f_equal. f_equal.
  destruct (Z_le_gt_dec 0 n) as [Hn|Hn].
  - rewrite Z.quot_div_nonneg by lia. reflexivity.
  - assert (n ÷ Z.pos d <= 0)%Z.
    { replace n with (- - n)%Z by lia. rewrite Z.quot_opp_l by lia.
      pose proof (Z.quot_pos (- n) (Z.pos d)). lia. }
    assert (n / Z.pos d < 0)%Z by (apply Z.div_lt_upper_bound; lia).
    lia.
Qed.

Lemma floor_seconds (td m : Z) :
  (0 < m)%Z ->
  Qfloor (total_seconds td / inject_Z (m * 60)) = (td / timedelta_minutes m)%Z.
Proof.
  intros Hm. unfold total_seconds, timedelta_minutes, MICROS_PER_MINUTE.
  rewrite Zdiv_Qdiv. apply Qfloor_comp.
  rewrite !inject_Z_mult. field.
  split; intros H; revert H; unfold MICROS_PER_SECOND; rewrite <- ?inject_Z_mult;
    (change 0%Q with (inject_Z 0)); rewrite inject_Z_injective; lia.
Qed.

(** The grid of [find_elections] is [start + k*m] minutes for
    [k = 0 .. floor((end - start) / m) - 1]. *)
Lemma time_grid_spec (start_dt end_dt m : Z) :
  (0 < m)%Z ->
  time_grid start_dt end_dt m
  = Ok (map (fun k => start_dt + timedelta_minutes (k * m))%Z
            (range ((end_dt - start_dt) / timedelta_minutes m))).
Proof.
  intros Hm. unfold time_grid.
  destruct (Z.eqb_spec (m * 60) 0) as [H0|_]; [lia|].
  rewrite range_trunc, floor_seconds by exact Hm. reflexivity.
Qed.

Lemma in_range (n k : Z) : In k (range n) <-> (0 <= k < n)%Z.
Proof.
  unfold range. rewrite in_map_iff. split.
  - intros [i [<- Hi]]. apply in_seq in Hi. lia.
  - intros Hk. exists (Z.to_nat k). split; [lia|]. apply in_seq. lia.
Qed.

(** Every instant of the grid is at least one step before [end]. *)
Lemma time_grid_before_end (start_dt end_dt m : Z) (times : list datetime) (t : datetime) :
  (0 < m)%Z -> time_grid start_dt end_dt m = Ok times -> In t times ->
  (start_dt <= t /\ t + timedelta_minutes m <= end_dt)%Z.
Proof.
  intros Hm Hgrid Hin. rewrite time_grid_spec in Hgrid by exact Hm.
  injection Hgrid as <-. apply in_map_iff in Hin. destruct Hin as [k [<- Hk]].
  apply in_range in Hk. unfold timedelta_minutes, MICROS_PER_MINUTE, MICROS_PER_SECOND in *.
  assert (0 < m * (60 * 1000000))%Z as Hpos by lia.
  pose proof (Z.mul_div_le (end_dt - start_dt) _ Hpos). nia.
Qed.

(** When [end - start] is a whole number [q >= 1] of steps, the grid has
    [q] instants and the last one is [end - m]. *)
Lemma time_grid_exact_multiple (start_dt m q : Z) :
  (0 < m)%Z -> (1 <= q)%Z ->
  exists times,
    time_grid start_dt (start_dt + q * timedelta_minutes m) m = Ok times
    /\ length times = Z.to_nat q
    /\ last times = Some (start_dt + q * timedelta_minutes m - timedelta_minutes m)%Z.
Proof.
  intros Hm Hq. rewrite time_grid_spec by exact Hm. eexists. split; [reflexivity|].
  replace (start_dt + q * timedelta_minutes m - start_dt)%Z
    with (q * timedelta_minutes m)%Z by lia.
  rewrite Z.div_mul by (unfold timedelta_minutes, MICROS_PER_MINUTE, MICROS_PER_SECOND; lia).
  unfold range. rewrite !length_map, length_seq. split; [reflexivity|].
  replace (Z.to_nat q) with (S (Z.to_nat (q - 1))) by lia.
  rewrite seq_S, !map_app. cbn [map]. rewrite last_snoc. f_equal.
  rewrite Nat.add_0_l, Z2Nat.id by lia. unfold timedelta_minutes.
  assert ((q - 1) * m * MICROS_PER_MINUTE
          = q * (m * MICROS_PER_MINUTE) - m * MICROS_PER_MINUTE)%Z as -> by ring.
  lia.
Qed.

(** A range shorter than one step has an empty grid. *)
Lemma time_grid_short_range (start_dt end_dt m : Z) :
  (0 < m)%Z -> (end_dt - start_dt < timedelta_minutes m)%Z ->
  time_grid start_dt end_dt m = Ok [].
Proof.
  intros Hm Hshort. rewrite time_grid_spec by exact Hm.
  assert ((end_dt - start_dt) / timedelta_minutes m <= 0)%Z as Hle.
  { assert (0 < timedelta_minutes m)%Z
      by (unfold timedelta_minutes, MICROS_PER_MINUTE, MICROS_PER_SECOND; lia).
    destruct (Z_le_gt_dec 0 (end_dt - start_dt)).
    - rewrite Z.div_small by lia. lia.
    - assert ((end_dt - start_dt) / timedelta_minutes m < 0)%Z
        by (apply Z.div_lt_upper_bound; lia). lia. }
  unfold range. replace (Z.to_nat _) with 0%nat by lia. reflexivity.
Qed.

(** *** Shapes of the masks *)

Lemma fold_left_invariant {A B : Type} (P : A -> Prop) (f : A -> B -> A)
      (l : list B) (init : A) :
  P init -> (forall acc x, In x l -> P acc -> P (f acc x)) -> P (fold_left f l init).
Proof.
  intros Hinit Hstep. revert init Hinit.
  induction l as [|x l IH]; intros init Hinit; cbn [fold_left]; [exact Hinit|].
  apply IH.
  - intros acc y Hy. apply Hstep. right. exact Hy.
  - apply Hstep; [left; reflexivity|exact Hinit].
Qed.

Lemma length_col (m : list (list Q)) (j : nat) : length (Np.col m j) = length m.
Proof. apply length_map. Qed.

Lemma length_map2 {A B C : Type} (f : A -> B -> C) (xs : list A) (ys : list B) (n : nat) :
  length xs = n -> length ys = n -> length (Np.map2 f xs ys) = n.
Proof. intros Hx Hy. unfold Np.map2. rewrite length_zip_with. lia. Qed.

Lemma length_assign {A : Type} (mask : list bool) (target values : list A) :
  length (Np.assign mask target values) = length target.
Proof.
  revert target values. induction mask as [|b mask IH]; intros [|t target] values;
    try reflexivity.
  cbn [Np.assign]. destruct b; [destruct values|]; cbn [length]; rewrite IH; reflexivity.
Qed.

Lemma length_zeros_bool (n : nat) : length (Np.zeros_bool n) = n.
Proof. apply length_replicate. Qed.

Section Shapes.

(** A sky of [N] instants: every array of [longitudes] has [N] entries,
    the Sun, the Moon, Mars and Saturn are present, and the angles have
    one row per instant. *)
Variable N : nat.
Variable longitudes speeds : gmap Z (list Q).
Variable cusps ascmc : list (list Q).
Hypothesis longitudes_shape : forall pid p, longitudes !! pid = Some p -> length p = N.
Hypothesis longitudes_present :
  forall pid, pid ∈ [0; 1; 4; 6] -> is_Some (longitudes !! pid).
Hypothesis ascmc_shape : length ascmc = N.

Lemma length_body (pid : Z) : pid ∈ [0; 1; 4; 6] -> length (longitudes !!! pid) = N.
Proof.
  intros Hpid. destruct (longitudes_present pid Hpid) as [p Hp].
  rewrite lookup_total_alt, Hp. cbn. exact (longitudes_shape pid p Hp).
Qed.

Lemma length_mask_void_of_course :
  length (VectorizedLogic.mask_void_of_course (longitudes !!! 1) longitudes) = N.
Proof.
  assert (length (longitudes !!! 1) = N) as Hmoon by (apply length_body; set_solver).
  unfold VectorizedLogic.mask_void_of_course.
  apply fold_left_invariant; [unfold Np.ones_bool; rewrite length_replicate; exact Hmoon|].
  intros acc pid _ Hacc. destruct (longitudes !! pid) as [p|] eqn:Hp; [|exact Hacc].
  pose proof (longitudes_shape pid p Hp) as Hlen.
  apply fold_left_invariant; [exact Hacc|]. intros acc1 asp _ Hacc1.
  apply fold_left_invariant; [exact Hacc1|]. intros acc2 target Htarget Hacc2.
  assert (length target = N) as Ht.
  { destruct Htarget as [<-|[<-|[]]]; rewrite length_map; exact Hlen. }
  unfold VectorizedLogic.voc_target, Np.assign_const, Np.vsub, Np.map2.
  rewrite !length_zip_with, !length_map. lia.
Qed.

Lemma length_bad_ruler_mask (cusp_signs : list Z) :
  length (bad_ruler_mask cusp_signs longitudes speeds N) = N.
Proof.
  unfold bad_ruler_mask. apply fold_left_invariant; [apply length_zeros_bool|].
  intros acc sign_idx _ Hacc. destruct (negb _); [exact Hacc|].
  rewrite length_assign. exact Hacc.
Qed.

Lemma length_malefic_on_angle_mask :
  length (malefic_on_angle_mask ascmc longitudes N) = N.
Proof.
  unfold malefic_on_angle_mask. apply fold_left_invariant; [apply length_zeros_bool|].
  intros acc malefic_id Hmal Hacc.
  assert (length (longitudes !!! malefic_id) = N) as Hpos.
  { apply length_body. destruct Hmal as [<-|[<-|[]]]; set_solver. }
  apply fold_left_invariant; [exact Hacc|]. intros acc1 angle Hangle Hacc1.
  assert (length angle = N) as Hlen.
  { destruct Hangle as [<-|[<-|[<-|[<-|[]]]]];
      rewrite ?length_map, length_col; exact ascmc_shape. }
  unfold Np.vor. apply length_map2; [exact Hacc1|].
  apply length_map2; assumption.
Qed.

Lemma length_rejection_mask (target_house : Z) (natal_chart : gmap Z Q) :
  length (rejection_mask target_house natal_chart longitudes speeds cusps ascmc N) = N.
Proof.
  assert (length (longitudes !!! 1) = N) as Hmoon by (apply length_body; set_solver).
  assert (length (longitudes !!! 0) = N) as Hsun by (apply length_body; set_solver).
  unfold rejection_mask, Np.vor.
  apply length_map2; [|apply length_malefic_on_angle_mask].
  apply length_map2; [|apply length_zeros_bool].
  apply length_map2; [|apply length_bad_ruler_mask].
  apply length_map2; [|apply length_mask_void_of_course].
  apply length_map2.
  - unfold VectorizedLogic.mask_signs, Np.isin, VectorizedLogic.get_sign_indices.
    rewrite !length_map. exact Hmoon.
  - unfold VectorizedLogic.mask_phase, Np.vor, VectorizedLogic.calculate_aspects.
    apply length_map2; rewrite length_map; apply length_map2; assumption.
Qed.

End Shapes.

(** The indices kept by [np.where(~is_rejected)[0]] give the rows that a
    filter on the validity flag keeps. *)
Lemma select_rows {A : Type} (valid : A -> bool) (mk : nat -> A) (rej : list bool)
      (k : nat) :
  (forall j, (j < length rej)%nat -> valid (mk (k + j)%nat) = negb (nth j rej false)) ->
  map mk (Np.select (Np.vnot rej) (seq k (length (Np.vnot rej))))
  = filter (fun r => valid r = true) (map mk (seq k (length rej))).
Proof.
  revert k. induction rej as [|b rej IH]; intros k Hvalid; [reflexivity|].
  unfold Np.vnot in *. cbn [map length seq Np.select].
  assert (valid (mk k) = negb b) as Hk.
  { specialize (Hvalid 0%nat). rewrite Nat.add_0_r in Hvalid. apply Hvalid. cbn. lia. }
  assert (map mk (Np.select (map negb rej) (seq (S k) (length (map negb rej))))
          = filter (fun r => valid r = true) (map mk (seq (S k) (length rej)))) as Hrest.
  { apply IH. intros j Hj. specialize (Hvalid (S j)).
    rewrite Nat.add_succ_r in Hvalid. apply Hvalid. cbn. lia. }
  destruct b; cbn [negb] in *.
  - rewrite filter_cons_False by (rewrite Hk; discriminate). exact Hrest.
  - rewrite filter_cons_True by exact Hk. cbn [map]. f_equal. exact Hrest.
Qed.

Section WithCollaborators.

Variable ymd : datetime -> Z * Z * Z.
Variable julday : Z -> Z -> Z -> Q -> Q.
Variable calc_ut : Q -> Z -> option VectorizedEphemeris.Position.
Variable houses : Q -> Q -> Q -> option (list Q * list Q).
Variable round1 : Q -> Q.
Variable calculate_moon_score :
  list datetime -> list Q -> list Q -> gmap Z (list Q) ->
  list (list Q) -> list (list Q) -> list Q * gmap string (list Q).
Variable calculate_ruler_score :
  list datetime -> string -> list Q -> list Z -> list Q -> gmap Z (list Q) ->
  list (list Q) -> list Q -> list Q * gmap string (list Q).
Variable calculate_natal_score :
  list datetime -> list (list Q) -> list (list Q) -> gmap Z Q ->
  list Q * gmap string (list Q).

Let find := find_elections ymd julday calc_ut houses round1
              calculate_moon_score calculate_ruler_score calculate_natal_score.

Lemma build_results_flags (return_all : bool) (times : list datetime)
      (moon_longs : list Q) (rej : list bool) (sc : Scores) :
  map (fun row => (timestamp row, is_valid row))
      (build_results round1 return_all times moon_longs rej sc)
  = map (fun i => (nth i times 0%Z, negb (nth i rej false)))
        (if return_all then seq 0 (length times) else where_indices (Np.vnot rej)).
Proof.
  unfold build_results. rewrite map_map. apply map_ext. intros i.
  unfold make_row. destruct (label_of _). reflexivity.
Qed.

(** C2, as the code has it: the orchestrator does not consume the hard-aspect
    mask.  Its natal rejection mask is all false, so which instants are
    returned, and with which validity flag, is the same for every natal
    reference, supplied or not. *)
Theorem natal_reference_never_rejects
        (start_dt end_dt : datetime) (lat lon : Q)
        (natal1 natal2 : option (gmap Z Q))
        (topic : string) (m : Z) (return_all : bool) :
  validity_flags (find start_dt end_dt lat lon natal1 topic m return_all)
  = validity_flags (find start_dt end_dt lat lon natal2 topic m return_all)
  /\ forall (natal : gmap Z Q) (N : nat), bad_natal_mask natal N = Np.zeros_bool N.
Proof.
  split; [|reflexivity].
  unfold find, find_elections.
  destruct (time_grid start_dt end_dt m) as [times|e]; [|reflexivity]. cbn [bind].
  destruct (VectorizedEphemeris.calculate_positions ymd julday calc_ut times
              (Some search_bodies)) as [positions|e]; [|reflexivity]. cbn [bind].
  destruct (VectorizedHouses.calculate_houses ymd julday houses times lat lon)
    as [[cusps ascmc]|e]; [|reflexivity]. cbn [bind].
  destruct (length times =? 0)%nat; [reflexivity|].
  cbn [validity_flags]. rewrite !build_results_flags. reflexivity.
Qed.

(** C8, as the code has it: a topic whose lower-cased form is not a key of
    [THEMES] is not rejected; the search runs exactly as for "trabajo".
    Only the lookup of [config/temas_casas.py] raises on a topic outside
    its table. *)
Theorem unknown_topic_falls_back_to_trabajo
        (start_dt end_dt : datetime) (lat lon : Q) (natal : option (gmap Z Q))
        (topic : string) (m : Z) (return_all : bool) :
  ThemeConfig.THEMES !! ThemeConfig.lower topic = None ->
  ThemeConfig.get_theme_config topic = ThemeConfig.trabajo
  /\ find start_dt end_dt lat lon natal topic m return_all
     = find start_dt end_dt lat lon natal "trabajo" m return_all
  /\ (TemasCasas.TEMAS_CASAS !! topic = None ->
      TemasCasas.get_casa_for_tema topic = Raise ValueError).
Proof.
  intros Hnone.
  assert (ThemeConfig.get_theme_config topic = ThemeConfig.trabajo) as Hcfg.
  { unfold ThemeConfig.get_theme_config. rewrite Hnone. reflexivity. }
  split; [exact Hcfg|]. split.
  - unfold find, find_elections. rewrite Hcfg. reflexivity.
  - intros H. unfold TemasCasas.get_casa_for_tema. rewrite H. reflexivity.
Qed.

(** C10, where the code falls short of it: on a range shorter than one step the
    grid is empty, as specified, but the search then raises instead
    of returning an empty result: the conversion of an empty batch of
    instants is refused. *)
Theorem find_elections_short_range_raises
        (start_dt end_dt : datetime) (lat lon : Q) (natal_chart : option (gmap Z Q))
        (topic : string) (m : Z) (return_all : bool) :
  (0 < m)%Z -> (end_dt - start_dt < timedelta_minutes m)%Z ->
  time_grid start_dt end_dt m = Ok []
  /\ exists e, find start_dt end_dt lat lon natal_chart topic m return_all = Raise e.
Proof.
  intros Hm Hshort. pose proof (time_grid_short_range _ _ _ Hm Hshort) as Hgrid.
  split; [exact Hgrid|]. exists ValueError.
  unfold find, find_elections. rewrite Hgrid. reflexivity.
Qed.

End WithCollaborators.

Lemma natal_hard_aspect_instant_is_accepted :
  VectorizedNatal.mask_hard_aspects_to_natal_lights
    Sample.transits Sample.natal_sun_on_mars VectorizedNatal.default_malefics = Ok [true]
  /\ validity_flags
       (Sample.find 0 (timedelta_minutes 60) (Some Sample.natal_sun_on_mars)
                    "trabajo" 60 false)
     = Ok [(0%Z, true)].
Proof. split; vm_compute; reflexivity. Qed.

Lemma unknown_topic_is_not_rejected :
  ThemeConfig.THEMES !! "horoscopo"%string = None
  /\ TemasCasas.TEMAS_CASAS !! "horoscopo"%string = None
  /\ ThemeConfig.get_theme_config "horoscopo" = ThemeConfig.trabajo
  /\ validity_flags (Sample.find 0 (timedelta_minutes 60) None "horoscopo" 60 true)
     = Ok [(0%Z, true)].
Proof. repeat split; vm_compute; reflexivity. Qed.

Lemma unknown_topic_falls_back_to_trabajo_witness :
  ThemeConfig.THEMES !! ThemeConfig.lower "Horoscopo" = None
  /\ Sample.find 0 (timedelta_minutes 60) None "Horoscopo" 60 true
     = Sample.find 0 (timedelta_minutes 60) None "trabajo" 60 true.
Proof.
  assert (ThemeConfig.THEMES !! ThemeConfig.lower "Horoscopo" = None) as H
      by (vm_compute; reflexivity).
  split; [exact H|].
  exact (proj1 (proj2 (unknown_topic_falls_back_to_trabajo
                         Sample.ymd Sample.julday Sample.calc_ut Sample.houses
                         Sample.round1 Sample.no_moon_score Sample.no_ruler_score
                         Sample.no_natal_score 0%Z (timedelta_minutes 60) 0%Q 0%Q None
                         "Horoscopo"%string 60%Z true H))).
Defined.

Lemma find_elections_short_range_raises_witness :
  (0 < 60)%Z /\ (0 - 0 < timedelta_minutes 60)%Z
  /\ time_grid 0 0 60 = Ok []
  /\ exists e, Sample.find 0 0 None "trabajo" 60 true = Raise e.
Proof.
  assert (0 < 60)%Z as H1 by lia.
  assert (0 - 0 < timedelta_minutes 60)%Z as H2 by (vm_compute; reflexivity).
  split; [exact H1|]. split; [exact H2|].
  exact (find_elections_short_range_raises Sample.ymd Sample.julday Sample.calc_ut
           Sample.houses Sample.round1 Sample.no_moon_score Sample.no_ruler_score
           Sample.no_natal_score 0%Z 0%Z 0%Q 0%Q None "trabajo"%string 60%Z true H1 H2).
Defined.

End EngineFacts.

(** ** The combinations group (vectorized_scoring.py) *)

Module CombinationFacts.

Import VectorizedScoring SpecWords.

(** [is_in_h10] is the occupancy mask of house 10 and [in_h1] that of
    house 1, whatever the batch. *)
Lemma is_in_h10_house_10 (cusps : list (list Q)) (p_longs : list Q) :
  is_in_h10 cusps p_longs = house_mask 10 cusps p_longs.
Proof.
  unfold is_in_h10, house_mask, Np.map2, Np.col. revert p_longs.
  induction cusps as [|row cusps IH]; intros [|p p_longs]; try reflexivity.
  cbn [map zip zip_with]. f_equal. apply IH.
Qed.

Lemma in_h1_house_1 (cusps : list (list Q)) (p_longs : list Q) :
  in_h1 cusps p_longs = house_mask 1 cusps p_longs.
Proof.
  unfold in_h1, house_mask, Np.map2, Np.col. revert p_longs.
  induction cusps as [|row cusps IH]; intros [|p p_longs]; try reflexivity.
  cbn [map zip zip_with]. f_equal. apply IH.
Qed.

(** C1, as the code has it: whatever the topic, the combinations group tests
    occupancy against house 10 (and house 1 for the Ascendant penalties),
    not against the topic house: +2 for each of Sun, Jupiter and Moon in
    house 10, -1 for Saturn and for Mars in house 10 and in house 1.  The
    topic reaches the group only through the rulers handed in, which feed
    the rulers' aspect component alone. *)
Theorem combinations_occupancy_is_house_10
        (times : list datetime)
        (ruler_asc_ids : list Z) (ruler_asc_longs : list Q)
        (ruler_h10_ids : list Z) (ruler_h10_longs : list Q)
        (planet_longs : gmap Z (list Q)) (ascmc cusps : list (list Q))
        (sun moon mars jup sat : list Q) :
  planet_longs !! 0 = Some sun -> planet_longs !! 1 = Some moon ->
  planet_longs !! 4 = Some mars -> planet_longs !! 5 = Some jup ->
  planet_longs !! 6 = Some sat ->
  let result :=
    calculate_combinations_score times ruler_asc_ids ruler_asc_longs
      ruler_h10_ids ruler_h10_longs planet_longs ascmc cusps None in
  let s_sun := Np.where_ (house_mask 10 cusps sun) 2 0 in
  let s_jup := Np.where_ (house_mask 10 cusps jup) 2 0 in
  let s_moon := Np.where_ (house_mask 10 cusps moon) 2 0 in
  let s_sat_h10 := Np.where_ (house_mask 10 cusps sat) (-1) 0 in
  let s_sat_asc := Np.where_ (house_mask 1 cusps sat) (-1) 0 in
  let s_mar_h10 := Np.where_ (house_mask 10 cusps mars) (-1) 0 in
  let s_mar_asc := Np.where_ (house_mask 1 cusps mars) (-1) 0 in
  exists s_aspect,
    snd result !! "comb_pos_rulers_aspect"%string = Some s_aspect
    /\ snd result !! "comb_pos_sun_h10"%string = Some s_sun
    /\ snd result !! "comb_pos_jup_h10"%string = Some s_jup
    /\ snd result !! "comb_pos_moon_h10"%string = Some s_moon
    /\ snd result !! "comb_neg_saturn_h10"%string = Some s_sat_h10
    /\ snd result !! "comb_neg_saturn_asc"%string = Some s_sat_asc
    /\ snd result !! "comb_neg_mars_h10"%string = Some s_mar_h10
    /\ snd result !! "comb_neg_mars_asc"%string = Some s_mar_asc
    /\ fst result
       = Np.vadd (Np.vadd (Np.vadd (Np.vadd (Np.vadd (Np.vadd (Np.vadd (Np.vadd
           (Np.zeros (length times)) s_aspect) s_sun) s_jup) s_moon)
           s_sat_h10) s_sat_asc) s_mar_h10) s_mar_asc.
Proof.
  intros Hsun Hmoon Hmars Hjup Hsat. cbv zeta.
  unfold calculate_combinations_score.
  rewrite Hsun, Hmoon, Hmars, Hjup, Hsat.
  rewrite !is_in_h10_house_10, !in_h1_house_1.
  unfold add_component. cbn [fst snd].
  eexists. repeat split; try reflexivity;
    repeat first [ rewrite lookup_insert_eq; reflexivity
                 | rewrite lookup_insert_ne by discriminate ].
Qed.

Lemma combinations_occupancy_is_house_10_witness :
  Sample.transits !! 0 = Some [190%Q]
  /\ Sample.transits !! 1 = Some [40%Q]
  /\ Sample.transits !! 4 = Some [130%Q]
  /\ Sample.transits !! 5 = Some [220%Q]
  /\ Sample.transits !! 6 = Some [310%Q]
  /\ exists s_aspect,
      snd (calculate_combinations_score [0%Z] [4] [130%Q] [3] [50%Q] Sample.transits
             [Sample.ascmc_row] [Sample.cusps_row] None)
        !! "comb_pos_rulers_aspect"%string = Some s_aspect
      /\ snd (calculate_combinations_score [0%Z] [4] [130%Q] [3] [50%Q] Sample.transits
                [Sample.ascmc_row] [Sample.cusps_row] None)
           !! "comb_pos_sun_h10"%string
         = Some (Np.where_ (house_mask 10 [Sample.cusps_row] [190%Q]) 2 0).
Proof.
  assert (Sample.transits !! 0 = Some [190%Q]) as H0 by (vm_compute; reflexivity).
  assert (Sample.transits !! 1 = Some [40%Q]) as H1 by (vm_compute; reflexivity).
  assert (Sample.transits !! 4 = Some [130%Q]) as H4 by (vm_compute; reflexivity).
  assert (Sample.transits !! 5 = Some [220%Q]) as H5 by (vm_compute; reflexivity).
  assert (Sample.transits !! 6 = Some [310%Q]) as H6 by (vm_compute; reflexivity).
  repeat (split; [assumption|]).
  destruct (combinations_occupancy_is_house_10 [0%Z] [4] [130%Q] [3] [50%Q]
              Sample.transits [Sample.ascmc_row] [Sample.cusps_row]
              _ _ _ _ _ H0 H1 H4 H5 H6) as [s_aspect [Ha [Hs _]]].
  exists s_aspect. split; [exact Ha|exact Hs].
Defined.

(** With topic "amor" (house 7) and the Sun in house 7, the group awards
    nothing for the Sun. *)
Lemma sun_in_topic_house_awards_nothing :
  ThemeConfig.target_house (ThemeConfig.get_theme_config "amor") = 7
  /\ occupies_house 7 Sample.cusps_row (Sample.longitude_of 0) = true
  /\ occupies_house 10 Sample.cusps_row (Sample.longitude_of 0) = false
  /\ match Sample.find 0 (timedelta_minutes 60) None "amor" 60 true with
     | Ok rows =>
         map (fun r => (ElectionEngine.score_comb r,
                        ElectionEngine.components r !! "comb_pos_sun_h10"%string)) rows
         = [(0%Q, None)]
     | Raise _ => False
     end.
Proof. repeat split; vm_compute; reflexivity. Qed.

End CombinationFacts.

(** ** Rows of a search that returns every instant (election_engine.py) *)

Module ReturnAllFacts.

Import ElectionEngine VectorizedLogic VectorizedScoring SpecWords.

(** *** Shapes *)

Lemma calculate_houses_shape
      (ymd : datetime -> Z * Z * Z) (julday : Z -> Z -> Z -> Q -> Q)
      (houses : Q -> Q -> Q -> option (list Q * list Q))
      (times : list datetime) (lat lon : Q) (cusps ascmc : list (list Q)) :
  VectorizedHouses.calculate_houses ymd julday houses times lat lon = Ok (cusps, ascmc) ->
  length cusps = length times /\ length ascmc = length times.
Proof.
  unfold VectorizedHouses.calculate_houses.
  destruct (mapM _ _) as [batch|] eqn:E; [|discriminate].
  intros H. injection H as <- <-. apply length_mapM in E.
  rewrite length_map in E. rewrite !length_map. lia.
Qed.

Lemma gather_rulers_shape (signs : list Z) (longitudes speeds : gmap Z (list Q)) (N : nat) :
  length signs = N ->
  length (fst (fst (gather_rulers signs longitudes speeds N))) = N
  /\ length (snd (fst (gather_rulers signs longitudes speeds N))) = N
  /\ length (snd (gather_rulers signs longitudes speeds N)) = N.
Proof.
  intros Hs. unfold gather_rulers.
  apply (EngineFacts.fold_left_invariant
           (fun r : list Z * list Q * list Q =>
              length (fst (fst r)) = N /\ length (snd (fst r)) = N /\ length (snd r) = N)).
  - cbn [fst snd]. unfold Np.zeros. rewrite !length_replicate. auto.
  - intros [[ids longs] spds] x _ (H1 & H2 & H3). cbn [fst snd] in *.
    destruct (negb _); cbn [fst snd]; [auto|].
    rewrite !EngineFacts.length_assign. split; [|auto].
    unfold Np.assign_const, Np.map2. rewrite length_zip_with, length_map. lia.
Qed.

Lemma length_mask_exact_aspect (a b : list Q) (angle orb : Q) (N : nat) :
  length a = N -> length b = N -> length (mask_exact_aspect a b angle orb) = N.
Proof.
  intros Ha Hb. unfold mask_exact_aspect, calculate_aspects, Np.map2.
  rewrite length_map, length_zip_with. lia.
Qed.

Lemma length_is_in_h10 (cusps : list (list Q)) (p : list Q) (N : nat) :
  length cusps = N -> length p = N -> length (is_in_h10 cusps p) = N.
Proof.
  intros Hc Hp. unfold is_in_h10, Np.map2, Np.col.
  rewrite length_zip_with, length_zip, !length_map. lia.
Qed.

Lemma length_in_h1 (cusps : list (list Q)) (p : list Q) (N : nat) :
  length cusps = N -> length p = N -> length (in_h1 cusps p) = N.
Proof.
  intros Hc Hp. unfold in_h1, Np.map2, Np.col.
  rewrite length_zip_with, length_zip, !length_map. lia.
Qed.

Lemma per_instant_init (N : nat) : per_instant N (Np.zeros N, ∅).
Proof.
  split; cbn [fst snd]; [apply length_replicate|apply map_Forall_empty].
Qed.

Lemma per_instant_add (N : nat) (name : string) (s : list Q)
      (acc : list Q * gmap string (list Q)) :
  per_instant N acc -> length s = N -> per_instant N (add_component name s acc).
Proof.
  intros [H1 H2] Hs. split; cbn [add_component fst snd].
  - apply Pointwise.length_vadd; assumption.
  - apply map_Forall_insert_2; assumption.
Qed.

Ltac shape :=
  unfold Np.where_; rewrite ?length_map;
  repeat first
    [ assumption
    | apply length_is_in_h10
    | apply length_in_h1
    | apply Pointwise.length_vor
    | apply Pointwise.length_vadd
    | apply length_mask_exact_aspect
    | apply length_replicate
    | rewrite length_map ].

(** The combinations group, as the search calls it, returns one entry per
    instant. *)
Lemma combinations_shape (times : list datetime)
      (ruler_asc_ids : list Z) (ruler_asc_longs : list Q)
      (ruler_h10_ids : list Z) (ruler_h10_longs : list Q)
      (planets : gmap Z (list Q)) (ascmc cusps : list (list Q)) :
  length ruler_asc_longs = length times -> length ruler_h10_longs = length times ->
  length cusps = length times ->
  map_Forall (fun _ a => length a = length times) planets ->
  per_instant (length times)
    (calculate_combinations_score times ruler_asc_ids ruler_asc_longs
       ruler_h10_ids ruler_h10_longs planets ascmc cusps None).
Proof.
  intros Ha Hh Hc Hp. unfold calculate_combinations_score.
  destruct (planets !! 0%Z) as [p0|] eqn:E0;
    [pose proof (map_Forall_lookup_1 _ _ _ _ Hp E0)|];
    (destruct (planets !! 5%Z) as [p5|] eqn:E5;
     [pose proof (map_Forall_lookup_1 _ _ _ _ Hp E5)|]);
    (destruct (planets !! 1%Z) as [p1|] eqn:E1;
     [pose proof (map_Forall_lookup_1 _ _ _ _ Hp E1)|]);
    (destruct (planets !! 6%Z) as [p6|] eqn:E6;
     [pose proof (map_Forall_lookup_1 _ _ _ _ Hp E6)|]);
    (destruct (planets !! 4%Z) as [p4|] eqn:E4;
     [pose proof (map_Forall_lookup_1 _ _ _ _ Hp E4)|]);
    cbv beta iota zeta;
    repeat (apply per_instant_add; [|shape]);
    apply per_instant_init.
Qed.

(** So does the natal group. *)
Lemma natal_penalty_shape (N : nat) (natal_chart : gmap Z Q) (asc_elect : list Q)
      (pid : Z) (name : string) (acc : list Q * gmap string (list Q)) :
  length asc_elect = N -> per_instant N acc ->
  per_instant N (natal_penalty N natal_chart asc_elect pid name acc).
Proof.
  intros Ha Hacc. unfold natal_penalty. destruct (natal_chart !! pid); [|exact Hacc].
  apply per_instant_add; [exact Hacc|shape].
Qed.

Lemma score_natal_aspect_shape (N : nat) (natal_chart : gmap Z Q) (elect : list Q)
      (pid : Z) (pc pt ps : Q) (name : string) (acc : list Q * gmap string (list Q)) :
  length elect = N -> per_instant N acc ->
  per_instant N (score_natal_aspect N natal_chart elect pid pc pt ps name acc).
Proof.
  intros Ha Hacc. unfold score_natal_aspect. destruct (natal_chart !! pid); [|exact Hacc].
  cbv zeta. apply per_instant_add; [exact Hacc|]. unfold Np.zeros. shape.
Qed.

Lemma natal_score_shape (times : list datetime) (ascmc cusps : list (list Q))
      (natal_chart : gmap Z Q) :
  length ascmc = length times ->
  per_instant (length times) (calculate_natal_score times ascmc cusps natal_chart).
Proof.
  intros Ha. unfold calculate_natal_score. cbv zeta.
  destruct (bool_decide _); [apply per_instant_init|].
  assert (forall j, length (Np.col ascmc j) = length times) as Hcol
      by (intros j; rewrite EngineFacts.length_col; exact Ha).
  repeat (apply score_natal_aspect_shape; [apply Hcol|]).
  repeat (apply natal_penalty_shape; [apply Hcol|]).
  apply per_instant_init.
Qed.

(** *** The filters at one instant *)

Section Filters.

Variable N : nat.
Variable longitudes speeds : gmap Z (list Q).
Variable cusps ascmc : list (list Q).
Hypothesis longitudes_shape : forall pid p, longitudes !! pid = Some p -> length p = N.
Hypothesis longitudes_present :
  forall pid, pid ∈ [0; 1; 4; 6] -> is_Some (longitudes !! pid).
Hypothesis ascmc_shape : length ascmc = N.

Lemma nth_rejection_mask (target_house : Z) (natal_chart : gmap Z Q) (i : nat) :
  (i < N)%nat ->
  nth i (rejection_mask target_house natal_chart longitudes speeds cusps ascmc N) false
  = existsb (Z.eqb (sign_index (nth i (longitudes !!! 1) 0%Q))) [7; 9]
    || (Qle_bool (separation (nth i (longitudes !!! 0) 0%Q) (nth i (longitudes !!! 1) 0%Q)) 8
        || Qle_bool (Qabs (separation (nth i (longitudes !!! 0) 0%Q)
                                      (nth i (longitudes !!! 1) 0%Q) - 180)) 8)
    || nth i (mask_void_of_course (longitudes !!! 1) longitudes) false
    || nth i (bad_ruler_mask
                (get_sign_indices (Np.col cusps (Z.to_nat (target_house - 1))))
                longitudes speeds N) false
    || nth i (malefic_on_angle_mask ascmc longitudes N) false.
Proof.
  intros Hi.
  assert (length (longitudes !!! 1) = N) as Hmoon
      by (apply (EngineFacts.length_body N longitudes); [assumption..|set_solver]).
  assert (length (longitudes !!! 0) = N) as Hsun
      by (apply (EngineFacts.length_body N longitudes); [assumption..|set_solver]).
  assert (length (mask_signs (longitudes !!! 1) [7; 9]) = N) as Hl1
      by (unfold mask_signs, Np.isin, get_sign_indices; rewrite !length_map; exact Hmoon).
  assert (length (calculate_aspects (longitudes !!! 0) (longitudes !!! 1)) = N) as Hdiff
      by (unfold calculate_aspects; apply EngineFacts.length_map2; assumption).
  assert (length (mask_phase (longitudes !!! 0) (longitudes !!! 1)
                             AstroConfig.ORB_MOON_PHASE) = N) as Hl2
      by (unfold mask_phase; apply Pointwise.length_vor; rewrite length_map; exact Hdiff).
  pose proof (EngineFacts.length_mask_void_of_course N longitudes ascmc longitudes_shape
                longitudes_present ascmc_shape) as Hl3.
  pose proof (EngineFacts.length_bad_ruler_mask N longitudes speeds
                (get_sign_indices (Np.col cusps (Z.to_nat (target_house - 1))))) as Hl4.
  pose proof (EngineFacts.length_malefic_on_angle_mask N longitudes ascmc longitudes_shape
                longitudes_present ascmc_shape) as Hl5.
  assert (length (bad_natal_mask natal_chart N) = N) as Hz
      by apply EngineFacts.length_zeros_bool.
  unfold rejection_mask. cbv zeta.
  rewrite (Pointwise.nth_vor6 N _ _ _ _ _ _ i Hl1 Hl2 Hl3 Hl4 Hz Hl5 Hi).
  unfold bad_natal_mask, Np.zeros_bool.
  rewrite Pointwise.nth_replicate_in by exact Hi. rewrite orb_false_r.
  f_equal. f_equal. f_equal. f_equal.
  - unfold mask_signs, Np.isin, get_sign_indices. rewrite map_map.
    apply (Pointwise.nth_map_in
             (fun x => existsb (Z.eqb (sign_index x)) [7; 9]) _ i 0%Q false).
    lia.
  - unfold mask_phase.
    rewrite (Pointwise.nth_vor N) by (try exact Hi; rewrite length_map; exact Hdiff).
    rewrite (Pointwise.nth_map_in (fun d => Qle_bool d AstroConfig.ORB_MOON_PHASE)
               _ i 0%Q false) by lia.
    rewrite (Pointwise.nth_map_in
               (fun d => Qle_bool (Qabs (d - 180)) AstroConfig.ORB_MOON_PHASE)
               _ i 0%Q false) by lia.
    unfold calculate_aspects, Np.map2.
    rewrite (Pointwise.nth_zip_with separation _ _ i 0%Q 0%Q 0%Q) by lia.
    reflexivity.
Qed.

End Filters.

(** *** The score arrays at one instant *)

Lemma nth_fold_details (g : Q -> Q) (N i : nat) (l : list (string * list Q)) :
  List.Forall (fun kv => length (snd kv) = N) l -> (i < N)%nat ->
  length (foldr (uncurry (fun (_ : string) arr acc => Np.vadd acc (map g arr)))
                (Np.zeros N) l) = N
  /\ nth i (foldr (uncurry (fun (_ : string) arr acc => Np.vadd acc (map g arr)))
                  (Np.zeros N) l) 0%Q
     = foldr (uncurry (fun (_ : string) arr acc => (acc + g (nth i arr 0))%Q)) 0%Q l.
Proof.
  intros Hall Hi. induction Hall as [|[k arr] l Harr Hall [IHlen IHval]]; cbn [foldr].
  - split; [apply length_replicate|]. apply Pointwise.nth_replicate_in, Hi.
  - cbn [snd] in Harr. cbn [uncurry fst snd]. split.
    + apply Pointwise.length_vadd; [exact IHlen|rewrite length_map; exact Harr].
    + rewrite (Pointwise.nth_vadd N) by
        (try exact Hi; try exact IHlen; rewrite length_map; exact Harr).
      rewrite IHval. f_equal.
      apply (Pointwise.nth_map_in g arr i 0%Q 0%Q). lia.
Qed.

Section WithCollaborators.

Variable ymd : datetime -> Z * Z * Z.
Variable julday : Z -> Z -> Z -> Q -> Q.
Variable calc_ut : Q -> Z -> option VectorizedEphemeris.Position.
Variable houses : Q -> Q -> Q -> option (list Q * list Q).
Variable round1 : Q -> Q.
Variable calculate_moon_score :
  list datetime -> list Q -> list Q -> gmap Z (list Q) ->
  list (list Q) -> list (list Q) -> list Q * gmap string (list Q).
Variable calculate_ruler_score :
  list datetime -> string -> list Q -> list Z -> list Q -> gmap Z (list Q) ->
  list (list Q) -> list Q -> list Q * gmap string (list Q).
Variable calculate_natal_score :
  list datetime -> list (list Q) -> list (list Q) -> gmap Z Q ->
  list Q * gmap string (list Q).

(** The three score groups left abstract build their arrays from
    [np.zeros(len(times))]: handed arrays with one entry per instant, they
    return a score array and component arrays with one entry per instant. *)
Hypothesis moon_score_shape :
  forall times moon_longs sun_longs planets cusps ascmc,
    length moon_longs = length times -> length sun_longs = length times ->
    map_Forall (fun _ a => length a = length times) planets ->
    length cusps = length times -> length ascmc = length times ->
    per_instant (length times)
      (calculate_moon_score times moon_longs sun_longs planets cusps ascmc).
Hypothesis ruler_score_shape :
  forall times tag ruler_longs ruler_ids sun_longs planets cusps ruler_speeds,
    length ruler_longs = length times -> length ruler_ids = length times ->
    length sun_longs = length times ->
    map_Forall (fun _ a => length a = length times) planets ->
    length cusps = length times -> length ruler_speeds = length times ->
    per_instant (length times)
      (calculate_ruler_score times tag ruler_longs ruler_ids sun_longs planets cusps
         ruler_speeds).
Hypothesis natal_score_shape_ :
  forall times ascmc cusps natal_chart,
    length ascmc = length times -> length cusps = length times ->
    per_instant (length times) (calculate_natal_score times ascmc cusps natal_chart).

Let find := find_elections ymd julday calc_ut houses round1
              calculate_moon_score calculate_ruler_score calculate_natal_score.

(** [compute_scores] with its tuples taken apart. *)
Lemma compute_scores_fields (times : list datetime) (target_house : Z)
      (natal_chart : gmap Z Q) (longitudes speeds : gmap Z (list Q))
      (cusps ascmc : list (list Q)) :
  let N := length times in
  let moon_longs := longitudes !!! 1 in
  let sun_longs := longitudes !!! 0 in
  let ra := gather_rulers (get_sign_indices (Np.col ascmc 0)) longitudes speeds N in
  let rh := gather_rulers
              (get_sign_indices (Np.col cusps (Z.to_nat (target_house - 1))))
              longitudes speeds N in
  let planets : gmap Z (list Q) :=
    list_to_map (map (fun pid => (pid, longitudes !!! pid)) search_bodies) in
  let gm := calculate_moon_score times moon_longs sun_longs planets cusps ascmc in
  let ga := calculate_ruler_score times "ASC" (snd (fst ra)) (fst (fst ra)) sun_longs
              planets cusps (snd ra) in
  let gh := calculate_ruler_score times "H10" (snd (fst rh)) (fst (fst rh)) sun_longs
              planets cusps (snd rh) in
  let gn := calculate_natal_score times ascmc cusps natal_chart in
  let gc := calculate_combinations_score times (fst (fst ra)) (snd (fst ra))
              (fst (fst rh)) (snd (fst rh)) planets ascmc cusps None in
  let details := snd gc ∪ (snd gn ∪ (snd gh ∪ (snd ga ∪ snd gm))) in
  compute_scores calculate_moon_score calculate_ruler_score calculate_natal_score
    times target_house natal_chart longitudes speeds cusps ascmc
  = {| s_moon := fst gm; s_r_asc := fst ga; s_r_h10 := fst gh; s_natal := fst gn;
       s_comb := fst gc;
       s_total := Np.vadd (Np.vadd (Np.vadd (Np.vadd (fst gm) (fst ga)) (fst gh))
                                   (fst gn)) (fst gc);
       s_positive :=
         map_fold (fun _ arr acc => Np.vadd acc (map (fun x => Qmax x 0%Q) arr))
                  (Np.zeros N) details;
       s_negative :=
         map_fold (fun _ arr acc => Np.vadd acc (map (fun x => Qmin x 0%Q) arr))
                  (Np.zeros N) details;
       all_details := details |}.
Proof.
  cbv zeta. unfold compute_scores. cbv zeta.
  destruct (gather_rulers (get_sign_indices (Np.col ascmc 0)) longitudes speeds
              (length times)) as [[ra_ids ra_longs] ra_spds].
  destruct (gather_rulers
              (get_sign_indices (Np.col cusps (Z.to_nat (target_house - 1))))
              longitudes speeds (length times)) as [[rh_ids rh_longs] rh_spds].
  cbn [fst snd].
  destruct (calculate_moon_score _ _ _ _ _ _) as [sm dm].
  destruct (calculate_ruler_score _ "ASC" _ _ _ _ _ _) as [sa da].
  destruct (calculate_ruler_score _ "H10" _ _ _ _ _ _) as [sh dh].
  destruct (calculate_natal_score _ _ _ _) as [sn dn].
  destruct (calculate_combinations_score _ _ _ _ _ _ _ _ _) as [sc dc].
  reflexivity.
Qed.

(** C3, where the code falls short of it.  With [return_all=True] and a grid
    of N >= 1 instants whose houses can all be computed, the search returns
    N rows in grid order; the row of instant [i] is valid exactly when no
    filter rejects that instant, and, valid or not, its score fields hold
    the scores of that instant: each group score is the entry [i] of what
    the group's scorer returned, the total is their sum, the positive and
    negative sums run over all components, the normalised scores are the
    clamped percentages, and [components] lists the components that are
    not negligible at [i].  The other mode returns the same rows with the
    invalid ones left out.  On an empty grid (N = 0) the search raises
    [ValueError] instead of returning no rows, and where a house
    computation raises the search raises too. *)
Theorem return_all_one_row_per_instant
        (start_dt end_dt : datetime) (lat lon : Q) (natal : option (gmap Z Q))
        (topic : string) (m : Z) (times : list datetime) :
  time_grid start_dt end_dt m = Ok times ->
  match times with
  | [] => find start_dt end_dt lat lon natal topic m true = Raise ValueError
  | _ :: _ =>
      match VectorizedHouses.calculate_houses ymd julday houses times lat lon with
      | Raise e => find start_dt end_dt lat lon natal topic m true = Raise e
      | Ok (cusps, ascmc) =>
          exists positions rows,
            VectorizedEphemeris.calculate_positions ymd julday calc_ut times
              (Some search_bodies) = Ok positions
            /\ find start_dt end_dt lat lon natal topic m true = Ok rows
            /\ length rows = length times
            /\ map timestamp rows = times
            /\ find start_dt end_dt lat lon natal topic m false
               = Ok (filter (fun row => is_valid row = true) rows)
            /\ forall i row, rows !! i = Some row ->
                 let N := length times in
                 let longitudes := VectorizedEphemeris.get_longitudes positions in
                 let speeds := VectorizedEphemeris.get_speeds positions in
                 let moon_longs := longitudes !!! 1 in
                 let sun_longs := longitudes !!! 0 in
                 let th := ThemeConfig.target_house (ThemeConfig.get_theme_config topic) in
                 let cusp_signs := get_sign_indices (Np.col cusps (Z.to_nat (th - 1))) in
                 let ra := gather_rulers (get_sign_indices (Np.col ascmc 0))
                             longitudes speeds N in
                 let rh := gather_rulers cusp_signs longitudes speeds N in
                 let planets : gmap Z (list Q) :=
                   list_to_map (map (fun pid => (pid, longitudes !!! pid)) search_bodies) in
                 let gm := calculate_moon_score times moon_longs sun_longs planets
                             cusps ascmc in
                 let ga := calculate_ruler_score times "ASC" (snd (fst ra)) (fst (fst ra))
                             sun_longs planets cusps (snd ra) in
                 let gh := calculate_ruler_score times "H10" (snd (fst rh)) (fst (fst rh))
                             sun_longs planets cusps (snd rh) in
                 let gn := calculate_natal_score times ascmc cusps (default ∅ natal) in
                 let gc := calculate_combinations_score times (fst (fst ra))
                             (snd (fst ra)) (fst (fst rh)) (snd (fst rh)) planets
                             ascmc cusps None in
                 let details := snd gc ∪ (snd gn ∪ (snd gh ∪ (snd ga ∪ snd gm))) in
                 let sun := nth i sun_longs 0%Q in
                 let moon := nth i moon_longs 0%Q in
                 let rejected :=
                   existsb (Z.eqb (sign_index moon)) [7; 9]
                   || (Qle_bool (separation sun moon) 8
                       || Qle_bool (Qabs (separation sun moon - 180)) 8)
                   || nth i (mask_void_of_course moon_longs longitudes) false
                   || nth i (bad_ruler_mask cusp_signs longitudes speeds N) false
                   || nth i (malefic_on_angle_mask ascmc longitudes N) false in
                 let general := (score_total row - score_natal row)%Q in
                 let norm_gen := Qmin (Qmax (general / 30 * 100) 0) 100 in
                 let norm_nat := Qmin (Qmax (score_natal row / 10 * 100) 0) 100 in
                 (i < N)%nat
                 /\ timestamp row = nth i times 0
                 /\ is_valid row = negb rejected
                 /\ flags row = (if is_valid row then [] else ["rejected"%string])
                 /\ score_moon row = nth i (fst gm) 0%Q
                 /\ score_r_asc row = nth i (fst ga) 0%Q
                 /\ score_r_h10 row = nth i (fst gh) 0%Q
                 /\ score_natal row = nth i (fst gn) 0%Q
                 /\ score_comb row = nth i (fst gc) 0%Q
                 /\ length (fst gm) = N /\ length (fst ga) = N /\ length (fst gh) = N
                 /\ length (fst gn) = N /\ length (fst gc) = N
                 /\ map_Forall (fun _ arr => length arr = N) details
                 /\ score_total row
                    = (score_moon row + score_r_asc row + score_r_h10 row
                       + score_natal row + score_comb row)%Q
                 /\ score_general row = general
                 /\ score_positive row
                    = map_fold (fun _ arr acc => (acc + Qmax (nth i arr 0) 0)%Q) 0%Q details
                 /\ score_negative row
                    = map_fold (fun _ arr acc => (acc + Qmin (nth i arr 0) 0)%Q) 0%Q details
                 /\ norm_general row = round1 norm_gen
                 /\ norm_natal row = round1 norm_nat
                 /\ score_normalized row = round1 (norm_gen * 0.70 + norm_nat * 0.30)%Q
                 /\ components row
                    = omap (fun arr : list Q =>
                              if Np.Qlt_bool 0.001 (Qabs (nth i arr 0%Q))
                              then Some (nth i arr 0%Q) else None)
                           details
      end
  end.
Proof.
  intros Hgrid. unfold find, find_elections. rewrite Hgrid. cbn [bind].
  destruct times as [|t0 rest]; [reflexivity|].
  set (times := t0 :: rest) in *.
  assert (times <> []) as Hne by discriminate.
  destruct (EphemerisFacts.calculate_positions_shape ymd julday calc_ut times
              (Some search_bodies) Hne)
    as [positions [logged [_ [Hpos [Hlookup [_ Hshape]]]]]].
  rewrite Hpos. cbn [bind].
  destruct (VectorizedHouses.calculate_houses ymd julday houses times lat lon)
    as [[cusps ascmc]|e] eqn:Hhouses; [|reflexivity]. cbn [bind].
  destruct (calculate_houses_shape _ _ _ _ _ _ _ _ Hhouses) as [Hcusps Hascmc].
  assert ((length times =? 0)%nat = false) as -> by reflexivity.
  exists positions. eexists. split; [reflexivity|]. split; [reflexivity|].
  set (longitudes := VectorizedEphemeris.get_longitudes positions).
  set (speeds := VectorizedEphemeris.get_speeds positions).
  set (th := ThemeConfig.target_house (ThemeConfig.get_theme_config topic)).
  assert (forall pid p, longitudes !! pid = Some p -> length p = length times) as Hlong.
  { intros pid p Hp. subst longitudes. unfold VectorizedEphemeris.get_longitudes in Hp.
    rewrite lookup_fmap in Hp. destruct (positions !! pid) as [mtx|] eqn:Hm;
      [|discriminate].
    injection Hp as <-. rewrite EngineFacts.length_col. exact (Hshape pid mtx Hm). }
  assert (forall pid p, speeds !! pid = Some p -> length p = length times) as Hspd.
  { intros pid p Hp. subst speeds. unfold VectorizedEphemeris.get_speeds in Hp.
    rewrite lookup_fmap in Hp. destruct (positions !! pid) as [mtx|] eqn:Hm;
      [|discriminate].
    injection Hp as <-. rewrite EngineFacts.length_col. exact (Hshape pid mtx Hm). }
  assert (forall pid, pid ∈ search_bodies ->
                      length (longitudes !!! pid) = length times
                      /\ length (speeds !!! pid) = length times) as Hbody.
  { intros pid Hpid. specialize (Hlookup pid Hpid).
    subst longitudes speeds.
    unfold VectorizedEphemeris.get_longitudes, VectorizedEphemeris.get_speeds.
    rewrite !lookup_total_alt, !lookup_fmap, Hlookup. cbn.
    rewrite !EngineFacts.length_col.
    split; apply (Hshape pid _ Hlookup). }
  assert (forall pid, pid ∈ [0; 1; 4; 6] -> is_Some (longitudes !! pid)) as Hpresent.
  { intros pid Hpid. subst longitudes. unfold VectorizedEphemeris.get_longitudes.
    rewrite lookup_fmap, Hlookup; [eexists; reflexivity|].
    cbn [default]. unfold search_bodies. clear -Hpid.
    repeat (apply elem_of_cons in Hpid; destruct Hpid as [->|Hpid]);
      [repeat constructor..|inversion Hpid]. }
  set (rej := rejection_mask th (default ∅ natal) longitudes speeds cusps ascmc
                             (length times)).
  assert (length rej = length times) as Hrej
      by (apply EngineFacts.length_rejection_mask; assumption).
  unfold build_results.
  split; [rewrite length_map, length_seq; reflexivity|].
  split.
  { rewrite map_map.
    transitivity (map (fun i => nth i times 0%Z) (seq 0 (length times))).
    - apply map_ext. intros i. unfold make_row. destruct (label_of _). reflexivity.
    - generalize times. clear. intros times.
      induction times as [|t times IH]; [reflexivity|].
      cbn [length seq map nth]. f_equal. rewrite <- seq_shift, map_map. exact IH. }
  split.
  { f_equal. unfold where_indices. rewrite <- Hrej. apply EngineFacts.select_rows.
    intros j _. cbn [Nat.add]. unfold make_row. destruct (label_of _). reflexivity. }
  intros i row Hrow.
  change (map ?f ?l) with (f <$> l) in Hrow.
  apply list_lookup_fmap_Some in Hrow. destruct Hrow as [j [-> Hj]].
  apply lookup_seq in Hj. destruct Hj as [-> Hi]. cbn [Nat.add] in *.
  (* shapes of what the scorers are handed and of what they return *)
  assert (length (longitudes !!! 1) = length times) as Hmoon
      by (apply Hbody, list_elem_of_In; cbn; tauto).
  assert (length (longitudes !!! 0) = length times) as Hsun
      by (apply Hbody, list_elem_of_In; cbn; tauto).
  set (planets := (list_to_map (map (fun pid => (pid, longitudes !!! pid)) search_bodies)
                   : gmap Z (list Q))).
  assert (map_Forall (fun _ a => length a = length times) planets) as Hplanets.
  { intros pid a Ha. subst planets. apply elem_of_list_to_map_2 in Ha.
    apply list_elem_of_In, in_map_iff in Ha. destruct Ha as [pid' [E Hin]].
    injection E as <- <-. apply Hbody, list_elem_of_In, Hin. }
  set (asc_signs := get_sign_indices (Np.col ascmc 0)).
  set (cusp_signs := get_sign_indices (Np.col cusps (Z.to_nat (th - 1)))).
  assert (length asc_signs = length times) as Hasc
      by (subst asc_signs; unfold get_sign_indices;
          rewrite length_map, EngineFacts.length_col; exact Hascmc).
  assert (length cusp_signs = length times) as Hcs
      by (subst cusp_signs; unfold get_sign_indices;
          rewrite length_map, EngineFacts.length_col; exact Hcusps).
  rewrite compute_scores_fields. cbv zeta.
  fold asc_signs cusp_signs planets.
  set (ra := gather_rulers asc_signs longitudes speeds (length times)).
  set (rh := gather_rulers cusp_signs longitudes speeds (length times)).
  destruct (gather_rulers_shape asc_signs longitudes speeds _ Hasc) as (Ha1 & Ha2 & Ha3).
  destruct (gather_rulers_shape cusp_signs longitudes speeds _ Hcs) as (Hh1 & Hh2 & Hh3).
  fold ra in Ha1, Ha2, Ha3. fold rh in Hh1, Hh2, Hh3.
  set (gm := calculate_moon_score times (longitudes !!! 1) (longitudes !!! 0) planets
               cusps ascmc).
  set (ga := calculate_ruler_score times "ASC" (snd (fst ra)) (fst (fst ra))
               (longitudes !!! 0) planets cusps (snd ra)).
  set (gh := calculate_ruler_score times "H10" (snd (fst rh)) (fst (fst rh))
               (longitudes !!! 0) planets cusps (snd rh)).
  set (gn := calculate_natal_score times ascmc cusps (default ∅ natal)).
  set (gc := calculate_combinations_score times (fst (fst ra)) (snd (fst ra))
               (fst (fst rh)) (snd (fst rh)) planets ascmc cusps None).
  destruct (moon_score_shape times _ _ planets cusps ascmc Hmoon Hsun Hplanets Hcusps
              Hascmc) as [Lm Dm].
  destruct (ruler_score_shape times "ASC" _ _ _ planets cusps _ Ha2 Ha1 Hsun Hplanets
              Hcusps Ha3) as [La Da].
  destruct (ruler_score_shape times "H10" _ _ _ planets cusps _ Hh2 Hh1 Hsun Hplanets
              Hcusps Hh3) as [Lh Dh].
  destruct (natal_score_shape_ times ascmc cusps (default ∅ natal) Hascmc Hcusps)
    as [Ln Dn].
  destruct (combinations_shape times (fst (fst ra)) (snd (fst ra)) (fst (fst rh))
              (snd (fst rh)) planets ascmc cusps Ha2 Hh2 Hcusps Hplanets) as [Lc Dc].
  fold gm in Lm, Dm. fold ga in La, Da. fold gh in Lh, Dh. fold gn in Ln, Dn.
  fold gc in Lc, Dc.
  set (details := snd gc ∪ (snd gn ∪ (snd gh ∪ (snd ga ∪ snd gm)))).
  assert (map_Forall (fun _ arr => length arr = length times) details) as Hdetails
      by (subst details; repeat apply map_Forall_union_2; assumption).
  assert (List.Forall (fun kv : string * list Q => length (snd kv) = length times)
                      (map_to_list details)) as Hlist.
  { apply List.Forall_forall. intros [k arr] Hin. cbn [snd].
    apply list_elem_of_In, elem_of_map_to_list in Hin. exact (Hdetails k arr Hin). }
  unfold make_row. destruct (label_of _) as [lbl st]. cbn -[nth].
  split; [exact Hi|]. split; [reflexivity|].
  split.
  { f_equal. subst rej. apply nth_rejection_mask; assumption. }
  split; [reflexivity|].
  repeat (split; [reflexivity|]).
  repeat (split; [assumption|]).
  split.
  { rewrite (Pointwise.nth_vadd (length times)) by
      (try exact Hi; try exact Lc; repeat apply Pointwise.length_vadd; assumption).
    rewrite (Pointwise.nth_vadd (length times)) by
      (try exact Hi; try exact Ln; repeat apply Pointwise.length_vadd; assumption).
    rewrite (Pointwise.nth_vadd (length times)) by
      (try exact Hi; try exact Lh; repeat apply Pointwise.length_vadd; assumption).
    rewrite (Pointwise.nth_vadd (length times) _ _ i Lm La Hi). reflexivity. }
  split; [reflexivity|].
  split.
  { rewrite !map_fold_foldr.
    apply (nth_fold_details (fun x => Qmax x 0) (length times) i _ Hlist Hi). }
  split.
  { rewrite !map_fold_foldr.
    apply (nth_fold_details (fun x => Qmin x 0) (length times) i _ Hlist Hi). }
  repeat (split; [reflexivity|]). reflexivity.
Qed.

End WithCollaborators.

(** The sample scorers keep the shapes. *)
Lemma flat_moon_score_shape (times : list datetime) (moon_longs sun_longs : list Q)
      (planets : gmap Z (list Q)) (cusps ascmc : list (list Q)) :
  per_instant (length times)
    (Sample.flat_moon_score times moon_longs sun_longs planets cusps ascmc).
Proof.
  split; cbn [Sample.flat_moon_score fst snd]; [apply length_replicate|].
  apply map_Forall_singleton, length_replicate.
Qed.

Lemma no_ruler_score_shape (times : list datetime) (tag : string) (rl : list Q)
      (ri : list Z) (sun_longs : list Q) (planets : gmap Z (list Q))
      (cusps : list (list Q)) (rs : list Q) :
  per_instant (length times)
    (Sample.no_ruler_score times tag rl ri sun_longs planets cusps rs).
Proof. apply per_instant_init. Qed.

Lemma return_all_one_row_per_instant_witness :
  time_grid 0 (timedelta_minutes 120) 60 = Ok [0%Z; timedelta_minutes 60]
  /\ exists rows,
      Sample.find_moving 0 true = Ok rows
      /\ length rows = 2%nat
      /\ map timestamp rows = [0%Z; timedelta_minutes 60]
      /\ map (fun r => (is_valid r, flags r, Qeq_bool (score_total r) 3,
                        Qeq_bool (score_moon r) 3,
                        components r !! "moon_sample"%string))
             rows
         = [(true, [], true, true, Some 3%Q);
            (false, ["rejected"%string], true, true, Some 3%Q)]
      /\ Sample.find_moving 0 false = Ok (filter (fun row => is_valid row = true) rows).
Proof.
  assert (time_grid 0 (timedelta_minutes 120) 60 = Ok [0%Z; timedelta_minutes 60]) as H1
      by (vm_compute; reflexivity).
  split; [exact H1|].
  pose proof (return_all_one_row_per_instant
                Sample.ymd Sample.julday Sample.calc_ut_moving Sample.houses
                Sample.round1 Sample.flat_moon_score Sample.no_ruler_score
                calculate_natal_score
                (fun times a b c d e _ _ _ _ _ => flat_moon_score_shape times a b c d e)
                (fun times tag a b c d e f _ _ _ _ _ _ =>
                   no_ruler_score_shape times tag a b c d e f)
                (fun times a b c H _ => natal_score_shape times a b c H)
                0%Z (timedelta_minutes 120) 0%Q 0%Q None "trabajo"%string 60%Z _ H1) as H.
  cbv beta iota in H.
  assert (VectorizedHouses.calculate_houses Sample.ymd Sample.julday Sample.houses
            [0%Z; timedelta_minutes 60] 0 0
          = Ok ([Sample.cusps_row; Sample.cusps_row], [Sample.ascmc_row; Sample.ascmc_row]))
    as Hh by (vm_compute; reflexivity).
  rewrite Hh in H.
  destruct H as (positions & rows & _ & Hfind & Hlen & Hts & Hfalse & _).
  exists rows. split; [exact Hfind|]. split; [exact Hlen|]. split; [exact Hts|].
  split; [|exact Hfalse].
  assert (match Sample.find_moving 0 true with
          | Ok rows =>
              map (fun r => (is_valid r, flags r, Qeq_bool (score_total r) 3,
                             Qeq_bool (score_moon r) 3,
                             components r !! "moon_sample"%string))
                  rows
              = [(true, [], true, true, Some 3%Q);
                 (false, ["rejected"%string], true, true, Some 3%Q)]
          | Raise _ => False
          end) as Hrows by (vm_compute; reflexivity).
  unfold Sample.find_moving in Hrows. rewrite Hfind in Hrows. exact Hrows.
Defined.

(** Beyond the polar circle the sample house system is not defined, and
    the search raises. *)
Lemma polar_latitude_search_raises :
  Sample.find_moving 70 true = Raise SwissephError.
Proof. vm_compute. reflexivity. Qed.

(** On an empty grid no rows are returned: the search raises. *)
Lemma return_all_empty_grid_raises :
  time_grid 0 0 60 = Ok []
  /\ Sample.find 0 0 None "trabajo" 60 true = Raise ValueError.
Proof. split; vm_compute; reflexivity. Qed.

End ReturnAllFacts.

(** ** The contextual score (scc_calculator.py) *)

Module SCCFacts.

Import SCC_Calculator.
Local Open Scope Q_scope.

(** *** Arithmetic of percentages *)

Lemma Qnat_S (i : nat) : Qnat (S i) == Qnat i + 1.
Proof. unfold Qnat. rewrite Nat2Z.inj_succ, <- Z.add_1_r, inject_Z_plus. reflexivity. Qed.

Lemma Qnat_pos (n : nat) : (0 < n)%nat -> 0 < Qnat n.
Proof.
  intros Hn. unfold Qnat. change 0 with (inject_Z 0). rewrite <- Zlt_Qlt. lia.
Qed.

Lemma Qnat_le (i n : nat) : (i <= n)%nat -> Qnat i <= Qnat n.
Proof. intros H. unfold Qnat. rewrite <- Zle_Qle. lia. Qed.

(** [x / n * 100] grows with [x]. *)
Lemma pct_mono (n : nat) (x y : Q) :
  (0 < n)%nat -> x <= y -> x / Qnat n * 100 <= y / Qnat n * 100.
Proof.
  intros Hn Hxy. apply Qmult_le_compat_r; [|discriminate].
  unfold Qdiv. apply Qmult_le_compat_r; [exact Hxy|].
  apply Qinv_le_0_compat, Qlt_le_weak, Qnat_pos, Hn.
Qed.

(** The interpolation weight lies in [0, 1] and grows with the point. *)
Lemma interp_bounds (prev v p : Q) :
  prev < p -> p <= v -> 0 <= (p - prev) / (v - prev) /\ (p - prev) / (v - prev) <= 1.
Proof.
  intros H1 H2. assert (0 < v - prev) as Hd by lra. split.
  - apply Qle_shift_div_l; [exact Hd|]. lra.
  - apply Qle_shift_div_r; [exact Hd|]. lra.
Qed.

Lemma interp_mono (prev v a b : Q) :
  prev < v -> b <= a -> (b - prev) / (v - prev) <= (a - prev) / (v - prev).
Proof.
  intros H1 H2. unfold Qdiv. apply Qmult_le_compat_r; [lra|].
  apply Qinv_le_0_compat. lra.
Qed.

Lemma Qle_bool_false (x y : Q) : Qle_bool x y = false -> y < x.
Proof.
  intros H. apply Qnot_le_lt. intros Hle. apply Qle_bool_iff in Hle. congruence.
Qed.

Lemma Qeq_bool_lt (x y : Q) : x < y -> Qeq_bool x y = false /\ Qeq_bool y x = false.
Proof.
  intros H. split.
  - destruct (Qeq_bool x y) eqn:E; [apply Qeq_bool_iff in E; lra|reflexivity].
  - destruct (Qeq_bool y x) eqn:E; [apply Qeq_bool_iff in E; lra|reflexivity].
Qed.

Lemma pct_le_100 (i n : nat) : (0 < n)%nat -> (i <= n)%nat -> Qnat i / Qnat n * 100 <= 100.
Proof.
  intros Hn Hi. apply Qle_trans with (Qnat n / Qnat n * 100).
  - apply pct_mono; [exact Hn|]. apply Qnat_le, Hi.
  - pose proof (Qnat_pos n Hn). apply Qle_lteq. right. field. lra.
Qed.

Lemma pct_zero (n : nat) : Qnat 0 / Qnat n * 100 == 0.
Proof. unfold Qdiv. change (Qnat 0) with 0. ring. Qed.

(** *** The blend *)

Lemma linear_form (p : Q) : (p - -6) / (10 - -6) * 100 == (p + 6) * (25 # 4).
Proof. field. Qed.

(** The absolute component is the clamped linear map of -6 .. 10 onto
    0 .. 100. *)
Lemma _calcular_componente_absoluto_clamp (p : Q) :
  _calcular_componente_absoluto p == SpecWords.absolute_pct (-6) 10 p.
Proof.
  unfold _calcular_componente_absoluto, SpecWords.absolute_pct,
    ENRAIZAMIENTO_RANGO, ENRAIZAMIENTO_MIN, ENRAIZAMIENTO_MAX.
  cbv zeta. pose proof (linear_form p) as HX.
  destruct (Qle_bool p (-6)) eqn:Hlo.
  - apply Qle_bool_iff in Hlo.
    rewrite Q.min_r by (rewrite HX; lra). rewrite Q.max_l by (rewrite HX; lra).
    reflexivity.
  - apply Qle_bool_false in Hlo. destruct (Qle_bool 10 p) eqn:Hhi.
    + apply Qle_bool_iff in Hhi.
      rewrite Q.min_l by (rewrite HX; lra). rewrite Q.max_r by lra. reflexivity.
    + apply Qle_bool_false in Hhi.
      rewrite Q.min_r by (rewrite HX; lra). rewrite Q.max_r by (rewrite HX; lra).
      reflexivity.
Qed.

(** *** The percentile loop *)

Section Loop.

(** The sorted batch and its length, as the loop sees them. *)
Variable vo : list Q.
Variable n : nat.
Hypothesis Hn : length vo = n.

(** The entry before position [i] is one of the entries already
    visited. *)
Lemma prev_visited (pre rest : list Q) (i : nat) :
  vo = pre ++ rest -> length pre = S i -> In (nth (S i - 1) vo 0) pre.
Proof.
  intros Hvo Hlen. rewrite Hvo, app_nth1 by lia. apply nth_In. lia.
Qed.

(** Resumed at index [S i] behind entries that are all below the point,
    the loop returns at least [i / n * 100]. *)
Lemma loop_lower (p : Q) (rest pre : list Q) (i : nat) :
  vo = pre ++ rest -> length pre = S i -> (forall x, In x pre -> x < p) ->
  Qnat i / Qnat n * 100 <= relativo_loop p vo n (S i) rest.
Proof.
  revert pre i. induction rest as [|v rest IH]; intros pre i Hvo Hlen Hpre.
  - cbn [relativo_loop]. apply pct_le_100.
    + rewrite <- Hn, Hvo, length_app. lia.
    + rewrite <- Hn, Hvo, length_app. lia.
  - assert (0 < n)%nat as Hpos by (rewrite <- Hn, Hvo, length_app; lia).
    cbn [relativo_loop Nat.eqb].
    destruct (Qle_bool p v) eqn:Hpv.
    + apply Qle_bool_iff in Hpv.
      destruct (Qeq_bool p v).
      * apply pct_mono; [exact Hpos|]. apply Qnat_le. lia.
      * pose proof (Hpre _ (prev_visited pre (v :: rest) i Hvo Hlen)) as Hprev.
        destruct (Qeq_bool v (nth (S i - 1) vo 0)); cbn [negb].
        -- apply pct_mono; [exact Hpos|]. apply Qnat_le. lia.
        -- apply pct_mono; [exact Hpos|].
           replace (S i - 1)%nat with i by lia.
           destruct (interp_bounds _ v p Hprev Hpv) as [H0 _].
           replace (S i - 1)%nat with i in H0 by lia. lra.
    + apply Qle_bool_false in Hpv.
      apply Qle_trans with (Qnat (S i) / Qnat n * 100).
      * apply pct_mono; [exact Hpos|]. apply Qnat_le. lia.
      * apply (IH (pre ++ [v])).
        -- rewrite <- app_assoc. exact Hvo.
        -- rewrite length_app. cbn [length]. lia.
        -- intros x Hx. apply in_app_or in Hx. destruct Hx as [Hx|[<-|[]]];
             [apply Hpre, Hx|exact Hpv].
Qed.

(** The loop is monotone in the point. *)
Lemma loop_mono (a b : Q) (rest pre : list Q) :
  b < a -> vo = pre ++ rest -> (forall x, In x pre -> x < b) ->
  relativo_loop b vo n (length pre) rest <= relativo_loop a vo n (length pre) rest.
Proof.
  intros Hba. revert pre. induction rest as [|v rest IH]; intros pre Hvo Hpre.
  - cbn [relativo_loop]. apply Qle_refl.
  - assert (0 < n)%nat as Hpos by (rewrite <- Hn, Hvo, length_app; cbn [length]; lia).
    cbn [relativo_loop].
    destruct (Qle_bool b v) eqn:Hbv; destruct (Qle_bool a v) eqn:Hav.
    + (* both stop here *)
      apply Qle_bool_iff in Hbv. apply Qle_bool_iff in Hav.
      destruct (length pre) as [|i] eqn:Hlen; cbn [Nat.eqb]; [apply Qle_refl|].
      pose proof (Hpre _ (prev_visited pre (v :: rest) i Hvo Hlen)) as Hprev.
      destruct (Qeq_bool_lt b v) as [-> _]; [lra|].
      destruct (Qeq_bool_lt (nth (S i - 1) vo 0) v) as [_ ->]; [lra|]. cbn [negb].
      destruct (interp_bounds _ v b Hprev Hbv) as [_ Hb1].
      destruct (Qeq_bool a v).
      * apply pct_mono; [exact Hpos|]. replace (S i - 1)%nat with i by lia.
        replace (S i - 1)%nat with i in Hb1 by lia. rewrite Qnat_S. lra.
      * apply pct_mono; [exact Hpos|].
        pose proof (interp_mono (nth (S i - 1) vo 0) v a b) as Hm.
        lapply Hm; [clear Hm; intros Hm|lra]. lapply Hm; [clear Hm; intros Hm|lra].
        lra.
    + (* [b] stops here, [a] goes on *)
      apply Qle_bool_iff in Hbv. apply Qle_bool_false in Hav.
      apply Qle_trans with (Qnat (length pre) / Qnat n * 100).
      * destruct (length pre) as [|i] eqn:Hlen; cbn [Nat.eqb].
        -- rewrite pct_zero. apply Qle_refl.
        -- pose proof (Hpre _ (prev_visited pre (v :: rest) i Hvo Hlen)) as Hprev.
           destruct (Qeq_bool b v); [apply Qle_refl|].
           destruct (Qeq_bool v (nth (S i - 1) vo 0)); cbn [negb]; [apply Qle_refl|].
           apply pct_mono; [exact Hpos|].
           destruct (interp_bounds _ v b Hprev Hbv) as [_ Hb1].
           replace (S i - 1)%nat with i by lia.
           replace (S i - 1)%nat with i in Hb1 by lia. rewrite Qnat_S. lra.
      * apply (loop_lower a rest (pre ++ [v])).
        -- rewrite <- app_assoc. exact Hvo.
        -- rewrite length_app. cbn [length]. lia.
        -- intros x Hx. apply in_app_or in Hx. destruct Hx as [Hx|[<-|[]]];
             [pose proof (Hpre _ Hx); lra|exact Hav].
    + (* impossible: [a <= v < b] *)
      apply Qle_bool_iff in Hav. apply Qle_bool_false in Hbv. lra.
    + (* both go on *)
      apply Qle_bool_false in Hbv.
      replace (S (length pre)) with (length (pre ++ [v]))
        by (rewrite length_app; cbn [length]; lia).
      apply IH.
      * rewrite <- app_assoc. exact Hvo.
      * intros x Hx. apply in_app_or in Hx. destruct Hx as [Hx|[<-|[]]];
          [apply Hpre, Hx|exact Hbv].
Qed.

End Loop.

Lemma _estimar_percentil_aproximado_mono (a b : Q) :
  b <= a -> _estimar_percentil_aproximado b <= _estimar_percentil_aproximado a.
Proof.
  intros Hba. unfold _estimar_percentil_aproximado.
  repeat match goal with
         | |- context [Qle_bool ?x ?y] =>
             let E := fresh "E" in
             destruct (Qle_bool x y) eqn:E;
             [apply Qle_bool_iff in E|apply Qle_bool_false in E]
         end; try discriminate; try lra.
Qed.

Lemma _calcular_componente_relativo_mono (V : list Q) (a b : Q) :
  b < a -> _calcular_componente_relativo b V <= _calcular_componente_relativo a V.
Proof.
  intros Hba. unfold _calcular_componente_relativo.
  destruct V as [|x V]; [apply Qle_refl|].
  apply (loop_mono (PySort.sorted (x :: V)) _ eq_refl a b (PySort.sorted (x :: V)) []);
    [exact Hba|reflexivity|intros y []].
Qed.

(** C6: against one reference batch, a larger raw total never has a
    smaller relative percentile, be it the sorted-interpolation percentile
    itself or the relative component as [calcular_scc] picks it (the
    coarse ladder when the batch has fewer than two points). *)
Theorem relative_pct_monotonic (V : list Q) (raw_a raw_b : Q) :
  raw_b < raw_a ->
  _calcular_componente_relativo raw_b V <= _calcular_componente_relativo raw_a V
  /\ relativo_de raw_b (Some V) <= relativo_de raw_a (Some V).
Proof.
  intros Hba. split; [apply _calcular_componente_relativo_mono, Hba|].
  unfold relativo_de. destruct (1 <? length V)%nat.
  - apply _calcular_componente_relativo_mono, Hba.
  - apply _estimar_percentil_aproximado_mono. lra.
Qed.

Lemma relative_pct_monotonic_witness :
  1 < 2
  /\ _calcular_componente_relativo 1 [3; 1; 2] <= _calcular_componente_relativo 2 [3; 1; 2].
Proof.
  assert (1 < 2) as H by reflexivity.
  split; [exact H|]. exact (proj1 (relative_pct_monotonic [3; 1; 2] 2 1 H)).
Defined.

End SCCFacts.

(** ** The legacy two-phase search (algoritmo_busqueda.py) *)

Module AlgoFacts.

Import SCC_Calculator AlgoritmoBusqueda SpecWords.

(** *** The stable sort *)

Section SortFacts.

Context {A : Type}.
Variable before : A -> A -> bool.
Variable R : A -> A -> Prop.
Hypothesis before_R : forall x y, before x y = true -> R x y.
Hypothesis not_before_R : forall x y, before x y = false -> R y x.

Lemma insert_Permutation (x : A) (l : list A) :
  Permutation (PySort.insert before x l) (x :: l).
Proof.
  induction l as [|y l IH]; cbn [PySort.insert]; [reflexivity|].
  destruct (before x y); [reflexivity|].
  rewrite IH. apply perm_swap.
Qed.

Lemma sort_Permutation (l : list A) : Permutation (PySort.sort before l) l.
Proof.
  induction l as [|x l IH]; cbn [PySort.sort]; [reflexivity|].
  rewrite insert_Permutation. apply perm_skip, IH.
Qed.

Lemma insert_HdRel (x y : A) (l : list A) :
  R y x -> HdRel R y l -> HdRel R y (PySort.insert before x l).
Proof.
  intros Hyx Hhd. destruct l as [|z l]; cbn [PySort.insert].
  - constructor. exact Hyx.
  - destruct (before x z); constructor; [exact Hyx|].
    inversion Hhd; assumption.
Qed.

Lemma insert_Sorted (x : A) (l : list A) :
  Sorted R l -> Sorted R (PySort.insert before x l).
Proof.
  induction 1 as [|y l Hs IH Hhd]; cbn [PySort.insert].
  - repeat constructor.
  - destruct (before x y) eqn:E.
    + constructor; [constructor; assumption|]. constructor. apply before_R, E.
    + constructor; [exact IH|]. apply insert_HdRel; [|exact Hhd].
      apply not_before_R, E.
Qed.

Lemma sort_Sorted (l : list A) : Sorted R (PySort.sort before l).
Proof.
  induction l as [|x l IH]; cbn [PySort.sort]; [constructor|].
  apply insert_Sorted, IH.
Qed.

Lemma StronglySorted_take (k : nat) (l : list A) :
  StronglySorted R l -> StronglySorted R (take k l).
Proof.
  intros Hs. revert k. induction Hs as [|x l Hs IH Hall]; intros [|k]; cbn [take firstn];
    try constructor.
  - apply IH.
  - apply Forall_take, Hall.
Qed.

End SortFacts.

(** *** The two-level key *)

Lemma before_desc_key_ge (x y : MomentoSCC) : before_desc x y = true <-> key_ge x y.
Proof.
  unfold before_desc, tuple_lt, sort_key, key_ge, Np.Qlt_bool. cbn [fst snd].
  destruct (Qeq_bool (m_scc x) (m_scc y)) eqn:E.
  - apply Qeq_bool_iff in E. rewrite negb_involutive. rewrite Qle_bool_iff.
    split; [intros H; right; split; assumption|].
    intros [H|[_ H]]; [lra|exact H].
  - apply Qeq_bool_neq in E. rewrite negb_involutive. rewrite Qle_bool_iff.
    split.
    + intros H. left. apply Qle_lteq in H. destruct H as [H|H]; [exact H|].
      exfalso. apply E. symmetry. exact H.
    + intros [H|[H _]]; [lra|tauto].
Qed.

Lemma not_before_desc_key_ge (x y : MomentoSCC) : before_desc x y = false -> key_ge y x.
Proof.
  unfold before_desc, tuple_lt, sort_key, key_ge, Np.Qlt_bool. cbn [fst snd].
  destruct (Qeq_bool (m_scc x) (m_scc y)) eqn:E.
  - apply Qeq_bool_iff in E. rewrite negb_involutive. intros H.
    apply SCCFacts.Qle_bool_false in H. right. split; [symmetry; exact E|lra].
  - rewrite negb_involutive. intros H. apply SCCFacts.Qle_bool_false in H.
    left. exact H.
Qed.

Lemma key_ge_trans : Transitive key_ge.
Proof.
  intros x y z. unfold key_ge.
  intros [H1|[H1 H1']] [H2|[H2 H2']].
  - left. lra.
  - left. lra.
  - left. lra.
  - right. split; lra.
Qed.

(** *** Timestamps through phase 2 *)

Section Phase2.

Variable round1 round2 : Q -> Q.
Variable calcular_enraizamiento_avanzado : datetime -> option Resultado.
Variable procesar_momento_fase1_estatico : datetime -> bool.
Variable as_completed : list datetime -> list datetime.
Variable tema : string.

(** The pool hands back every future exactly once, in some order. *)
Hypothesis as_completed_Permutation : forall l, Permutation (as_completed l) l.

Let procesar := _procesar_momento_paralelo round2 calcular_enraizamiento_avanzado tema.

Lemma procesar_fecha_hora (t : datetime) (m : Momento) :
  procesar t = Some m -> fecha_hora m = t.
Proof.
  unfold procesar, _procesar_momento_paralelo.
  destruct (calcular_enraizamiento_avanzado t) as [r|]; [|discriminate].
  destruct (apto r); [|discriminate].
  destruct (Qle_bool _ _); [|discriminate].
  intros H. injection H as <-. reflexivity.
Qed.

Lemma omap_minutes (l : list datetime) :
  (round_to_minute ∘ fecha_hora) <$> omap procesar l `sublist_of` round_to_minute <$> l.
Proof.
  induction l as [|t l IH]; [constructor|].
  cbn [omap list_omap]. destruct (procesar t) as [m|] eqn:E.
  - cbn [fmap list_fmap]. unfold compose at 1.
    rewrite (procesar_fecha_hora t m E). apply sublist_skip, IH.
  - cbn [fmap list_fmap]. apply sublist_cons, IH.
Qed.

Lemma scc_minutes (ms : list Momento) :
  minute_of <$> procesar_momentos_con_scc round1 ms
  = (round_to_minute ∘ fecha_hora) <$> ms.
Proof.
  unfold procesar_momentos_con_scc.
  change (map ?f ?l) with (f <$> l). rewrite <- list_fmap_compose.
  apply list_fmap_ext. intros i m _. reflexivity.
Qed.

Let fase_2 := _fase_2_enraizamiento round1 round2 calcular_enraizamiento_avanzado
                as_completed tema.

(** What phase 2 sorts: the apt instants with their contextual scores. *)
Let candidates (momentos : list datetime) : list MomentoSCC :=
  _aplicar_scc_a_momentos round1 (omap procesar (as_completed momentos)).

Lemma key_ge_refl (x : MomentoSCC) : key_ge x x.
Proof. right. split; [reflexivity|apply Qle_refl]. Qed.

(** Instants with pairwise distinct minutes give candidates with pairwise
    distinct minutes. *)
Lemma candidates_minutes_NoDup (momentos : list datetime) :
  NoDup (round_to_minute <$> momentos) -> NoDup (minute_of <$> candidates momentos).
Proof.
  intros Hdup. unfold candidates, _aplicar_scc_a_momentos. rewrite scc_minutes.
  apply sublist_NoDup with (l2 := round_to_minute <$> as_completed momentos);
    [|apply omap_minutes].
  rewrite as_completed_Permutation. exact Hdup.
Qed.

Lemma NoDup_fmap_inj_on {A B : Type} (f : A -> B) (l : list A) (x y : A) :
  NoDup (f <$> l) -> x ∈ l -> y ∈ l -> f x = f y -> x = y.
Proof.
  induction l as [|a l IH]; intros Hnd Hx Hy Hf; [inversion Hx|].
  cbn [fmap list_fmap] in Hnd. apply NoDup_cons in Hnd. destruct Hnd as [Ha Hnd].
  apply elem_of_cons in Hx. apply elem_of_cons in Hy.
  destruct Hx as [->|Hx], Hy as [->|Hy].
  - reflexivity.
  - exfalso. apply Ha. rewrite Hf. apply list_elem_of_fmap_2, Hy.
  - exfalso. apply Ha. rewrite <- Hf. apply list_elem_of_fmap_2, Hx.
  - apply IH; assumption.
Qed.

Lemma fase_2_properties (momentos : list datetime) :
  momentos <> [] ->
  NoDup (round_to_minute <$> momentos) ->
  exists out,
    fase_2 momentos = Ok out
    /\ NoDup (minute_of <$> out)
    /\ (forall x c, x ∈ out -> c ∈ candidates momentos ->
                    minute_of c = minute_of x -> c = x /\ key_ge x c)
    /\ StronglySorted key_ge out
    /\ (length out <= MAX_RESULTADOS_FINALES)%nat.
Proof.
  intros Hne Hdup. unfold fase_2, _fase_2_enraizamiento.
  destruct momentos as [|t0 rest]; [congruence|].
  set (momentos := t0 :: rest) in *. eexists. split; [reflexivity|].
  fold procesar. fold (candidates momentos).
  pose proof (candidates_minutes_NoDup momentos Hdup) as Hcand.
  pose proof (sort_Permutation before_desc (candidates momentos)) as Hperm.
  assert (forall x, x ∈ take MAX_RESULTADOS_FINALES
                          (PySort.sort before_desc (candidates momentos)) ->
                    x ∈ candidates momentos) as Hin.
  { intros x Hx. rewrite <- Hperm.
    apply (elem_of_submseteq _ _ x Hx), sublist_submseteq, sublist_take. }
  split; [|split; [|split]].
  - rewrite fmap_take.
    apply sublist_NoDup
      with (l2 := minute_of <$> PySort.sort before_desc (candidates momentos));
      [|apply sublist_take].
    rewrite Hperm. exact Hcand.
  - intros x c Hx Hc Hmin.
    assert (c = x) as ->
        by (apply (NoDup_fmap_inj_on minute_of (candidates momentos));
            [exact Hcand|exact Hc|apply Hin, Hx|exact Hmin]).
    split; [reflexivity|apply key_ge_refl].
  - apply StronglySorted_take, Sorted_StronglySorted; [exact key_ge_trans|].
    apply (sort_Sorted before_desc key_ge).
    + intros x y. apply before_desc_key_ge.
    + exact not_before_desc_key_ge.
  - rewrite length_take. lia.
Qed.

(** The instants of the 30-minute grid have pairwise distinct minutes. *)
Lemma grid_minutes_NoDup (fecha_inicio fecha_fin : datetime) :
  NoDup (round_to_minute <$> _generar_momentos_fase1 fecha_inicio fecha_fin).
Proof.
  unfold _generar_momentos_fase1. destruct (fecha_fin <? fecha_inicio)%Z;
    [constructor|].
  change (map ?f ?l) with (f <$> l). rewrite <- list_fmap_compose.
  apply NoDup_fmap_2_strong; [|apply NoDup_seq].
  intros j k _ _. unfold compose, round_to_minute, timedelta_minutes.
  replace (Z.of_nat j * (30 * MICROS_PER_MINUTE))%Z
    with (Z.of_nat j * 30 * MICROS_PER_MINUTE)%Z by ring.
  replace (Z.of_nat k * (30 * MICROS_PER_MINUTE))%Z
    with (Z.of_nat k * 30 * MICROS_PER_MINUTE)%Z by ring.
  rewrite !Z_mod_plus_full. unfold MICROS_PER_MINUTE, MICROS_PER_SECOND. lia.
Qed.

Lemma grid_empty_iff (fecha_inicio fecha_fin : datetime) :
  _generar_momentos_fase1 fecha_inicio fecha_fin = [] <-> (fecha_fin < fecha_inicio)%Z.
Proof.
  unfold _generar_momentos_fase1.
  destruct (Z.ltb_spec fecha_fin fecha_inicio) as [Hlt|Hge]; [tauto|].
  split; [|lia]. intros H.
  assert (0 <= (fecha_fin - fecha_inicio) / timedelta_minutes 30)%Z
    by (apply Z.div_pos; [lia|reflexivity]).
  replace (Z.to_nat ((fecha_fin - fecha_inicio) / timedelta_minutes 30 + 1))
    with (S (Z.to_nat ((fecha_fin - fecha_inicio) / timedelta_minutes 30))) in H by lia.
  discriminate H.
Qed.

(** C9: what the coarse-to-fine strategy returns from phase 2 has no two
    entries of the same minute (no candidate of that minute scores higher
    than the entry kept, since phase 2 only receives instants of the
    30-minute grid of phase 1, one per minute at most), is sorted in
    descending order of (contextual score, total score) and has at most 25
    entries.  The strategy returns such a list for every range with
    [fecha_inicio <= fecha_fin]; on a range with [fecha_fin < fecha_inicio]
    phase 1 raises before phase 2 is reached. *)
Theorem fase_2_distinct_sorted_capped :
  (forall (fecha_inicio fecha_fin : datetime) (momentos : list datetime),
      momentos <> [] ->
      momentos `sublist_of` _generar_momentos_fase1 fecha_inicio fecha_fin ->
      exists out,
        fase_2 momentos = Ok out
        /\ NoDup (minute_of <$> out)
        /\ (forall x c, x ∈ out -> c ∈ candidates momentos ->
                        minute_of c = minute_of x -> c = x /\ key_ge x c)
        /\ StronglySorted key_ge out
        /\ (length out <= MAX_RESULTADOS_FINALES)%nat)
  /\ (forall fecha_inicio fecha_fin : datetime,
         if (fecha_fin <? fecha_inicio)%Z
         then buscar_mejores_momentos round1 round2 calcular_enraizamiento_avanzado
                procesar_momento_fase1_estatico as_completed tema fecha_inicio fecha_fin
              = Raise ValueError
         else
           exists out,
             buscar_mejores_momentos round1 round2 calcular_enraizamiento_avanzado
               procesar_momento_fase1_estatico as_completed tema fecha_inicio fecha_fin
             = Ok out
             /\ NoDup (minute_of <$> out)
             /\ StronglySorted key_ge out
             /\ (length out <= MAX_RESULTADOS_FINALES)%nat
             /\ (out = []
                 \/ fase_2 (filter (fun m => procesar_momento_fase1_estatico m = true)
                                   (_generar_momentos_fase1 fecha_inicio fecha_fin))
                    = Ok out)).
Proof.
  assert (forall fecha_inicio fecha_fin momentos,
             momentos `sublist_of` _generar_momentos_fase1 fecha_inicio fecha_fin ->
             NoDup (round_to_minute <$> momentos)) as Hgrid.
  { intros fecha_inicio fecha_fin momentos Hsub.
    apply sublist_NoDup
      with (l2 := round_to_minute <$> _generar_momentos_fase1 fecha_inicio fecha_fin);
      [apply grid_minutes_NoDup|apply fmap_sublist, Hsub]. }
  split.
  - intros fecha_inicio fecha_fin momentos Hne Hsub.
    apply fase_2_properties; [exact Hne|]. exact (Hgrid _ _ _ Hsub).
  - intros fecha_inicio fecha_fin.
    unfold buscar_mejores_momentos, _fase_1_filtro_basico.
    pose proof (grid_empty_iff fecha_inicio fecha_fin) as Hempty.
    destruct (Z.ltb_spec fecha_fin fecha_inicio) as [Hlt|Hge].
    + rewrite (proj2 Hempty Hlt). reflexivity.
    + assert (_generar_momentos_fase1 fecha_inicio fecha_fin <> []) as Hne
          by (intros H; apply Hempty in H; lia).
      clear Hempty.
      destruct (_generar_momentos_fase1 fecha_inicio fecha_fin) as [|g0 grid] eqn:E;
        [congruence|].
      cbn [bind].
      set (prometedores := filter (fun m => procesar_momento_fase1_estatico m = true)
                                  (g0 :: grid)).
      assert (prometedores `sublist_of` _generar_momentos_fase1 fecha_inicio fecha_fin)
        as Hsub by (rewrite E; apply sublist_filter).
      destruct prometedores as [|t0 rest] eqn:Ep.
      * exists []. split; [reflexivity|]. split; [constructor|].
        split; [constructor|]. split; [cbn; lia|left; reflexivity].
      * destruct (fase_2_properties (t0 :: rest)) as (out & Hout & Hnd & _ & Hs & Hlen);
          [discriminate|exact (Hgrid _ _ _ Hsub)|].
        exists out. split; [exact Hout|]. split; [exact Hnd|]. split; [exact Hs|].
        split; [exact Hlen|right; exact Hout].
Qed.

End Phase2.

Lemma fase_2_distinct_sorted_capped_witness :
  (forall l, Permutation (Sample.in_order l) l)
  /\ exists out,
      Sample.fase_2 [0%Z; timedelta_minutes 30] = Ok out
      /\ NoDup (minute_of <$> out)
      /\ StronglySorted key_ge out
      /\ (length out <= MAX_RESULTADOS_FINALES)%nat
      /\ length out = 2%nat.
Proof.
  assert (forall l, Permutation (Sample.in_order l) l) as Hperm by reflexivity.
  split; [exact Hperm|].
  destruct (proj1 (fase_2_distinct_sorted_capped Sample.round1 Sample.round1
                     Sample.evaluate (fun _ => true) Sample.in_order "trabajo" Hperm)
                  0%Z (timedelta_minutes 60) [0%Z; timedelta_minutes 30])
    as (out & Hout & Hnd & _ & Hs & Hlen).
  - discriminate.
  - vm_compute. repeat constructor.
  - exists out. split; [exact Hout|]. split; [exact Hnd|]. split; [exact Hs|].
    split; [exact Hlen|].
    assert (match Sample.fase_2 [0%Z; timedelta_minutes 30] with
            | Ok out => length out = 2%nat
            | Raise _ => False
            end) as H2 by (vm_compute; reflexivity).
    unfold Sample.fase_2 in H2. rewrite Hout in H2. exact H2.
Defined.

(** On a range that ends before it starts the strategy raises. *)
Lemma buscar_mejores_momentos_reversed_range :
  AlgoritmoBusqueda.buscar_mejores_momentos Sample.round1 Sample.round1 Sample.evaluate
    (fun _ => true) Sample.in_order "trabajo" (timedelta_minutes 60) 0
  = Raise ValueError.
Proof. vm_compute. reflexivity. Qed.

End AlgoFacts.

(** ** The blend and its relative component (scc_calculator.py) *)

Module BlendFacts.

Import SCC_Calculator SpecWords.
Local Open Scope Q_scope.

(** *** Greatest and least entry *)

Lemma greatest_upper (x : Q) (l : list Q) (y : Q) :
  In y (x :: l) -> y <= greatest x l.
Proof.
  unfold greatest. induction l as [|a l IH]; cbn [fold_right]; intros Hy.
  - destruct Hy as [<-|[]]. apply Qle_refl.
  - destruct Hy as [<-|[<-|Hy]].
    + apply Qle_trans with (fold_right Qmax x l); [apply IH; left; reflexivity|].
      apply Q.le_max_r.
    + apply Q.le_max_l.
    + apply Qle_trans with (fold_right Qmax x l); [apply IH; right; exact Hy|].
      apply Q.le_max_r.
Qed.

Lemma greatest_member (x : Q) (l : list Q) :
  exists y, In y (x :: l) /\ greatest x l == y.
Proof.
  unfold greatest. induction l as [|a l [y [Hy E]]]; cbn [fold_right].
  - exists x. split; [left; reflexivity|reflexivity].
  - destruct (Q.max_spec a (fold_right Qmax x l)) as [[_ H]|[_ H]].
    + exists y. split; [|rewrite H; exact E].
      destruct Hy as [<-|Hy]; [left; reflexivity|right; right; exact Hy].
    + exists a. split; [right; left; reflexivity|exact H].
Qed.

Lemma least_lower (x : Q) (l : list Q) (y : Q) :
  In y (x :: l) -> least x l <= y.
Proof.
  unfold least. induction l as [|a l IH]; cbn [fold_right]; intros Hy.
  - destruct Hy as [<-|[]]. apply Qle_refl.
  - destruct Hy as [<-|[<-|Hy]].
    + apply Qle_trans with (fold_right Qmin x l); [apply Q.le_min_r|].
      apply IH. left. reflexivity.
    + apply Q.le_min_l.
    + apply Qle_trans with (fold_right Qmin x l); [apply Q.le_min_r|].
      apply IH. right. exact Hy.
Qed.

Lemma least_member (x : Q) (l : list Q) :
  exists y, In y (x :: l) /\ least x l == y.
Proof.
  unfold least. induction l as [|a l [y [Hy E]]]; cbn [fold_right].
  - exists x. split; [left; reflexivity|reflexivity].
  - destruct (Q.min_spec a (fold_right Qmin x l)) as [[_ H]|[_ H]].
    + exists a. split; [right; left; reflexivity|exact H].
    + exists y. split; [|rewrite H; exact E].
      destruct Hy as [<-|Hy]; [left; reflexivity|right; right; exact Hy].
Qed.

Lemma greatest_Permutation (x x' : Q) (l l' : list Q) :
  Permutation (x :: l) (x' :: l') -> greatest x l == greatest x' l'.
Proof.
  intros Hperm. apply Qle_antisym.
  - destruct (greatest_member x l) as [y [Hy ->]].
    apply greatest_upper, (Permutation_in _ Hperm), Hy.
  - destruct (greatest_member x' l') as [y [Hy ->]].
    apply greatest_upper, (Permutation_in _ (Permutation_sym Hperm)), Hy.
Qed.

Lemma least_Permutation (x x' : Q) (l l' : list Q) :
  Permutation (x :: l) (x' :: l') -> least x l == least x' l'.
Proof.
  intros Hperm. apply Qle_antisym.
  - destruct (least_member x' l') as [y [Hy ->]].
    apply least_lower, (Permutation_in _ (Permutation_sym Hperm)), Hy.
  - destruct (least_member x l) as [y [Hy ->]].
    apply least_lower, (Permutation_in _ Hperm), Hy.
Qed.

Lemma filter_Permutation_bool (f : Q -> bool) (l l' : list Q) :
  Permutation l l' -> Permutation (List.filter f l) (List.filter f l').
Proof.
  induction 1 as [|x l l' _ IH|x y l|l l' l'' _ IH1 _ IH2]; cbn [List.filter].
  - constructor.
  - destruct (f x); [constructor|]; exact IH.
  - destruct (f x), (f y); try reflexivity. apply perm_swap.
  - etransitivity; eassumption.
Qed.

(** The percentile of the spec does not depend on the order of the
    batch. *)
Lemma interpolated_percentile_Permutation (p : Q) (V V' : list Q) :
  Permutation V V' -> interpolated_percentile p V == interpolated_percentile p V'.
Proof.
  intros Hperm. unfold interpolated_percentile. cbv zeta.
  rewrite (Permutation_length Hperm).
  pose proof (filter_Permutation_bool (fun v => Qle_bool p v) _ _ Hperm) as Ha.
  pose proof (filter_Permutation_bool (fun v => Np.Qlt_bool v p) _ _ Hperm) as Hb.
  destruct (List.filter (fun v => Qle_bool p v) V) as [|u us],
           (List.filter (fun v => Qle_bool p v) V') as [|u' us'];
    try reflexivity;
    try (apply Permutation_nil in Ha; discriminate);
    try (apply Permutation_sym, Permutation_nil in Ha; discriminate).
  destruct (List.filter (fun v => Np.Qlt_bool v p) V) as [|l ls],
           (List.filter (fun v => Np.Qlt_bool v p) V') as [|l' ls'];
    try reflexivity;
    try (apply Permutation_nil in Hb; discriminate);
    try (apply Permutation_sym, Permutation_nil in Hb; discriminate).
  rewrite (Permutation_length Hb).
  pose proof (least_Permutation _ _ _ _ Ha) as Hhi.
  pose proof (greatest_Permutation _ _ _ _ Hb) as Hlo.
  assert (Qeq_bool p (least u us) = Qeq_bool p (least u' us')) as ->
      by (apply Qeqb_comp; [reflexivity|exact Hhi]).
  destruct (Qeq_bool p (least u' us')); [reflexivity|].
  rewrite Hhi, Hlo. reflexivity.
Qed.

(** *** The loop on a sorted batch *)

Lemma filter_none (f : Q -> bool) (l : list Q) :
  (forall x, In x l -> f x = false) -> List.filter f l = [].
Proof.
  induction l as [|a l IH]; intros H; cbn [List.filter]; [reflexivity|].
  rewrite (H a (or_introl eq_refl)). apply IH. intros x Hx. apply H. right. exact Hx.
Qed.

Lemma filter_all (f : Q -> bool) (l : list Q) :
  (forall x, In x l -> f x = true) -> List.filter f l = l.
Proof.
  induction l as [|a l IH]; intros H; cbn [List.filter]; [reflexivity|].
  rewrite (H a (or_introl eq_refl)). f_equal. apply IH.
  intros x Hx. apply H. right. exact Hx.
Qed.

Lemma Qlt_bool_true (x y : Q) : x < y -> Np.Qlt_bool x y = true.
Proof.
  intros H. unfold Np.Qlt_bool. destruct (Qle_bool y x) eqn:E; [|reflexivity].
  apply Qle_bool_iff in E. lra.
Qed.

Lemma Qlt_bool_false (x y : Q) : y <= x -> Np.Qlt_bool x y = false.
Proof.
  intros H. unfold Np.Qlt_bool. apply Qle_bool_iff in H. rewrite H. reflexivity.
Qed.

Lemma Qle_bool_lt_false (x y : Q) : y < x -> Qle_bool x y = false.
Proof.
  intros H. destruct (Qle_bool x y) eqn:E; [|reflexivity].
  apply Qle_bool_iff in E. lra.
Qed.

Section Loop.

Variable p : Q.
Variable vo : list Q.

(** Resumed behind the entries [pre], all below [p] and none above an
    entry still to come, with the last of them the greatest, the loop
    returns the percentile of the spec. *)
Lemma loop_is_percentile (rest pre : list Q) :
  vo = pre ++ rest ->
  (forall x, In x pre -> x < p) ->
  (forall x, In x pre -> x <= nth (length pre - 1) pre 0) ->
  (forall x y, In x pre -> In y rest -> x <= y) ->
  StronglySorted Qle rest ->
  relativo_loop p vo (length vo) (length pre) rest == interpolated_percentile p vo.
Proof.
  revert pre. induction rest as [|v rest IH]; intros pre Hvo Hpre Hlast Hcross Hs.
  - cbn [relativo_loop]. unfold interpolated_percentile. cbv zeta.
    rewrite app_nil_r in Hvo. subst vo.
    rewrite (filter_none (fun v => Qle_bool p v) pre); [reflexivity|].
    intros x Hx. apply Qle_bool_lt_false, Hpre, Hx.
  - apply StronglySorted_inv in Hs. destruct Hs as [Hs Hv].
    cbn [relativo_loop]. destruct (Qle_bool p v) eqn:Hpv.
    + apply Qle_bool_iff in Hpv.
      assert (forall y, In y (v :: rest) -> p <= y) as Habove.
      { intros y [<-|Hy]; [exact Hpv|].
        apply Qle_trans with v; [exact Hpv|].
        rewrite List.Forall_forall in Hv. apply Hv, Hy. }
      assert (List.filter (fun v => Qle_bool p v) vo = v :: rest) as Hf1.
      { rewrite Hvo, List.filter_app.
        rewrite (filter_none (fun v => Qle_bool p v) pre)
          by (intros x Hx; apply Qle_bool_lt_false, Hpre, Hx).
        rewrite (filter_all (fun v => Qle_bool p v) (v :: rest))
          by (intros x Hx; apply Qle_bool_iff, Habove, Hx).
        reflexivity. }
      assert (List.filter (fun v => Np.Qlt_bool v p) vo = pre) as Hf2.
      { rewrite Hvo, List.filter_app.
        rewrite (filter_all (fun v => Np.Qlt_bool v p) pre)
          by (intros x Hx; apply Qlt_bool_true, Hpre, Hx).
        rewrite (filter_none (fun v => Np.Qlt_bool v p) (v :: rest))
          by (intros x Hx; apply Qlt_bool_false, Habove, Hx).
        apply app_nil_r. }
      unfold interpolated_percentile. cbv zeta. rewrite Hf1, Hf2.
      destruct pre as [|l ls]; cbn [length Nat.eqb]; [reflexivity|].
      assert (least v rest == v) as Hhi.
      { apply Qle_antisym; [apply least_lower; left; reflexivity|].
        destruct (least_member v rest) as [y [Hy ->]].
        destruct Hy as [<-|Hy]; [apply Qle_refl|].
        rewrite List.Forall_forall in Hv. apply Hv, Hy. }
      rewrite Hhi.
      destruct (Qeq_bool p v) eqn:Heq; [reflexivity|].
      apply Qeq_bool_neq in Heq.
      set (prev := nth (S (length ls) - 1) vo 0).
      assert (prev = nth (length (l :: ls) - 1) (l :: ls) 0) as Hprev.
      { subst prev. rewrite Hvo. cbn [length]. apply app_nth1. cbn [length]. lia. }
      assert (In prev (l :: ls)) as Hin
          by (rewrite Hprev; apply nth_In; cbn [length]; lia).
      assert (prev < v) as Hpv'.
      { apply Qlt_le_trans with p; [apply Hpre, Hin|exact Hpv]. }
      assert (greatest l ls == prev) as Hlo.
      { apply Qle_antisym; [|apply greatest_upper, Hin].
        destruct (greatest_member l ls) as [y [Hy ->]].
        rewrite Hprev. apply Hlast, Hy. }
      assert (Qeq_bool v prev = false) as ->.
      { destruct (Qeq_bool v prev) eqn:E; [|reflexivity].
        apply Qeq_bool_iff in E. lra. }
      cbn [negb]. rewrite Hlo. unfold Qnat.
      replace (Z.of_nat (S (length ls) - 1)) with (Z.of_nat (S (length ls)) - 1)%Z
        by lia.
      unfold Zminus. rewrite inject_Z_plus. change (inject_Z (- (1))) with (-1).
      apply Qmult_comp; [|reflexivity]. apply Qdiv_comp; [|reflexivity].
      rewrite Hhi. ring.
    + apply SCCFacts.Qle_bool_false in Hpv.
      replace (S (length pre)) with (length (pre ++ [v]))
        by (rewrite length_app; cbn [length]; lia).
      apply IH.
      * rewrite <- app_assoc. exact Hvo.
      * intros x Hx. apply in_app_or in Hx. destruct Hx as [Hx|[<-|[]]];
          [apply Hpre, Hx|exact Hpv].
      * intros x Hx.
        replace (nth (length (pre ++ [v]) - 1) (pre ++ [v]) 0) with v.
        -- apply in_app_or in Hx. destruct Hx as [Hx|[<-|[]]]; [|apply Qle_refl].
           apply Hcross; [exact Hx|left; reflexivity].
        -- rewrite length_app. cbn [length].
           replace (length pre + 1 - 1)%nat with (length pre) by lia.
           rewrite app_nth2 by lia. rewrite Nat.sub_diag. reflexivity.
      * intros x y Hx Hy. apply in_app_or in Hx. destruct Hx as [Hx|[<-|[]]].
        -- apply Hcross; [exact Hx|right; exact Hy].
        -- rewrite List.Forall_forall in Hv. apply Hv, Hy.
      * exact Hs.
Qed.

End Loop.

(** Python's [sorted] sorts. *)
Lemma sorted_spec (V : list Q) :
  Permutation (PySort.sorted V) V /\ StronglySorted Qle (PySort.sorted V).
Proof.
  unfold PySort.sorted. split; [apply AlgoFacts.sort_Permutation|].
  apply Sorted_StronglySorted; [intros x y z; apply Qle_trans|].
  apply (AlgoFacts.sort_Sorted Qle_bool Qle).
  - intros x y H. apply Qle_bool_iff, H.
  - intros x y H. apply Qlt_le_weak, SCCFacts.Qle_bool_false, H.
Qed.

(** On a batch that is not empty the relative component of the code is the
    percentile of the spec. *)
Lemma relativo_is_percentile (p : Q) (V : list Q) :
  V <> [] -> _calcular_componente_relativo p V == interpolated_percentile p V.
Proof.
  intros Hne. destruct (sorted_spec V) as [Hperm Hs].
  unfold _calcular_componente_relativo. destruct V as [|x V]; [congruence|].
  rewrite <- (interpolated_percentile_Permutation p _ _ Hperm).
  apply (loop_is_percentile p (PySort.sorted (x :: V)) (PySort.sorted (x :: V)) []).
  - reflexivity.
  - intros y [].
  - intros y [].
  - intros y z [].
  - exact Hs.
Qed.

(** A raw total of 2.5 in the batch 4, 1, 2, 3: two entries are below it,
    it lies half way between 2 and 3, so its rank is (1 + 0.5) / 4. *)
Example relativo_sample :
  _calcular_componente_relativo 2.5 [4; 1; 2; 3] == 37.5
  /\ interpolated_percentile 2.5 [4; 1; 2; 3] == 37.5
  /\ _calcular_componente_relativo 2 [4; 1; 2; 3] == 25
  /\ _calcular_componente_relativo 5 [4; 1; 2; 3] == 100
  /\ _calcular_componente_relativo 0 [4; 1; 2; 3] == 0.
Proof. repeat split; vm_compute; reflexivity. Qed.

(** The ladder of the code stands on the rungs of the spec. *)
Lemma estimar_on_ladder (p : Q) : on_ladder p (_estimar_percentil_aproximado p).
Proof.
  unfold on_ladder, _estimar_percentil_aproximado.
  destruct (Qle_bool 3 p) eqn:E3;
    [apply Qle_bool_iff in E3|apply SCCFacts.Qle_bool_false in E3;
     destruct (Qle_bool 2 p) eqn:E2;
     [apply Qle_bool_iff in E2|apply SCCFacts.Qle_bool_false in E2;
      destruct (Qle_bool 1 p) eqn:E1;
      [apply Qle_bool_iff in E1|apply SCCFacts.Qle_bool_false in E1;
       destruct (Qle_bool 0 p) eqn:E0;
       [apply Qle_bool_iff in E0|apply SCCFacts.Qle_bool_false in E0;
        destruct (Qle_bool (-2) p) eqn:Em;
        [apply Qle_bool_iff in Em|apply SCCFacts.Qle_bool_false in Em]]]]];
    repeat split; intros; try reflexivity; exfalso; lra.
Qed.

(** C5: the contextual score is 0.8 times the absolute percentage (the
    clamped linear map of -6 .. 10 onto 0 .. 100) plus 0.2 times the
    relative percentage; with a batch of at least two points the relative
    percentage is the sorted-interpolation percentile of the raw total in
    the batch, otherwise it stands on the fixed ladder (95 from 3 up, 85
    from 2, 70 from 1, 50 from 0, 30 from -2, 10 below).  The candidate is
    not recommendable exactly when the blend is below 40, and is then
    labelled so whatever its rank.  The returned fields are the blend and
    its components rounded to one decimal. *)
Theorem calcular_scc_is_the_blend (round1 : Q -> Q) (p : Q) (V : option (list Q)) :
  let relative := relativo_de p V in
  let blend := 0.8 * absolute_pct (-6) 10 p + 0.2 * relative in
  match V with
  | Some vs =>
      if (2 <=? length vs)%nat then relative == interpolated_percentile p vs
      else on_ladder p relative
  | None => on_ladder p relative
  end
  /\ scc_blend p V == blend
  /\ scc (calcular_scc round1 p V) = round1 (scc_blend p V)
  /\ absoluto_pct (calcular_scc round1 p V) = round1 (_calcular_componente_absoluto p)
  /\ _calcular_componente_absoluto p == absolute_pct (-6) 10 p
  /\ relativo_pct (calcular_scc round1 p V) = round1 relative
  /\ (recomendable (calcular_scc round1 p V) = false <-> blend < 40)
  /\ (blend < 40 -> categoria (calcular_scc round1 p V) = NO_RECOMENDABLE).
Proof.
  cbv zeta.
  assert (scc_blend p V
          == 0.8 * absolute_pct (-6) 10 p + 0.2 * relativo_de p V) as Hblend.
  { unfold scc_blend, PESO_ABSOLUTO, PESO_RELATIVO.
    rewrite SCCFacts._calcular_componente_absoluto_clamp. ring. }
  assert (recomendable (calcular_scc round1 p V) = false
          <-> 0.8 * absolute_pct (-6) 10 p + 0.2 * relativo_de p V < 40) as Hrec.
  { rewrite <- Hblend. unfold calcular_scc, scc_blend. cbn [recomendable].
    unfold UMBRAL_MINIMO_RECOMENDABLE. split.
    - apply SCCFacts.Qle_bool_false.
    - intros Hlt. destruct (Qle_bool 40 _) eqn:E; [|reflexivity].
      apply Qle_bool_iff in E. lra. }
  split.
  { unfold relativo_de. destruct V as [vs|]; [|apply estimar_on_ladder].
    destruct (Nat.leb_spec 2 (length vs)) as [H2|H2].
    - assert ((1 <? length vs)%nat = true) as -> by (apply Nat.ltb_lt; lia).
      apply relativo_is_percentile. intros ->. cbn in H2. lia.
    - assert ((1 <? length vs)%nat = false) as -> by (apply Nat.ltb_ge; lia).
      apply estimar_on_ladder. }
  split; [exact Hblend|]. split; [reflexivity|]. split; [reflexivity|].
  split; [apply SCCFacts._calcular_componente_absoluto_clamp|].
  split; [reflexivity|]. split; [exact Hrec|].
  intros Hlt. apply Hrec in Hlt. revert Hlt.
  unfold calcular_scc. cbn [recomendable categoria]. intros ->. reflexivity.
Qed.

End BlendFacts.

(** * Further properties of the code *)

(** ** Signs, aspects and rulers (vectorized_logic.py) *)

Module LogicExtra.

Import VectorizedLogic SpecWords.
Local Open Scope Q_scope.

Lemma Qfloor_unique (x : Q) (z : Z) :
  inject_Z z <= x -> x < inject_Z (z + 1) -> Qfloor x = z.
Proof.
  intros Hlo Hhi.
  assert (z <= Qfloor x)%Z as H1.
  { rewrite <- (Qfloor_Z z). apply Qfloor_resp_le, Hlo. }
  assert (Qfloor x < z + 1)%Z as H2.
  { rewrite Zlt_Qlt. apply Qle_lt_trans with x; [apply Qfloor_le|exact Hhi]. }
  lia.
Qed.

Lemma sign_index_bounds (L : Q) : (0 <= sign_index L <= 11)%Z.
Proof.
  unfold sign_index. pose proof (Z.mod_pos_bound (Qfloor (L / 30)) 12). lia.
Qed.

Lemma sign_cases (s : Z) :
  (0 <= s <= 11)%Z ->
  (s = 0 \/ s = 1 \/ s = 2 \/ s = 3 \/ s = 4 \/ s = 5 \/ s = 6 \/ s = 7
   \/ s = 8 \/ s = 9 \/ s = 10 \/ s = 11)%Z.
Proof. lia. Qed.

Lemma ruler_bounds (L : Q) : (0 <= get_ruler_for_sign (sign_index L) <= 6)%Z.
Proof.
  destruct (sign_cases _ (sign_index_bounds L))
    as [->|[->|[->|[->|[->|[->|[->|[->|[->|[->|[->| ->]]]]]]]]]]]; vm_compute;
    split; congruence.
Qed.

(** X1: a longitude of the zodiac, 0 <= L < 360, falls in the sign whose
    30-degree sector holds it: the index is in 0 .. 11, the sector of that
    index holds L, and no other sector does. *)
Theorem sign_index_sectors (L : Q) :
  0 <= L < 360 ->
  (0 <= sign_index L <= 11)%Z
  /\ 30 * inject_Z (sign_index L) <= L < 30 * inject_Z (sign_index L) + 30
  /\ forall s : Z, 30 * inject_Z s <= L < 30 * inject_Z s + 30 -> sign_index L = s.
Proof.
  intros [H0 H360].
  assert (forall s : Z, 30 * inject_Z s <= L < 30 * inject_Z s + 30 ->
                        Qfloor (L / 30) = s) as Hfloor.
  { intros s [Hlo Hhi]. apply Qfloor_unique.
    - apply Qle_shift_div_l; [reflexivity|]. lra.
    - rewrite inject_Z_plus. change (inject_Z 1) with 1.
      apply Qlt_shift_div_r; [reflexivity|]. lra. }
  assert (30 * inject_Z (Qfloor (L / 30)) <= L
          < 30 * inject_Z (Qfloor (L / 30)) + 30) as Hsector.
  { pose proof (Qfloor_le (L / 30)) as Hlo.
    pose proof (Qlt_floor (L / 30)) as Hhi.
    rewrite inject_Z_plus in Hhi. change (inject_Z 1) with 1 in Hhi.
    assert (L == 30 * (L / 30)) as HL by (field; discriminate).
    set (q := L / 30) in *. split; lra. }
  assert (0 <= Qfloor (L / 30) <= 11)%Z as Hrange.
  { destruct Hsector as [Hlo Hhi]. split.
    - apply Z.lt_succ_r. rewrite Zlt_Qlt.
      unfold Z.succ. rewrite inject_Z_plus. change (inject_Z 1) with 1.
      change (inject_Z 0) with 0. lra.
    - apply Z.lt_succ_r. rewrite Zlt_Qlt. change (inject_Z (Z.succ 11)) with 12.
      lra. }
  assert (sign_index L = Qfloor (L / 30)) as Hsign.
  { unfold sign_index. apply Z.mod_small. lia. }
  rewrite Hsign. split; [exact Hrange|]. split; [exact Hsector|exact Hfloor].
Qed.

Lemma sign_index_sectors_witness :
  sign_index 190 = 6%Z
  /\ 30 * inject_Z 6 <= 190 < 30 * inject_Z 6 + 30
  /\ (forall s : Z, 30 * inject_Z s <= 190 < 30 * inject_Z s + 30 -> 6%Z = s).
Proof.
  assert (0 <= 190 < 360) as H by (split; discriminate || reflexivity).
  destruct (sign_index_sectors 190 H) as [_ [Hsector Honly]].
  split; [reflexivity|]. split; [exact Hsector|exact Honly].
Defined.

(** X2: an aspect mask does not depend on the order of the two bodies. *)
Theorem mask_exact_aspect_symmetric (body1 body2 : list Q) (aspect_angle orb : Q) :
  mask_exact_aspect body1 body2 aspect_angle orb
  = mask_exact_aspect body2 body1 aspect_angle orb.
Proof.
  unfold mask_exact_aspect, calculate_aspects, Np.map2. f_equal.
  revert body2. induction body1 as [|a body1 IH]; intros [|b body2]; try reflexivity.
  cbn [zip_with]. f_equal; [|apply IH].
  unfold separation. rewrite (Qabs_Qminus a b). reflexivity.
Qed.

(** X3: for longitudes in [0, 360) the separation is the minimal circular
    one, between 0 and 180. *)
Theorem separation_bounds (a b : Q) :
  0 <= a -> a < 360 -> 0 <= b -> b < 360 ->
  0 <= separation a b /\ separation a b <= 180.
Proof.
  intros Ha0 Ha1 Hb0 Hb1. unfold separation. cbv zeta.
  assert (0 <= Qabs (a - b) /\ Qabs (a - b) < 360) as [H0 H1].
  { split; [apply Qabs_nonneg|]. apply Qabs_case; intros; lra. }
  destruct (Q.min_spec (Qabs (a - b)) (360 - Qabs (a - b))) as [[Hlt ->]|[Hle ->]]; lra.
Qed.

Lemma separation_bounds_witness :
  0 <= 350 /\ 350 < 360 /\ 0 <= 10 /\ 10 < 360
  /\ 0 <= separation 350 10 /\ separation 350 10 <= 180.
Proof.
  assert (0 <= 350) as H1 by discriminate. assert (350 < 360) as H2 by reflexivity.
  assert (0 <= 10) as H3 by discriminate. assert (10 < 360) as H4 by reflexivity.
  split; [exact H1|]. split; [exact H2|]. split; [exact H3|]. split; [exact H4|].
  exact (separation_bounds 350 10 H1 H2 H3 H4).
Defined.

(** X4: two aspects whose orbs do not reach each other are never both
    found at one instant; this covers every pair of aspects that the
    scorers and filters test together (conjunction 8 with sextile 6 and
    trine 6; conjunction, sextile and trine at orb 5; conjunction, square
    and opposition at orb 8). *)
Theorem aspects_exclusive (body1 body2 : list Q) (angle1 orb1 angle2 orb2 : Q) :
  orb1 + orb2 < Qabs (angle1 - angle2) ->
  Np.vand (mask_exact_aspect body1 body2 angle1 orb1)
          (mask_exact_aspect body1 body2 angle2 orb2)
  = Np.zeros_bool (length (calculate_aspects body1 body2)).
Proof.
  intros Hfar. unfold mask_exact_aspect, Np.vand, Np.map2, Np.zeros_bool.
  induction (calculate_aspects body1 body2) as [|s l IH]; [reflexivity|].
  cbn [map zip_with length replicate]. f_equal; [|exact IH].
  destruct (Qle_bool (Qabs (s - angle1)) orb1) eqn:E1; [|reflexivity].
  destruct (Qle_bool (Qabs (s - angle2)) orb2) eqn:E2; [|reflexivity].
  exfalso. apply Qle_bool_iff in E1. apply Qle_bool_iff in E2.
  apply Qabs_Qle_condition in E1. apply Qabs_Qle_condition in E2.
  revert Hfar. apply Qabs_case; intros; lra.
Qed.

Lemma aspects_exclusive_witness :
  8 + 6 < Qabs (0 - 60)
  /\ Np.vand (mask_exact_aspect [10; 100] [15; 40] 0 8)
             (mask_exact_aspect [10; 100] [15; 40] 60 6)
     = Np.zeros_bool (length (calculate_aspects [10; 100] [15; 40])).
Proof.
  assert (8 + 6 < Qabs (0 - 60)) as H by reflexivity.
  split; [exact H|]. exact (aspects_exclusive [10; 100] [15; 40] 0 8 60 6 H).
Defined.

(** X5: the sign of any longitude has a ruler in the table, one of Sun
    .. Saturn, so the default of [get_ruler_for_sign] is never used for a
    computed sign. *)
Theorem ruler_of_computed_sign (L : Q) :
  table_get RULER_MAP (sign_index L) = Some (get_ruler_for_sign (sign_index L))
  /\ (0 <= get_ruler_for_sign (sign_index L) <= 6)%Z.
Proof.
  pose proof (Z.mod_pos_bound (Qfloor (L / 30)) 12) as Hs.
  unfold sign_index. set (s := (Qfloor (L / 30) mod 12)%Z) in *.
  assert (s = 0 \/ s = 1 \/ s = 2 \/ s = 3 \/ s = 4 \/ s = 5 \/ s = 6 \/ s = 7
          \/ s = 8 \/ s = 9 \/ s = 10 \/ s = 11)%Z as Hcases by lia.
  destruct Hcases as [->|[->|[->|[->|[->|[->|[->|[->|[->|[->|[->| ->]]]]]]]]]]];
    vm_compute; repeat split; congruence.
Qed.

(** X6: the ruler of the sign of a longitude is, at that longitude, in
    dignity and not in debility; at a longitude of the opposite sign it is
    in debility. *)
Theorem ruler_dignity_and_debility (L L' : Q) :
  sign_index L' = ((sign_index L + 6) mod 12)%Z ->
  mask_dignity (get_ruler_for_sign (sign_index L)) [L] = [true]
  /\ mask_debility (get_ruler_for_sign (sign_index L)) [L] = [false]
  /\ mask_debility (get_ruler_for_sign (sign_index L)) [L'] = [true].
Proof.
  intros Hopp. unfold mask_dignity, mask_debility, Np.isin, get_sign_indices.
  cbn [map]. rewrite Hopp.
  pose proof (sign_index_bounds L) as Hs.
  remember (sign_index L) as s eqn:E. clear E Hopp.
  assert (s = 0 \/ s = 1 \/ s = 2 \/ s = 3 \/ s = 4 \/ s = 5 \/ s = 6 \/ s = 7
          \/ s = 8 \/ s = 9 \/ s = 10 \/ s = 11)%Z as Hcases by lia.
  destruct Hcases as [->|[->|[->|[->|[->|[->|[->|[->|[->|[->|[->| ->]]]]]]]]]]];
    vm_compute; repeat split; reflexivity.
Qed.

Lemma ruler_dignity_and_debility_witness :
  sign_index 200 = ((sign_index 15 + 6) mod 12)%Z
  /\ mask_dignity (get_ruler_for_sign (sign_index 15)) [15] = [true]
  /\ mask_debility (get_ruler_for_sign (sign_index 15)) [200] = [true].
Proof.
  assert (sign_index 200 = ((sign_index 15 + 6) mod 12)%Z) as H by reflexivity.
  split; [exact H|].
  destruct (ruler_dignity_and_debility 15 200 H) as [H1 [_ H3]].
  split; [exact H1|exact H3].
Defined.

(** *** Void of course *)

Section VoidOfCourse.

Variable moon_longs : list Q.
Variable planet_positions : gmap Z (list Q).
Hypothesis positions_shape :
  forall pid p, planet_positions !! pid = Some p -> length p = length moon_longs.

Let n := length moon_longs.
Let dist_to_ingress :=
  Np.vsub (map (fun s => s + 30) (map (fun m => Np.floordiv m 30 * 30) moon_longs))
          moon_longs.

Lemma length_dist_to_ingress : length dist_to_ingress = n.
Proof.
  unfold dist_to_ingress, Np.vsub, Np.map2. rewrite length_zip_with, !length_map.
  unfold n. lia.
Qed.

Lemma nth_dist_to_ingress (i : nat) :
  (i < n)%nat -> nth i dist_to_ingress 0 = to_ingress (nth i moon_longs 0).
Proof.
  intros Hi. unfold dist_to_ingress, Np.vsub, Np.map2.
  rewrite (Pointwise.nth_zip_with _ _ _ i 0 0 0) by (rewrite ?length_map; exact Hi).
  rewrite (Pointwise.nth_map_in _ _ i 0 0) by (rewrite length_map; exact Hi).
  rewrite (Pointwise.nth_map_in _ _ i 0 0) by exact Hi.
  reflexivity.
Qed.

Lemma voc_target_step (target : list Q) (acc : list bool) :
  length target = n -> length acc = n ->
  length (voc_target moon_longs dist_to_ingress target acc) = n
  /\ forall i, (i < n)%nat ->
       nth i (voc_target moon_longs dist_to_ingress target acc) false
       = nth i acc false && negb (reaches (nth i moon_longs 0) (nth i target 0)).
Proof.
  intros Ht Hacc. pose proof length_dist_to_ingress as Hd.
  unfold voc_target, Np.assign_const, Np.map2. split.
  - rewrite !length_zip_with. unfold n in *. lia.
  - intros i Hi.
    rewrite (Pointwise.nth_zip_with _ _ _ i false false false)
      by (rewrite ?length_zip_with; unfold n in *; lia).
    rewrite (Pointwise.nth_zip_with _ _ _ i 0 0 false)
      by (rewrite ?length_zip_with; unfold n in *; lia).
    rewrite (Pointwise.nth_zip_with _ _ _ i 0 0 0) by (unfold n in *; lia).
    rewrite nth_dist_to_ingress by exact Hi. unfold reaches.
    destruct (Np.Qlt_bool _ _); [rewrite andb_false_r|rewrite andb_true_r]; reflexivity.
Qed.

(** X7: the Moon is void of course at an instant exactly when, for every
    body among Sun, Mercury, Venus, Mars, Jupiter and Saturn that is
    present and every major aspect, neither of the two points where the
    aspect to that body is exact is reached before the Moon leaves its
    sign; a body that is absent is skipped. *)
Theorem mask_void_of_course_pointwise (i : nat) :
  (i < length moon_longs)%nat ->
  nth i (mask_void_of_course moon_longs planet_positions) false
  = forallb
      (fun pid =>
         match planet_positions !! pid with
         | None => true
         | Some p_longs =>
             forallb
               (fun asp =>
                  negb (reaches (nth i moon_longs 0) (Np.fmod (nth i p_longs 0 + asp) 360))
                  && negb (reaches (nth i moon_longs 0)
                                   (Np.fmod (nth i p_longs 0 - asp) 360)))
               [0; 60; 90; 120; 180]
         end)
      [0; 2; 3; 4; 5; 6]%Z.
Proof.
  intros Hi. unfold mask_void_of_course. fold dist_to_ingress.
  match goal with
  | |- nth i (fold_left ?F ?l ?init) false = _ =>
      destruct (Pointwise.fold_and n F (fun pid j =>
                  match planet_positions !! pid with
                  | None => true
                  | Some p_longs =>
                      forallb
                        (fun asp =>
                           negb (reaches (nth j moon_longs 0)
                                         (Np.fmod (nth j p_longs 0 + asp) 360))
                           && negb (reaches (nth j moon_longs 0)
                                            (Np.fmod (nth j p_longs 0 - asp) 360)))
                        [0; 60; 90; 120; 180]
                  end) l init) as [_ Hval]
  end.
  - intros acc pid _ Hacc.
    destruct (planet_positions !! pid) as [p|] eqn:Hp.
    + pose proof (positions_shape pid p Hp) as Hlen.
      match goal with
      | |- length (fold_left ?F ?l acc) = n /\ _ =>
          destruct (Pointwise.fold_and n F (fun asp j =>
                      negb (reaches (nth j moon_longs 0)
                                    (Np.fmod (nth j p 0 + asp) 360))
                      && negb (reaches (nth j moon_longs 0)
                                       (Np.fmod (nth j p 0 - asp) 360))) l acc)
            as [Hl Hv]
      end.
      * intros acc1 asp _ Hacc1. cbn [fold_left].
        destruct (voc_target_step (map (fun p0 => Np.fmod (p0 + asp) 360) p) acc1)
          as [Hl1 Hv1]; [rewrite length_map; exact Hlen|exact Hacc1|].
        destruct (voc_target_step (map (fun p0 => Np.fmod (p0 - asp) 360) p)
                    (voc_target moon_longs dist_to_ingress
                       (map (fun p0 => Np.fmod (p0 + asp) 360) p) acc1))
          as [Hl2 Hv2]; [rewrite length_map; exact Hlen|exact Hl1|].
        split; [exact Hl2|]. intros j Hj. rewrite Hv2, Hv1 by exact Hj.
        rewrite !(Pointwise.nth_map_in _ p j 0 0) by (rewrite Hlen; exact Hj).
        rewrite andb_assoc. reflexivity.
      * exact Hacc.
      * split; [exact Hl|exact Hv].
    + split; [exact Hacc|]. intros j _. rewrite andb_true_r. reflexivity.
  - unfold Np.ones_bool. apply length_replicate.
  - rewrite Hval by exact Hi. unfold Np.ones_bool.
    rewrite Pointwise.nth_replicate_in by exact Hi. reflexivity.
Qed.

End VoidOfCourse.

Lemma mask_void_of_course_pointwise_witness :
  (forall pid p, Sample.transits !! pid = Some p -> length p = length [40])
  /\ (0 < length [40])%nat
  /\ nth 0 (mask_void_of_course [40] Sample.transits) false = false.
Proof.
  assert (forall pid p, Sample.transits !! pid = Some p -> length p = length [40]) as H.
  { intros pid p Hp. unfold Sample.transits in Hp.
    apply elem_of_list_to_map_2 in Hp. apply list_elem_of_In in Hp.
    cbn in Hp. intuition (match goal with H : _ = (_, _) |- _ => inversion H end);
      reflexivity. }
  assert (0 < length [40])%nat as Hi by (cbn; lia).
  split; [exact H|]. split; [exact Hi|].
  rewrite (mask_void_of_course_pointwise [40] Sample.transits H 0 Hi).
  vm_compute. reflexivity.
Defined.

End LogicExtra.

(** ** Transits to the natal chart (vectorized_natal.py) *)

Module NatalExtra.

Import VectorizedNatal.
Local Open Scope Q_scope.

(** The test applied to one transiting longitude and one natal point. *)
Lemma nth_mask_transiting_aspect (t_longs : list Q) (natal_long angle orb : Q) (i : nat) :
  (i < length t_longs)%nat ->
  nth i (mask_transiting_aspect t_longs natal_long angle orb) false
  = Qle_bool (Qabs (VectorizedLogic.separation (nth i t_longs 0) natal_long - angle)) orb.
Proof.
  intros Hi. unfold mask_transiting_aspect, calculate_aspects_transit_to_natal.
  rewrite (Pointwise.nth_map_in _ _ i 0 false) by (rewrite length_map; exact Hi).
  rewrite (Pointwise.nth_map_in _ _ i 0 0) by exact Hi. reflexivity.
Qed.

Lemma vor_step (n : nat) (acc mask : list bool) :
  length acc = n -> length mask = n ->
  length (Np.vor acc mask) = n
  /\ forall i, (i < n)%nat -> nth i (Np.vor acc mask) false = nth i acc false || nth i mask false.
Proof.
  intros Ha Hm. unfold Np.vor, Np.map2. split.
  - rewrite length_zip_with. lia.
  - intros i Hi. apply Pointwise.nth_zip_with; lia.
Qed.

(** The loop over the aspect angles, for one transiting body and one
    natal point. *)
Lemma angles_loop (n : nat) (t_longs : list Q) (natal_long : Q) (angles : list Q)
      (acc : list bool) :
  length t_longs = n -> length acc = n ->
  length (fold_left
            (fun is_bad angle =>
               Np.vor is_bad
                 (mask_transiting_aspect t_longs natal_long angle (AstroConfig.get_orb angle)))
            angles acc) = n
  /\ forall i, (i < n)%nat ->
       nth i (fold_left
                (fun is_bad angle =>
                   Np.vor is_bad
                     (mask_transiting_aspect t_longs natal_long angle
                        (AstroConfig.get_orb angle)))
                angles acc) false
       = nth i acc false
         || existsb
              (fun angle =>
                 Qle_bool (Qabs (VectorizedLogic.separation (nth i t_longs 0) natal_long
                                 - angle))
                          (AstroConfig.get_orb angle))
              angles.
Proof.
  intros Ht Hacc. apply Pointwise.fold_or; [|exact Hacc].
  intros acc1 angle _ Hacc1.
  destruct (vor_step n acc1
              (mask_transiting_aspect t_longs natal_long angle (AstroConfig.get_orb angle)))
    as [Hl Hv]; [exact Hacc1| |].
  - unfold mask_transiting_aspect, calculate_aspects_transit_to_natal.
    rewrite !length_map. exact Ht.
  - split; [exact Hl|]. intros i Hi. rewrite Hv by exact Hi.
    rewrite nth_mask_transiting_aspect by (rewrite Ht; exact Hi). reflexivity.
Qed.

Lemma first_array (transits : gmap Z (list Q)) (n : nat) :
  (forall pid p, transits !! pid = Some p -> length p = n) ->
  transits <> ∅ ->
  exists k first rest, map_to_list transits = (k, first) :: rest /\ length first = n.
Proof.
  intros Hshape Hne. destruct (map_to_list transits) as [|[k first] rest] eqn:E.
  - apply map_to_list_empty_iff in E. contradiction.
  - exists k, first, rest. split; [reflexivity|].
    apply (Hshape k). apply elem_of_map_to_list. rewrite E. left.
Qed.

(** X8: over a batch whose arrays all have N entries, the hard-aspect
    filter returns a mask of N entries that is true at an instant exactly
    when some listed malefic present in the transits is, within the orb of
    the angle, in square, opposition or conjunction to a natal Sun or Moon
    present in the chart. *)
Theorem mask_hard_aspects_pointwise
        (transits : gmap Z (list Q)) (natal_chart : gmap Z Q) (malefics : list Z) (n : nat) :
  (forall pid p, transits !! pid = Some p -> length p = n) ->
  transits <> ∅ ->
  exists mask,
    mask_hard_aspects_to_natal_lights transits natal_chart malefics = Ok mask
    /\ length mask = n
    /\ forall i, (i < n)%nat ->
         nth i mask false
         = existsb
             (fun malefic_id =>
                match transits !! malefic_id with
                | None => false
                | Some t_longs =>
                    existsb
                      (fun light_id =>
                         match natal_chart !! light_id with
                         | None => false
                         | Some n_long =>
                             existsb
                               (fun angle =>
                                  Qle_bool
                                    (Qabs (VectorizedLogic.separation (nth i t_longs 0) n_long
                                           - angle))
                                    (AstroConfig.get_orb angle))
                               [90; 180; 0]
                         end)
                      [0; 1]%Z
                end)
             malefics.
Proof.
  intros Hshape Hne.
  destruct (first_array transits n Hshape Hne) as [k [first [rest [E Hfirst]]]].
  unfold mask_hard_aspects_to_natal_lights. rewrite E. eexists. split; [reflexivity|].
  rewrite Hfirst.
  match goal with
  | |- length (fold_left ?F ?l ?init) = n /\ _ =>
      destruct (Pointwise.fold_or n F
                  (fun malefic_id i =>
                     match transits !! malefic_id with
                     | None => false
                     | Some t_longs =>
                         existsb
                           (fun light_id =>
                              match natal_chart !! light_id with
                              | None => false
                              | Some n_long =>
                                  existsb
                                    (fun angle =>
                                       Qle_bool
                                         (Qabs (VectorizedLogic.separation
                                                  (nth i t_longs 0) n_long - angle))
                                         (AstroConfig.get_orb angle))
                                    [90; 180; 0]
                              end)
                           [0; 1]%Z
                     end) l init) as [Hl Hv]
  end.
  - intros acc malefic_id _ Hacc.
    destruct (transits !! malefic_id) as [t_longs|] eqn:Ht.
    + pose proof (Hshape _ _ Ht) as Hlen.
      apply Pointwise.fold_or; [|exact Hacc].
      intros acc1 light_id _ Hacc1.
      destruct (natal_chart !! light_id) as [n_long|].
      * apply angles_loop; assumption.
      * split; [exact Hacc1|]. intros i _. rewrite orb_false_r. reflexivity.
    + split; [exact Hacc|]. intros i _. rewrite orb_false_r. reflexivity.
  - apply length_replicate.
  - split; [exact Hl|]. intros i Hi. rewrite Hv by exact Hi.
    unfold Np.zeros_bool. rewrite Pointwise.nth_replicate_in by exact Hi. reflexivity.
Qed.

Lemma sample_transits_shape :
  forall pid p, Sample.transits !! pid = Some p -> length p = 1%nat.
Proof.
  intros pid p Hp. unfold Sample.transits in Hp.
  apply elem_of_list_to_map_2 in Hp. apply list_elem_of_In in Hp.
  cbn in Hp. intuition (match goal with H : _ = (_, _) |- _ => inversion H end);
    reflexivity.
Qed.

Lemma sample_transits_nonempty : Sample.transits <> ∅.
Proof.
  intros H. assert (Sample.transits !! 0%Z = None) as H0 by (rewrite H; reflexivity).
  vm_compute in H0. discriminate.
Qed.

Lemma mask_hard_aspects_pointwise_witness :
  (forall pid p, Sample.transits !! pid = Some p -> length p = 1%nat)
  /\ Sample.transits <> ∅
  /\ exists mask,
      mask_hard_aspects_to_natal_lights Sample.transits Sample.natal_sun_on_mars
        default_malefics = Ok mask
      /\ length mask = 1%nat.
Proof.
  split; [exact sample_transits_shape|]. split; [exact sample_transits_nonempty|].
  destruct (mask_hard_aspects_pointwise Sample.transits Sample.natal_sun_on_mars
              default_malefics 1 sample_transits_shape sample_transits_nonempty)
    as [mask [Hm [Hl _]]].
  exists mask. split; [exact Hm|exact Hl].
Defined.

(** X9: the booster filter, likewise: true at an instant exactly when some
    listed benefic present in the transits is in conjunction, sextile or
    trine, within the orb of the angle, to the natal Ascendant or
    Midheaven. *)
Theorem mask_benefic_aspects_pointwise
        (transits : gmap Z (list Q)) (natal_asc natal_mc : Q) (benefics : list Z) (n : nat) :
  (forall pid p, transits !! pid = Some p -> length p = n) ->
  transits <> ∅ ->
  exists mask,
    mask_benefic_aspects_to_angles transits natal_asc natal_mc benefics = Ok mask
    /\ length mask = n
    /\ forall i, (i < n)%nat ->
         nth i mask false
         = existsb
             (fun benefic_id =>
                match transits !! benefic_id with
                | None => false
                | Some t_longs =>
                    existsb
                      (fun target_long =>
                         existsb
                           (fun angle =>
                              Qle_bool
                                (Qabs (VectorizedLogic.separation (nth i t_longs 0)
                                         target_long - angle))
                                (AstroConfig.get_orb angle))
                           [0; 60; 120])
                      [natal_asc; natal_mc]
                end)
             benefics.
Proof.
  intros Hshape Hne.
  destruct (first_array transits n Hshape Hne) as [k [first [rest [E Hfirst]]]].
  unfold mask_benefic_aspects_to_angles. rewrite E. eexists. split; [reflexivity|].
  rewrite Hfirst.
  match goal with
  | |- length (fold_left ?F ?l ?init) = n /\ _ =>
      destruct (Pointwise.fold_or n F
                  (fun benefic_id i =>
                     match transits !! benefic_id with
                     | None => false
                     | Some t_longs =>
                         existsb
                           (fun target_long =>
                              existsb
                                (fun angle =>
                                   Qle_bool
                                     (Qabs (VectorizedLogic.separation
                                              (nth i t_longs 0) target_long - angle))
                                     (AstroConfig.get_orb angle))
                                [0; 60; 120])
                           [natal_asc; natal_mc]
                     end) l init) as [Hl Hv]
  end.
  - intros acc benefic_id _ Hacc.
    destruct (transits !! benefic_id) as [t_longs|] eqn:Ht.
    + pose proof (Hshape _ _ Ht) as Hlen.
      apply Pointwise.fold_or; [|exact Hacc].
      intros acc1 target_long _ Hacc1. apply angles_loop; assumption.
    + split; [exact Hacc|]. intros i _. rewrite orb_false_r. reflexivity.
  - apply length_replicate.
  - split; [exact Hl|]. intros i Hi. rewrite Hv by exact Hi.
    unfold Np.zeros_bool. rewrite Pointwise.nth_replicate_in by exact Hi. reflexivity.
Qed.

Lemma mask_benefic_aspects_pointwise_witness :
  (forall pid p, Sample.transits !! pid = Some p -> length p = 1%nat)
  /\ Sample.transits <> ∅
  /\ exists mask,
      mask_benefic_aspects_to_angles Sample.transits 50 170 default_benefics = Ok mask
      /\ length mask = 1%nat.
Proof.
  split; [exact sample_transits_shape|]. split; [exact sample_transits_nonempty|].
  destruct (mask_benefic_aspects_pointwise Sample.transits 50 170
              default_benefics 1 sample_transits_shape sample_transits_nonempty)
    as [mask [Hm [Hl _]]].
  exists mask. split; [exact Hm|exact Hl].
Defined.

(** The transit-to-natal aspect test is the aspect test of the logic
    engine against the natal point repeated over the batch. *)
Lemma mask_transiting_aspect_is_exact_aspect
        (transit_longs : list Q) (natal_long aspect_angle orb : Q) :
  mask_transiting_aspect transit_longs natal_long aspect_angle orb
  = VectorizedLogic.mask_exact_aspect transit_longs
      (replicate (length transit_longs) natal_long) aspect_angle orb.
Proof.
  unfold mask_transiting_aspect, VectorizedLogic.mask_exact_aspect,
    calculate_aspects_transit_to_natal, VectorizedLogic.calculate_aspects, Np.map2.
  f_equal. induction transit_longs as [|t l IH]; [reflexivity|].
  cbn [map length replicate zip_with]. f_equal. exact IH.
Qed.

End NatalExtra.

(** ** The ephemeris adapter, further (vectorized_ephemeris.py) *)

Module EphemerisExtra.

Import VectorizedEphemeris.

Lemma col_row_of (data : list Position) :
  Np.col (map row_of data) IDX_LONG = map lon data
  /\ Np.col (map row_of data) IDX_SPEED_LONG = map speed_lon data.
Proof.
  unfold Np.col. rewrite !map_map. split; apply map_ext; intros p; reflexivity.
Qed.

(** X11: for a requested body whose provider calls all succeed, the
    longitude and speed views hold, instant by instant and in order, the
    longitude and the longitudinal speed the provider returned; a body that
    was not requested has no entry in either view. *)
Theorem longitude_and_speed_views
        (ymd : datetime -> Z * Z * Z) (julday : Z -> Z -> Z -> Q -> Q)
        (calc_ut : Q -> Z -> option Position)
        (times : list datetime) (bodies : list Z) :
  times <> [] ->
  exists results,
    calculate_positions ymd julday calc_ut times (Some bodies) = Ok results
    /\ (forall body data,
          body ∈ bodies ->
          Forall2 (fun t p => calc_ut (_to_jd ymd julday t) body = Some p) times data ->
          get_longitudes results !! body = Some (map lon data)
          /\ get_speeds results !! body = Some (map speed_lon data))
    /\ (forall body,
          body ∉ bodies ->
          get_longitudes results !! body = None /\ get_speeds results !! body = None).
Proof.
  intros Hne. unfold calculate_positions, calculate_positions_logged, _convert_times_to_jd.
  destruct times as [|t0 times']; [congruence|]. cbn [bind default].
  set (times := t0 :: times').
  eexists. split; [reflexivity|]. split.
  - intros body data Hbody Hdata.
    unfold get_longitudes, get_speeds. rewrite !lookup_fmap.
    rewrite EphemerisFacts.fold_bodies_lookup, decide_True by exact Hbody.
    unfold entry.
    assert (body_data calc_ut (map (_to_jd ymd julday) times) body = Some data) as ->.
    { apply mapM_Some. clear -Hdata.
      induction Hdata; cbn [map]; constructor; assumption. }
    cbn [fmap option_fmap option_map]. destruct (col_row_of data) as [-> ->].
    split; reflexivity.
  - intros body Hbody. unfold get_longitudes, get_speeds. rewrite !lookup_fmap.
    rewrite EphemerisFacts.fold_bodies_lookup, decide_False by exact Hbody.
    cbn [fst]. rewrite lookup_empty. split; reflexivity.
Qed.

Lemma longitude_and_speed_views_witness :
  [0%Z] <> []
  /\ exists results,
      calculate_positions Sample.ymd Sample.julday Sample.calc_ut [0%Z] (Some [0; 1])
      = Ok results
      /\ get_longitudes results !! (7 : Z) = None.
Proof.
  assert ([0%Z] <> []) as H by discriminate. split; [exact H|].
  destruct (longitude_and_speed_views Sample.ymd Sample.julday Sample.calc_ut
              [0%Z] [0; 1] H) as [results [Hres [_ Hnone]]].
  exists results. split; [exact Hres|]. apply Hnone.
  intros Hin. apply elem_of_cons in Hin. destruct Hin as [Hin|Hin]; [discriminate|].
  apply elem_of_cons in Hin. destruct Hin as [Hin|Hin]; [discriminate|inversion Hin].
Defined.

(** X12: the mapping returned depends only on which bodies are requested,
    not on their order nor on repetitions in the request. *)
Theorem calculate_positions_order_irrelevant
        (ymd : datetime -> Z * Z * Z) (julday : Z -> Z -> Z -> Q -> Q)
        (calc_ut : Q -> Z -> option Position)
        (times : list datetime) (bodies bodies' : list Z) :
  (forall b, b ∈ bodies <-> b ∈ bodies') ->
  calculate_positions ymd julday calc_ut times (Some bodies)
  = calculate_positions ymd julday calc_ut times (Some bodies').
Proof.
  intros Hsame. unfold calculate_positions, calculate_positions_logged.
  destruct (_convert_times_to_jd ymd julday times) as [jds|e]; [|reflexivity].
  cbn [bind]. change (default BODIES_values (Some bodies)) with bodies.
  change (default BODIES_values (Some bodies')) with bodies'.
  f_equal. apply map_eq. intros b.
  rewrite !EphemerisFacts.fold_bodies_lookup.
  destruct (decide (b ∈ bodies)) as [Hin|Hnin].
  - rewrite decide_True by (apply (proj1 (Hsame b)); exact Hin). reflexivity.
  - rewrite decide_False by (intros H; apply Hnin, (proj2 (Hsame b)); exact H).
    reflexivity.
Qed.

Lemma calculate_positions_order_irrelevant_witness :
  (forall b : Z, b ∈ [0; 1; 0]%Z <-> b ∈ [1; 0]%Z)
  /\ calculate_positions Sample.ymd Sample.julday Sample.calc_ut [0%Z] (Some [0; 1; 0])
     = calculate_positions Sample.ymd Sample.julday Sample.calc_ut [0%Z] (Some [1; 0]).
Proof.
  assert (forall b : Z, b ∈ [0; 1; 0]%Z <-> b ∈ [1; 0]%Z) as H.
  { intros b. rewrite !elem_of_cons, !elem_of_nil. tauto. }
  split; [exact H|].
  exact (calculate_positions_order_irrelevant Sample.ymd Sample.julday Sample.calc_ut
           [0%Z] [0; 1; 0] [1; 0] H).
Defined.

End EphemerisExtra.

(** ** Topics (theme_config.py, temas_casas.py) *)

Module TopicExtra.

Import ThemeConfig.

Lemma THEMES_entries (k : string) (cfg : ThemeConfig) :
  THEMES !! k = Some cfg ->
  (k, cfg) ∈ [ ("trabajo"%string, trabajo);
               ("lanzamiento"%string, mkTheme 10 (Some 4) (Some 1) "Lanzamiento de Proyecto");
               ("amor"%string, mkTheme 7 (Some 3) (Some 5) "Amor y Pareja");
               ("dinero"%string, mkTheme 2 (Some 5) (Some 8) "Dinero e Inversiones");
               ("viaje"%string, mkTheme 9 (Some 5) (Some 3) "Viajes y Extranjero");
               ("inmobiliaria"%string, mkTheme 4 (Some 1) None "Bienes Raíces y Hogar") ].
Proof. intros H. apply elem_of_list_to_map_2 in H. exact H. Qed.

Lemma lower_ascii_idempotent (c : ascii) : lower_ascii (lower_ascii c) = lower_ascii c.
Proof.
  destruct c as [[] [] [] [] [] [] [] []]; reflexivity.
Qed.

Lemma lower_idempotent (s : string) : lower (lower s) = lower s.
Proof.
  induction s as [|c s IH]; [reflexivity|].
  cbn [lower]. rewrite lower_ascii_idempotent, IH. reflexivity.
Qed.

(** X13: whatever the topic string, the configuration used has a target
    house between 1 and 12, so the cusp column [target_house - 1] exists;
    and the lookup ignores the case of ASCII letters. *)
Theorem get_theme_config_target_house (topic : string) :
  (1 <= target_house (get_theme_config topic) <= 12)%Z
  /\ get_theme_config (lower topic) = get_theme_config topic.
Proof.
  split.
  - unfold get_theme_config. destruct (THEMES !! lower topic) as [cfg|] eqn:E.
    + apply THEMES_entries in E. cbn [default].
      repeat (apply elem_of_cons in E; destruct E as [E|E];
              [injection E as _ ->; cbn; lia|]).
      inversion E.
    + cbn. lia.
  - unfold get_theme_config. rewrite lower_idempotent. reflexivity.
Qed.

Lemma TEMAS_CASAS_items_spec :
  TemasCasas.TEMAS_CASAS = list_to_map TemasCasas.TEMAS_CASAS_items.
Proof. reflexivity. Qed.

(** X14: the legacy lookup succeeds exactly on the topics that
    [get_temas_disponibles] lists, with a house between 1 and 12, and raises
    ValueError on every other string. *)
Theorem get_casa_for_tema_domain (tema : string) :
  (tema ∈ TemasCasas.get_temas_disponibles ->
   exists casa, TemasCasas.get_casa_for_tema tema = Ok casa /\ (1 <= casa <= 12)%Z)
  /\ (tema ∉ TemasCasas.get_temas_disponibles ->
      TemasCasas.get_casa_for_tema tema = Raise ValueError).
Proof.
  unfold TemasCasas.get_casa_for_tema, TemasCasas.get_temas_disponibles.
  rewrite TEMAS_CASAS_items_spec. split.
  - intros Hin. change (map fst ?l) with (fst <$> l) in Hin.
    destruct (list_to_map TemasCasas.TEMAS_CASAS_items !! tema) as [casa|] eqn:E.
    + exists casa. split; [reflexivity|].
      apply elem_of_list_to_map_2 in E. unfold TemasCasas.TEMAS_CASAS_items in E.
      repeat (apply elem_of_cons in E; destruct E as [E|E];
              [injection E as _ ->; lia|]).
      inversion E.
    + apply not_elem_of_list_to_map in E. contradiction.
  - intros Hnin. change (map fst ?l) with (fst <$> l) in Hnin.
    apply not_elem_of_list_to_map_1 in Hnin.
    change (@list_to_map string Z (gmap string Z) _ _ TemasCasas.TEMAS_CASAS_items !! tema
            = None) in Hnin.
    rewrite Hnin. reflexivity.
Qed.

(** X15: the two topic tables give the same house for every topic they
    share, while a topic known only to the legacy table is served by the
    vectorized search with the default house 10. *)
Theorem topic_tables_agree (tema : string) (casa : Z) :
  TemasCasas.get_casa_for_tema tema = Ok casa ->
  (forall cfg, THEMES !! tema = Some cfg ->
               target_house (get_theme_config tema) = casa)
  /\ (THEMES !! tema = None -> target_house (get_theme_config tema) = 10%Z).
Proof.
  intros Hcasa. unfold TemasCasas.get_casa_for_tema in Hcasa.
  destruct (TemasCasas.TEMAS_CASAS !! tema) as [c|] eqn:E; [|discriminate].
  injection Hcasa as ->. rewrite TEMAS_CASAS_items_spec in E.
  apply elem_of_list_to_map_2 in E. unfold TemasCasas.TEMAS_CASAS_items in E.
  repeat (apply elem_of_cons in E; destruct E as [E|E];
          [injection E as -> ->; split;
           [intros cfg Hcfg; vm_compute in Hcfg; try discriminate; vm_compute; reflexivity
           |intros Hnone; vm_compute in Hnone; try discriminate; vm_compute; reflexivity]|]).
  inversion E.
Qed.

Lemma topic_tables_agree_witness :
  TemasCasas.get_casa_for_tema "amor" = Ok 7%Z
  /\ target_house (get_theme_config "amor") = 7%Z.
Proof.
  assert (TemasCasas.get_casa_for_tema "amor" = Ok 7%Z) as H by reflexivity.
  split; [exact H|].
  exact (proj1 (topic_tables_agree "amor" 7 H) (mkTheme 7 (Some 3) (Some 5) "Amor y Pareja")
               eq_refl).
Defined.

End TopicExtra.

(** ** The filters of the search, instant by instant (election_engine.py) *)

Module EngineExtra.

Import ElectionEngine VectorizedLogic.
Local Open Scope Z_scope.

(** *** Masked reads and writes *)

Lemma select_map {A B : Type} (f : A -> B) (mask : list bool) (l : list A) :
  Np.select mask (map f l) = map f (Np.select mask l).
Proof.
  revert l. induction mask as [|b mask IH]; intros [|x l]; try reflexivity.
  cbn [map Np.select]. destruct b; cbn [map]; rewrite IH; reflexivity.
Qed.

Lemma select_zip_with {A B C : Type} (f : A -> B -> C) (mask : list bool)
      (xs : list A) (ys : list B) :
  length xs = length ys ->
  Np.select mask (zip_with f xs ys) = zip_with f (Np.select mask xs) (Np.select mask ys).
Proof.
  revert xs ys. induction mask as [|b mask IH]; intros [|x xs] [|y ys] Hlen;
    try reflexivity; try discriminate.
  cbn [zip_with Np.select]. destruct b; cbn [zip_with]; rewrite IH by (cbn in Hlen; lia);
    reflexivity.
Qed.

(** [target[mask] = src[mask]] writes, at the selected positions, the entry
    of [src] at the same position. *)
Lemma nth_assign_select {A : Type} (mask : list bool) (target src : list A)
      (i : nat) (d : A) :
  length mask = length target -> length src = length target ->
  nth i (Np.assign mask target (Np.select mask src)) d
  = if nth i mask false then nth i src d else nth i target d.
Proof.
  revert target src i. induction mask as [|b mask IH]; intros [|t target] [|x src] i Hm Hs;
    try discriminate; try (destruct i; reflexivity).
  cbn [Np.select]. destruct b; cbn [Np.assign]; destruct i as [|i]; cbn [nth];
    try reflexivity; apply IH; cbn in *; lia.
Qed.

Lemma nth_assign_const {A : Type} (mask : list bool) (target : list A) (c : A)
      (i : nat) (d : A) :
  length mask = length target -> (i < length target)%nat ->
  nth i (Np.assign_const mask target c) d = if nth i mask false then c else nth i target d.
Proof.
  intros Hm Hi. unfold Np.assign_const, Np.map2.
  rewrite (Pointwise.nth_zip_with _ _ _ i false d d) by lia. reflexivity.
Qed.

Lemma any_false (mask : list bool) (i : nat) :
  Np.any mask = false -> nth i mask false = false.
Proof.
  unfold Np.any. revert i. induction mask as [|b mask IH]; intros [|i] H; cbn in *;
    try reflexivity.
  - apply orb_false_elim in H. apply H.
  - apply orb_false_elim in H. apply IH, H.
Qed.

(** A loop over distinct keys in which the turn for key [x] overwrites the
    positions whose own key is [x]: in the end every position holds the
    value written by the turn of its key. *)
Lemma fold_gather {A : Type} (n : nat) (key : nat -> Z) (F : list A -> Z -> list A)
      (v : Z -> nat -> A) (d : A) (l : list Z) (init : list A) :
  (forall acc x, In x l -> length acc = n ->
                 length (F acc x) = n
                 /\ forall i, (i < n)%nat ->
                      nth i (F acc x) d = if key i =? x then v x i else nth i acc d) ->
  List.NoDup l -> length init = n ->
  length (fold_left F l init) = n
  /\ forall i, (i < n)%nat ->
       nth i (fold_left F l init) d
       = if existsb (Z.eqb (key i)) l then v (key i) i else nth i init d.
Proof.
  revert init. induction l as [|x l IH]; intros init Hstep Hnd Hinit;
    cbn [fold_left existsb].
  - split; [exact Hinit|reflexivity].
  - apply List.NoDup_cons_iff in Hnd. destruct Hnd as [Hx Hnd'].
    destruct (Hstep init x (or_introl eq_refl) Hinit) as [Hlen Hval].
    destruct (IH (F init x)) as [Hlen' Hval'];
      [intros acc y Hy; apply Hstep; right; exact Hy|exact Hnd'|exact Hlen|].
    split; [exact Hlen'|]. intros i Hi. rewrite Hval', Hval by exact Hi.
    destruct (Z.eqb_spec (key i) x) as [->|Hne]; cbn [orb].
    + destruct (existsb (Z.eqb x) l); reflexivity.
    + reflexivity.
Qed.

Lemma range_12 : range 12 = [0; 1; 2; 3; 4; 5; 6; 7; 8; 9; 10; 11].
Proof. reflexivity. Qed.

Lemma range_12_NoDup : List.NoDup (range 12).
Proof.
  rewrite range_12. repeat constructor; cbn; intuition discriminate.
Qed.

Lemma sign_in_range_12 (L : Q) : existsb (Z.eqb (sign_index L)) (range 12) = true.
Proof.
  pose proof (LogicExtra.sign_index_bounds L) as Hs.
  rewrite range_12. cbn [existsb].
  repeat match goal with
         | |- context [Z.eqb ?a ?b] => destruct (Z.eqb_spec a b); [reflexivity|]
         end.
  lia.
Qed.

Lemma ruler_in_0_6 (L : Q) : 0 <= get_ruler_for_sign (sign_index L) <= 6.
Proof. apply LogicExtra.ruler_bounds. Qed.

Lemma ruler_of_sign_in_0_6 (x : Z) : In x (range 12) -> 0 <= get_ruler_for_sign x <= 6.
Proof.
  rewrite range_12. cbn [In].
  intros [<-|[<-|[<-|[<-|[<-|[<-|[<-|[<-|[<-|[<-|[<-|[<-|[]]]]]]]]]]]]]; vm_compute;
    split; congruence.
Qed.

Lemma fold_left_ext {A X : Type} (f g : A -> X -> A) (l : list X) (a : A) :
  (forall a x, f a x = g a x) -> fold_left f l a = fold_left g l a.
Proof.
  intros H. revert a. induction l as [|x l IH]; intros a; cbn; [reflexivity|].
  rewrite H. apply IH.
Qed.

Lemma fold_left_triple {A B C X : Type} (F1 : A -> X -> A) (F2 : B -> X -> B)
      (F3 : C -> X -> C) (l : list X) (a : A) (b : B) (c : C) :
  fold_left (fun '(a, b, c) x => (F1 a x, F2 b x, F3 c x)) l (a, b, c)
  = (fold_left F1 l a, fold_left F2 l b, fold_left F3 l c).
Proof.
  revert a b c. induction l as [|x l IH]; intros a b c; cbn; [reflexivity|]. apply IH.
Qed.

(** The mask [signs == sign_idx] read at one position. *)
Lemma nth_sign_mask (arr : list Q) (x : Z) (i : nat) :
  (i < length arr)%nat ->
  nth i (map (fun s => Z.eqb s x) (get_sign_indices arr)) false
  = (sign_index (nth i arr 0%Q) =? x).
Proof.
  intros Hi. unfold get_sign_indices. rewrite map_map.
  apply (Pointwise.nth_map_in (fun a => sign_index a =? x) arr i 0%Q false Hi).
Qed.

Lemma length_sign_mask (arr : list Q) (x : Z) :
  length (map (fun s => Z.eqb s x) (get_sign_indices arr)) = length arr.
Proof. unfold get_sign_indices. rewrite !length_map. reflexivity. Qed.

(** One turn of a gathering loop that copies, at the positions whose sign is
    [x], the entry of [src]. *)
Lemma gather_step {A : Type} (d : A) (arr : list Q) (src : list A) (x : Z)
      (acc : list A) :
  length src = length arr -> length acc = length arr ->
  let mask := map (fun s => Z.eqb s x) (get_sign_indices arr) in
  let acc' := if negb (Np.any mask) then acc
              else Np.assign mask acc (Np.select mask src) in
  length acc' = length arr
  /\ forall i, (i < length arr)%nat ->
       nth i acc' d = if sign_index (nth i arr 0%Q) =? x then nth i src d
                      else nth i acc d.
Proof.
  intros Hsrc Hacc mask acc'. subst acc'.
  destruct (Np.any mask) eqn:Hany; cbn [negb].
  - split; [rewrite EngineFacts.length_assign; exact Hacc|]. intros i Hi.
    rewrite nth_assign_select
      by (subst mask; rewrite ?length_sign_mask; congruence).
    subst mask. rewrite nth_sign_mask by exact Hi. reflexivity.
  - split; [exact Hacc|]. intros i Hi.
    pose proof (any_false mask i Hany) as Hm. subst mask.
    rewrite nth_sign_mask in Hm by exact Hi. rewrite Hm. reflexivity.
Qed.

Lemma gather_ids_step (arr : list Q) (x : Z) (acc : list Z) :
  length acc = length arr ->
  let mask := map (fun s => Z.eqb s x) (get_sign_indices arr) in
  let acc' := if negb (Np.any mask) then acc
              else Np.assign_const mask acc (get_ruler_for_sign x) in
  length acc' = length arr
  /\ forall i, (i < length arr)%nat ->
       nth i acc' 0 = if sign_index (nth i arr 0%Q) =? x then get_ruler_for_sign x
                      else nth i acc 0.
Proof.
  intros Hacc mask acc'. subst acc'.
  destruct (Np.any mask) eqn:Hany; cbn [negb].
  - split.
    + unfold Np.assign_const, Np.map2. rewrite length_zip_with.
      subst mask. rewrite length_sign_mask. lia.
    + intros i Hi.
      rewrite nth_assign_const
        by (subst mask; rewrite ?length_sign_mask; congruence || lia).
      subst mask. rewrite nth_sign_mask by exact Hi. reflexivity.
  - split; [exact Hacc|]. intros i Hi.
    pose proof (any_false mask i Hany) as Hm. subst mask.
    rewrite nth_sign_mask in Hm by exact Hi. rewrite Hm. reflexivity.
Qed.

(** X16: the loop over the twelve signs gathers, for every instant, the
    ruler of the sign of the point at that instant (Ascendant or cusp of the
    target house) together with that ruler's own longitude and speed at the
    same instant; the three arrays have one entry per instant. *)
Theorem gather_rulers_pointwise (arr : list Q) (longitudes speeds : gmap Z (list Q)) :
  (forall pid, 0 <= pid <= 6 ->
               length (longitudes !!! pid) = length arr
               /\ length (speeds !!! pid) = length arr) ->
  exists ids longs spds,
    gather_rulers (get_sign_indices arr) longitudes speeds (length arr)
    = (ids, longs, spds)
    /\ length ids = length arr /\ length longs = length arr
    /\ length spds = length arr
    /\ forall i, (i < length arr)%nat ->
         let r := get_ruler_for_sign (sign_index (nth i arr 0%Q)) in
         nth i ids 0 = r
         /\ nth i longs 0%Q = nth i (longitudes !!! r) 0%Q
         /\ nth i spds 0%Q = nth i (speeds !!! r) 0%Q.
Proof.
  intros Hshape. unfold gather_rulers.
  set (mask := fun x => map (fun s => Z.eqb s x) (get_sign_indices arr)).
  set (F1 := fun (ids : list Z) x =>
               if negb (Np.any (mask x)) then ids
               else Np.assign_const (mask x) ids (get_ruler_for_sign x)).
  set (G := fun (src : gmap Z (list Q)) (acc : list Q) x =>
              if negb (Np.any (mask x)) then acc
              else Np.assign (mask x) acc
                     (Np.select (mask x) (src !!! get_ruler_for_sign x))).
  rewrite (fold_left_ext _ (fun '(a, b, c) x => (F1 a x, G longitudes b x, G speeds c x)))
    by (intros [[a b] c] x; subst F1 G mask; cbn beta;
        destruct (negb (Np.any _)); reflexivity).
  rewrite fold_left_triple.
  destruct (fold_gather (length arr) (fun i => sign_index (nth i arr 0%Q)) F1
              (fun x _ => get_ruler_for_sign x) 0 (range 12) (replicate (length arr) 0))
    as [Hl1 Hv1];
    [intros acc x _ Hacc; apply (gather_ids_step arr x acc Hacc)
    |exact range_12_NoDup|apply length_replicate|].
  assert (forall src : gmap Z (list Q),
             (forall pid, 0 <= pid <= 6 -> length (src !!! pid) = length arr) ->
             length (fold_left (G src) (range 12) (Np.zeros (length arr))) = length arr
             /\ forall i, (i < length arr)%nat ->
                  nth i (fold_left (G src) (range 12) (Np.zeros (length arr))) 0%Q
                  = nth i (src !!! get_ruler_for_sign (sign_index (nth i arr 0%Q))) 0%Q)
    as HG.
  { intros src Hsrc.
    destruct (fold_gather (length arr) (fun i => sign_index (nth i arr 0%Q)) (G src)
                (fun x i => nth i (src !!! get_ruler_for_sign x) 0%Q) 0%Q (range 12)
                (Np.zeros (length arr)))
      as [Hl Hv];
      [intros acc x Hx Hacc;
       apply (gather_step 0%Q arr (src !!! get_ruler_for_sign x) x acc
                (Hsrc _ (ruler_of_sign_in_0_6 x Hx)) Hacc)
      |exact range_12_NoDup|apply length_replicate|].
    split; [exact Hl|]. intros i Hi. rewrite (Hv i Hi), sign_in_range_12. reflexivity. }
  destruct (HG longitudes (fun pid H => proj1 (Hshape pid H))) as [Hl2 Hv2].
  destruct (HG speeds (fun pid H => proj2 (Hshape pid H))) as [Hl3 Hv3].
  eexists _, _, _. split; [reflexivity|].
  split; [exact Hl1|]. split; [exact Hl2|]. split; [exact Hl3|].
  intros i Hi. cbv zeta.
  rewrite (Hv1 i Hi), sign_in_range_12, (Hv2 i Hi), (Hv3 i Hi). auto.
Qed.

Lemma sample_body_shape (pid : Z) :
  0 <= pid <= 6 ->
  length (Sample.transits !!! pid) = 1%nat /\ length (Sample.transits !!! pid) = 1%nat.
Proof.
  intros H.
  assert (pid = 0 \/ pid = 1 \/ pid = 2 \/ pid = 3 \/ pid = 4 \/ pid = 5 \/ pid = 6)
    as [->|[->|[->|[->|[->|[->| ->]]]]]] by lia; split; reflexivity.
Qed.

Lemma gather_rulers_pointwise_witness :
  exists ids longs spds,
    gather_rulers (get_sign_indices [15%Q]) Sample.transits Sample.transits 1
    = (ids, longs, spds)
    /\ nth 0 ids 0 = 4 /\ nth 0 longs 0%Q = 130%Q.
Proof.
  destruct (gather_rulers_pointwise [15%Q] Sample.transits Sample.transits
              sample_body_shape)
    as (ids & longs & spds & E & _ & _ & _ & Hv).
  exists ids, longs, spds. split; [exact E|].
  destruct (Hv 0%nat (Nat.lt_0_succ 0)) as (H1 & H2 & _).
  split; [exact H1|exact H2].
Defined.

(** X17: the ruler filter flags an instant exactly when the ruler of the
    sign on the cusp of the target house is, at that instant, in a sign of
    its detriment or fall, or has a negative speed. *)
Theorem bad_ruler_mask_pointwise (cusp_longs : list Q)
        (longitudes speeds : gmap Z (list Q)) :
  (forall pid, 0 <= pid <= 6 ->
               length (longitudes !!! pid) = length cusp_longs
               /\ length (speeds !!! pid) = length cusp_longs) ->
  forall i, (i < length cusp_longs)%nat ->
    let r := get_ruler_for_sign (sign_index (nth i cusp_longs 0%Q)) in
    nth i (bad_ruler_mask (get_sign_indices cusp_longs) longitudes speeds
             (length cusp_longs)) false
    = nth i (mask_debility r (longitudes !!! r)) false
      || Np.Qlt_bool (nth i (speeds !!! r) 0%Q) 0.
Proof.
  intros Hshape i Hi. cbv zeta. unfold bad_ruler_mask.
  set (bad := fun x : Z =>
                Np.vor (mask_debility (get_ruler_for_sign x)
                                      (longitudes !!! get_ruler_for_sign x))
                       (map (fun s => Np.Qlt_bool s 0)
                            (speeds !!! get_ruler_for_sign x))).
  assert (forall x, In x (range 12) -> length (bad x) = length cusp_longs) as Hbad.
  { intros x Hx. destruct (Hshape _ (ruler_of_sign_in_0_6 x Hx)) as [HL HS].
    subst bad. cbn beta. unfold Np.vor. apply EngineFacts.length_map2.
    - unfold mask_debility, Np.isin, get_sign_indices. rewrite !length_map. exact HL.
    - rewrite length_map. exact HS. }
  destruct (fold_gather (length cusp_longs)
              (fun i => sign_index (nth i cusp_longs 0%Q))
              (fun is_bad_ruler sign_idx =>
                 let mask_times :=
                   map (fun s => Z.eqb s sign_idx) (get_sign_indices cusp_longs) in
                 if negb (Np.any mask_times) then is_bad_ruler
                 else
                   let ruler_id := get_ruler_for_sign sign_idx in
                   let ruler_longs := Np.select mask_times (longitudes !!! ruler_id) in
                   let ruler_speeds_local := Np.select mask_times (speeds !!! ruler_id) in
                   let debility_local := mask_debility ruler_id ruler_longs in
                   let retro_local := map (fun s => Np.Qlt_bool s 0) ruler_speeds_local in
                   Np.assign mask_times is_bad_ruler (Np.vor debility_local retro_local))
              (fun x i => nth i (bad x) false) false (range 12)
              (Np.zeros_bool (length cusp_longs)))
    as [_ Hv].
  - intros acc x Hx Hacc. cbv zeta.
    destruct (Hshape _ (ruler_of_sign_in_0_6 x Hx)) as [HL HS].
    assert (Np.vor
              (mask_debility (get_ruler_for_sign x)
                 (Np.select (map (fun s => Z.eqb s x) (get_sign_indices cusp_longs))
                            (longitudes !!! get_ruler_for_sign x)))
              (map (fun s => Np.Qlt_bool s 0)
                 (Np.select (map (fun s => Z.eqb s x) (get_sign_indices cusp_longs))
                            (speeds !!! get_ruler_for_sign x)))
            = Np.select (map (fun s => Z.eqb s x) (get_sign_indices cusp_longs)) (bad x))
      as ->.
    { subst bad. cbn beta.
      unfold Np.vor, Np.map2, mask_debility, Np.isin, get_sign_indices.
      rewrite select_zip_with by (rewrite !length_map; congruence).
      rewrite !select_map. reflexivity. }
    apply (gather_step false cusp_longs (bad x) x acc (Hbad x Hx) Hacc).
  - exact range_12_NoDup.
  - apply EngineFacts.length_zeros_bool.
  - etransitivity; [exact (Hv i Hi)|]. cbn beta.
    rewrite sign_in_range_12. subst bad. cbn beta.
    destruct (Hshape _ (ruler_in_0_6 (nth i cusp_longs 0%Q))) as [HL HS].
    unfold Np.vor, Np.map2.
    rewrite (Pointwise.nth_zip_with _ _ _ i false false false).
    + f_equal. apply (Pointwise.nth_map_in (fun s => Np.Qlt_bool s 0) _ i 0%Q false). lia.
    + unfold mask_debility, Np.isin, get_sign_indices. rewrite !length_map. lia.
    + rewrite length_map. lia.
Qed.

Lemma bad_ruler_mask_pointwise_witness :
  nth 0 (bad_ruler_mask (get_sign_indices [125%Q]) Sample.transits Sample.transits 1)
      false
  = true.
Proof.
  etransitivity;
    [exact (bad_ruler_mask_pointwise [125%Q] Sample.transits Sample.transits
              sample_body_shape 0%nat (Nat.lt_0_succ 0))
    |reflexivity].
Defined.

(** X18: the angle filter flags an instant exactly when Mars or Saturn is,
    at that instant, within 5 degrees of the Ascendant, the Midheaven, or
    the point opposite to either. *)
Theorem malefic_on_angle_mask_pointwise (ascmc : list (list Q))
        (longitudes : gmap Z (list Q)) :
  length (longitudes !!! 4) = length ascmc ->
  length (longitudes !!! 6) = length ascmc ->
  forall i, (i < length ascmc)%nat ->
    let asc := nth 0%nat (nth i ascmc []) 0%Q in
    let mc := nth 1%nat (nth i ascmc []) 0%Q in
    nth i (malefic_on_angle_mask ascmc longitudes (length ascmc)) false
    = existsb
        (fun malefic_id =>
           existsb
             (fun angle =>
                Qle_bool (separation (nth i (longitudes !!! malefic_id) 0%Q) angle) 5)
             [asc; mc; Np.fmod (asc + 180) 360; Np.fmod (mc + 180) 360])
        [4; 6].
Proof.
  intros H4 H6 i Hi. cbv zeta. unfold malefic_on_angle_mask.
  set (angles := [Np.col ascmc 0; Np.col ascmc 1;
                  map (fun a => Np.fmod (a + 180) 360) (Np.col ascmc 0);
                  map (fun a => Np.fmod (a + 180) 360) (Np.col ascmc 1)]).
  assert (forall angle, In angle angles -> length angle = length ascmc) as Hangles.
  { intros angle [<-|[<-|[<-|[<-|[]]]]];
      rewrite ?length_map, EngineFacts.length_col; reflexivity. }
  destruct (Pointwise.fold_or (length ascmc)
              (fun acc malefic_id =>
                 fold_left
                   (fun acc angle =>
                      Np.vor acc
                        (Np.map2 (fun m a => Qle_bool (separation m a) 5)
                                 (longitudes !!! malefic_id) angle))
                   angles acc)
              (fun malefic_id i =>
                 existsb
                   (fun angle =>
                      Qle_bool (separation (nth i (longitudes !!! malefic_id) 0%Q)
                                           (nth i angle 0%Q)) 5)
                   angles)
              [4; 6] (Np.zeros_bool (length ascmc)))
    as [_ Hv].
  - intros acc m Hm Hacc.
    assert (length (longitudes !!! m) = length ascmc) as Hpos
        by (destruct Hm as [<-|[<-|[]]]; assumption).
    apply Pointwise.fold_or; [|exact Hacc].
    intros acc1 angle Hangle Hacc1. pose proof (Hangles angle Hangle) as Hlen.
    destruct (NatalExtra.vor_step (length ascmc) acc1
                (Np.map2 (fun m a => Qle_bool (separation m a) 5)
                         (longitudes !!! m) angle))
      as [Hl Hval]; [exact Hacc1|apply EngineFacts.length_map2; assumption|].
    split; [exact Hl|]. intros j Hj. rewrite Hval by exact Hj. f_equal.
    unfold Np.map2.
    apply (Pointwise.nth_zip_with (fun m a => Qle_bool (separation m a) 5)); lia.
  - apply EngineFacts.length_zeros_bool.
  - rewrite (Hv i Hi). unfold Np.zeros_bool.
    rewrite Pointwise.nth_replicate_in by exact Hi. cbn [orb].
    subst angles. cbn [existsb].
    rewrite !(Pointwise.nth_map_in (fun a => Np.fmod (a + 180) 360) _ i 0%Q 0%Q)
      by (rewrite EngineFacts.length_col; exact Hi).
    unfold Np.col.
    rewrite !(Pointwise.nth_map_in _ ascmc i [] 0%Q) by exact Hi.
    reflexivity.
Qed.

Lemma malefic_on_angle_mask_pointwise_witness :
  nth 0 (malefic_on_angle_mask [[128; 270]%Q] Sample.transits 1) false = true.
Proof.
  etransitivity;
    [exact (malefic_on_angle_mask_pointwise [[128; 270]%Q] Sample.transits
              eq_refl eq_refl 0%nat (Nat.lt_0_succ 0))
    |reflexivity].
Defined.

(** X19: for a positive step of [m] minutes the grid holds exactly the
    instants [start + k*m] minutes, [k >= 0], that lie at least one whole
    step before [end]; in particular [end] itself is never evaluated. *)
Theorem time_grid_membership (start_dt end_dt : datetime) (m : Z) :
  0 < m ->
  exists times,
    time_grid start_dt end_dt m = Ok times
    /\ (forall t, In t times <->
                  exists k, 0 <= k /\ t = start_dt + k * timedelta_minutes m
                            /\ t + timedelta_minutes m <= end_dt)
    /\ ~ In end_dt times.
Proof.
  intros Hm. rewrite EngineFacts.time_grid_spec by exact Hm.
  eexists. split; [reflexivity|].
  assert (0 < timedelta_minutes m) as Htd
      by (unfold timedelta_minutes, MICROS_PER_MINUTE, MICROS_PER_SECOND; lia).
  assert (forall k, timedelta_minutes (k * m) = k * timedelta_minutes m) as Hk
      by (intros k; unfold timedelta_minutes; lia).
  assert (forall t,
             In t (map (fun k => start_dt + timedelta_minutes (k * m))
                       (range ((end_dt - start_dt) / timedelta_minutes m))) <->
             exists k, 0 <= k /\ t = start_dt + k * timedelta_minutes m
                       /\ t + timedelta_minutes m <= end_dt) as Hmem.
  { intros t. rewrite in_map_iff. split.
    - intros [k [<- Hin]]. apply EngineFacts.in_range in Hin. exists k.
      rewrite Hk. split; [lia|]. split; [reflexivity|].
      pose proof (Z.mul_div_le (end_dt - start_dt) _ Htd). nia.
    - intros [k [Hk0 [-> Hle]]]. exists k. rewrite Hk. split; [reflexivity|].
      apply EngineFacts.in_range. split; [exact Hk0|].
      apply Z.div_le_lower_bound with (a := end_dt - start_dt) (q := k + 1) in Htd as Hq;
        [lia|nia]. }
  split; [exact Hmem|].
  intros Hend. apply Hmem in Hend. destruct Hend as [k [_ [_ Hle]]]. lia.
Qed.

Lemma time_grid_membership_witness :
  exists times,
    time_grid 0 (timedelta_minutes 90) 30 = Ok times
    /\ (forall t, In t times <->
                  exists k, 0 <= k /\ t = 0 + k * timedelta_minutes 30
                            /\ t + timedelta_minutes 30 <= timedelta_minutes 90)
    /\ ~ In (timedelta_minutes 90) times.
Proof. apply (time_grid_membership 0 (timedelta_minutes 90) 30). reflexivity. Defined.

End EngineExtra.

(** ** Rows and labels (election_engine.py) *)

Module RowExtra.

Import ElectionEngine.
Local Open Scope Q_scope.

Section Rows.

Variable round1 : Q -> Q.

(** The blended score that [make_row] labels. *)
Let hybrid (sc : Scores) (idx : nat) : Q :=
  clamp_0_100 ((nth idx (s_total sc) 0 - nth idx (s_natal sc) 0) / 30 * 100) * 0.70
  + clamp_0_100 (nth idx (s_natal sc) 0 / 10 * 100) * 0.30.

Lemma make_row_label (times : list datetime) (moon_longs : list Q) (rej : list bool)
      (sc : Scores) (idx : nat) :
  (label (make_row round1 times moon_longs rej sc idx),
   stars (make_row round1 times moon_longs rej sc idx))
  = label_of (hybrid sc idx).
Proof.
  unfold make_row, hybrid. destruct (label_of _) as [l s]. reflexivity.
Qed.

Lemma clamp_0_100_range (x : Q) : 0 <= clamp_0_100 x <= 100.
Proof.
  unfold clamp_0_100. split.
  - apply Q.min_glb; [apply Q.le_max_r|discriminate].
  - apply Q.le_min_r.
Qed.

Lemma clamp_0_100_nonpos (x : Q) : x <= 0 -> clamp_0_100 x == 0.
Proof.
  intros Hx. unfold clamp_0_100.
  rewrite (Q.max_r x 0) by exact Hx. apply Q.min_l. discriminate.
Qed.

(** A row whose natal score is not positive is never labelled
    "Excelente": its blended score is at most 70, so it has between one
    and four stars. *)
Lemma stars_capped_without_natal (times : list datetime) (moon_longs : list Q)
        (rej : list bool) (sc : Scores) (idx : nat) :
  nth idx (s_natal sc) 0 <= 0 ->
  (1 <= stars (make_row round1 times moon_longs rej sc idx) <= 4)%Z
  /\ label (make_row round1 times moon_longs rej sc idx) <> "Excelente"%string.
Proof.
  intros Hnat.
  pose proof (make_row_label times moon_longs rej sc idx) as Hrow.
  assert (hybrid sc idx <= 70) as Hh.
  { unfold hybrid.
    pose proof (clamp_0_100_range
                  ((nth idx (s_total sc) 0 - nth idx (s_natal sc) 0) / 30 * 100)) as [_ Hg].
    rewrite (clamp_0_100_nonpos (nth idx (s_natal sc) 0 / 10 * 100)).
    - lra.
    - assert (nth idx (s_natal sc) 0 / 10 * 100 == nth idx (s_natal sc) 0 * 10) as ->
          by field. lra. }
  unfold label_of in Hrow.
  destruct (Qle_bool 80 (hybrid sc idx)) eqn:E80.
  { apply Qle_bool_iff in E80. lra. }
  destruct (Qle_bool 60 (hybrid sc idx));
    [|destruct (Qle_bool 40 (hybrid sc idx));
      [|destruct (Qle_bool 20 (hybrid sc idx))]];
    injection Hrow as -> ->; (split; [lia|discriminate]).
Qed.

End Rows.

End RowExtra.

(** ** Score groups (vectorized_scoring.py) *)

Module ScoringExtra.

Import VectorizedScoring SpecWords.
Local Open Scope Q_scope.

Lemma within_weaken (lo hi lo' hi' : Q) (l : list Q) :
  within lo hi l -> lo' <= lo -> hi <= hi' -> within lo' hi' l.
Proof.
  intros H Hlo Hhi. unfold within in *. eapply List.Forall_impl; [|exact H].
  cbn. intros x [H1 H2]. split; lra.
Qed.

Lemma within_zeros (n : nat) : within 0 0 (Np.zeros n).
Proof.
  unfold within, Np.zeros. induction n as [|n IH]; cbn; constructor; [lra|exact IH].
Qed.

Lemma within_vadd (a b c d : Q) (l1 l2 : list Q) :
  within a b l1 -> within c d l2 -> within (a + c) (b + d) (Np.vadd l1 l2).
Proof.
  unfold within, Np.vadd, Np.map2. intros H1. revert l2.
  induction H1 as [|x l1 Hx H1 IH]; intros l2 H2; [constructor|].
  destruct H2 as [|y l2 Hy H2]; cbn [zip_with]; constructor; [lra|].
  apply IH, H2.
Qed.

Lemma within_where_pos (mask : list bool) (x : Q) :
  0 <= x -> within 0 x (Np.where_ mask x 0).
Proof.
  intros Hx. unfold within, Np.where_. induction mask as [|b mask IH]; cbn;
    constructor; [destruct b; lra|exact IH].
Qed.

Lemma within_where_neg (mask : list bool) (x : Q) :
  x <= 0 -> within x 0 (Np.where_ mask x 0).
Proof.
  intros Hx. unfold within, Np.where_. induction mask as [|b mask IH]; cbn;
    constructor; [destruct b; lra|exact IH].
Qed.

Ltac bound_sum :=
  repeat first
    [ apply within_vadd
    | apply within_zeros
    | apply within_where_pos; discriminate
    | apply within_where_neg; discriminate ].

(** X22: every entry of the combinations score lies between -4 and 8,
    whatever the sky, the houses and the bodies supplied. *)
Theorem combinations_score_bounds
        (times : list datetime)
        (ruler_asc_ids : list Z) (ruler_asc_longs : list Q)
        (ruler_h10_ids : list Z) (ruler_h10_longs : list Q)
        (planet_longs : gmap Z (list Q)) (ascmc cusps : list (list Q))
        (natal_asc_sign : option Z) :
  List.Forall (fun x => -4 <= x <= 8)
    (fst (calculate_combinations_score times ruler_asc_ids ruler_asc_longs
            ruler_h10_ids ruler_h10_longs planet_longs ascmc cusps natal_asc_sign)).
Proof.
  change (within (-4) 8
            (fst (calculate_combinations_score times ruler_asc_ids ruler_asc_longs
                    ruler_h10_ids ruler_h10_longs planet_longs ascmc cusps
                    natal_asc_sign))).
  unfold calculate_combinations_score.
  destruct (planet_longs !! 0%Z), (planet_longs !! 5%Z), (planet_longs !! 1%Z),
    (planet_longs !! 6%Z), (planet_longs !! 4%Z);
    destruct (match natal_asc_sign with
              | Some s => existsb (Z.eqb s) [9%Z; 10%Z]
              | None => false
              end);
    destruct (match natal_asc_sign with
              | Some s => existsb (Z.eqb s) [0%Z; 7%Z]
              | None => false
              end);
    cbv beta iota zeta; cbn [add_component fst snd];
    (eapply within_weaken; [bound_sum|reflexivity || discriminate..]).
Qed.

(** A step that records a component under another name leaves the entry
    of [name] as it was. *)
Lemma snd_h10_step (cusps : list (list Q)) (o : option (list Q)) (n name : string)
      (acc : list Q * gmap string (list Q)) :
  n <> name ->
  snd (match o with
       | Some p => add_component n (Np.where_ (is_in_h10 cusps p) 2 0) acc
       | None => acc
       end) !! name
  = snd acc !! name.
Proof.
  intros Hne. destruct o; [|reflexivity].
  cbn [add_component snd]. apply lookup_insert_ne. exact Hne.
Qed.

Ltac skip_rule_case :=
  repeat (rewrite lookup_insert_ne by discriminate);
  rewrite ?lookup_insert_eq;
  rewrite ?snd_h10_step by discriminate;
  cbn [add_component snd];
  repeat (rewrite lookup_insert_ne by discriminate);
  rewrite ?lookup_empty;
  (split;
   [ intros Hsome;
     try (destruct Hsome as [? Hsome]; discriminate Hsome);
     try (split; [eexists; reflexivity|]);
     try (split; intros ->;
          match goal with
          | H : false = true <-> _ |- _ =>
              let K := fresh in
              assert (false = true) as K
                  by (apply H; eexists; split; [reflexivity|cbn; tauto]);
              discriminate K
          end)
   | intros [Hp [H1 H2]];
     try (eexists; reflexivity);
     try (destruct Hp as [? Hp]; discriminate Hp);
     match goal with
     | H : true = true <-> _ |- _ =>
         destruct (proj1 H eq_refl) as [s [-> Hin]]; cbn in Hin;
         exfalso; intuition congruence
     end ]).

(** X23: the Saturn penalties are recorded exactly when Saturn is among the
    bodies supplied and the natal Ascendant sign is neither Capricorn nor
    Aquarius; the Mars penalties exactly when Mars is supplied and the natal
    Ascendant sign is neither Aries nor Scorpio. *)
Theorem malefic_penalties_skip_rule
        (times : list datetime)
        (ruler_asc_ids : list Z) (ruler_asc_longs : list Q)
        (ruler_h10_ids : list Z) (ruler_h10_longs : list Q)
        (planet_longs : gmap Z (list Q)) (ascmc cusps : list (list Q))
        (natal_asc_sign : option Z) :
  let details :=
    snd (calculate_combinations_score times ruler_asc_ids ruler_asc_longs
           ruler_h10_ids ruler_h10_longs planet_longs ascmc cusps natal_asc_sign) in
  let saturn_scored :=
    is_Some (planet_longs !! 6%Z)
    /\ natal_asc_sign <> Some 9%Z /\ natal_asc_sign <> Some 10%Z in
  let mars_scored :=
    is_Some (planet_longs !! 4%Z)
    /\ natal_asc_sign <> Some 0%Z /\ natal_asc_sign <> Some 7%Z in
  (is_Some (details !! "comb_neg_saturn_h10"%string) <-> saturn_scored)
  /\ (is_Some (details !! "comb_neg_saturn_asc"%string) <-> saturn_scored)
  /\ (is_Some (details !! "comb_neg_mars_h10"%string) <-> mars_scored)
  /\ (is_Some (details !! "comb_neg_mars_asc"%string) <-> mars_scored).
Proof.
  cbv zeta. unfold calculate_combinations_score.
  assert (forall l : list Z,
             match natal_asc_sign with
             | Some s => existsb (Z.eqb s) l
             | None => false
             end = true <-> exists s, natal_asc_sign = Some s /\ In s l) as Hskip.
  { intros l. destruct natal_asc_sign as [s|].
    - rewrite existsb_exists. split.
      + intros [y [Hy E]]. apply Z.eqb_eq in E. subst y. eauto.
      + intros [s' [E Hs]]. injection E as <-. exists s. split; [exact Hs|apply Z.eqb_refl].
    - split; [discriminate|]. intros [s [E _]]. discriminate. }
  pose proof (Hskip [9%Z; 10%Z]) as Hsat. pose proof (Hskip [0%Z; 7%Z]) as Hmar.
  clear Hskip.
  destruct (match natal_asc_sign with
            | Some s => existsb (Z.eqb s) [9%Z; 10%Z]
            | None => false
            end) eqn:Esat;
    destruct (match natal_asc_sign with
              | Some s => existsb (Z.eqb s) [0%Z; 7%Z]
              | None => false
              end) eqn:Emar;
    destruct (planet_longs !! 6%Z), (planet_longs !! 4%Z);
    cbv beta iota zeta; cbn [add_component fst snd];
    (split; [|split; [|split]]; skip_rule_case).
Qed.

(** *** The natal group *)

Lemma aspect_points_bounded (pc pt ps pmax d : Q) :
  0 <= pc <= pmax -> 0 <= pt <= pmax -> 0 <= ps <= pmax ->
  0 <= 0 + (if Qle_bool (Qabs (d - 0)) 5 then pc else 0)
        + (if Qle_bool (Qabs (d - 120)) 5 then pt else 0)
        + (if Qle_bool (Qabs (d - 60)) 5 then ps else 0) <= pmax.
Proof.
  intros Hc Ht Hs.
  destruct (Qle_bool (Qabs (d - 0)) 5) eqn:Ec;
    [apply Qle_bool_iff, Qabs_Qle_condition in Ec|clear Ec];
    (destruct (Qle_bool (Qabs (d - 120)) 5) eqn:Et;
     [apply Qle_bool_iff, Qabs_Qle_condition in Et|clear Et]);
    (destruct (Qle_bool (Qabs (d - 60)) 5) eqn:Es;
     [apply Qle_bool_iff, Qabs_Qle_condition in Es|clear Es]);
    split; lra.
Qed.

Lemma zip3_within (f1 f2 f3 : Q -> Q) (lo hi : Q) (z l : list Q) :
  (forall d, lo <= 0 + f1 d + f2 d + f3 d <= hi) ->
  List.Forall (fun x => x = 0) z ->
  within lo hi
    (zip_with Qplus (zip_with Qplus (zip_with Qplus z (map f1 l)) (map f2 l)) (map f3 l)).
Proof.
  intros Hf Hz. revert l. unfold within.
  induction Hz as [|x z Hx Hz IH]; intros [|d l]; cbn [map zip_with]; try constructor.
  - subst x. apply Hf.
  - apply IH.
Qed.

Lemma natal_aspect_within (N : nat) (elect : list Q) (nat_pos pc pt ps pmax : Q) :
  0 <= pc <= pmax -> 0 <= pt <= pmax -> 0 <= ps <= pmax ->
  within 0 pmax
    (Np.vadd
       (Np.vadd
          (Np.vadd (Np.zeros N)
             (Np.where_ (VectorizedLogic.mask_exact_aspect elect (replicate N nat_pos) 0 5)
                        pc 0))
          (Np.where_ (VectorizedLogic.mask_exact_aspect elect (replicate N nat_pos) 120 5)
                     pt 0))
       (Np.where_ (VectorizedLogic.mask_exact_aspect elect (replicate N nat_pos) 60 5)
                  ps 0)).
Proof.
  intros Hc Ht Hs.
  unfold Np.vadd, Np.map2, Np.where_, VectorizedLogic.mask_exact_aspect.
  rewrite !map_map.
  apply (zip3_within
           (fun d => if Qle_bool (Qabs (d - 0)) 5 then pc else 0)
           (fun d => if Qle_bool (Qabs (d - 120)) 5 then pt else 0)
           (fun d => if Qle_bool (Qabs (d - 60)) 5 then ps else 0)).
  - intros d. apply aspect_points_bounded; assumption.
  - unfold Np.zeros. clear. induction N as [|N IH]; cbn; constructor; [reflexivity|exact IH].
Qed.

Lemma natal_penalty_within (N : nat) (natal_chart : gmap Z Q) (asc_elect : list Q)
      (natal_pid : Z) (name : string) (acc : list Q * gmap string (list Q)) (lo hi : Q) :
  within lo hi (fst acc) ->
  within (lo + -2) (hi + 0) (fst (natal_penalty N natal_chart asc_elect natal_pid name acc)).
Proof.
  intros Hacc. unfold natal_penalty. destruct (natal_chart !! natal_pid) as [nat_pos|].
  - cbn [add_component fst]. apply within_vadd; [exact Hacc|].
    apply within_where_neg. discriminate.
  - eapply within_weaken; [exact Hacc|lra..].
Qed.

Lemma score_natal_aspect_within (N : nat) (natal_chart : gmap Z Q) (elect_point : list Q)
      (natal_pid : Z) (pc pt ps pmax : Q) (name : string)
      (acc : list Q * gmap string (list Q)) (lo hi : Q) :
  0 <= pc <= pmax -> 0 <= pt <= pmax -> 0 <= ps <= pmax ->
  within lo hi (fst acc) ->
  within (lo + 0) (hi + pmax)
    (fst (score_natal_aspect N natal_chart elect_point natal_pid pc pt ps name acc)).
Proof.
  intros Hc Ht Hs Hacc. unfold score_natal_aspect.
  destruct (natal_chart !! natal_pid) as [nat_pos|].
  - cbv zeta. cbn [add_component fst]. apply within_vadd; [exact Hacc|].
    apply natal_aspect_within; assumption.
  - eapply within_weaken; [exact Hacc|lra..].
Qed.

(** X24: every entry of the natal score lies between -4 and 10; the upper
    end is the constant by which the orchestrator normalises the natal
    score.  The three aspects tested against one natal point exclude each
    other, so each of the nine bonus components awards at most its largest
    amount. *)
Theorem natal_score_bounds (times : list datetime) (ascmc cusps : list (list Q))
        (natal_chart : gmap Z Q) :
  List.Forall (fun x => -4 <= x <= 10)
    (fst (calculate_natal_score times ascmc cusps natal_chart)).
Proof.
  change (within (-4) 10 (fst (calculate_natal_score times ascmc cusps natal_chart))).
  unfold calculate_natal_score. cbv zeta.
  destruct (bool_decide (natal_chart = ∅)).
  { cbn [fst]. eapply within_weaken; [apply within_zeros|discriminate..]. }
  eapply within_weaken.
  - apply (score_natal_aspect_within _ _ _ _ 1 0 0 1); [split; discriminate..|].
    apply (score_natal_aspect_within _ _ _ _ 1 0 0 1); [split; discriminate..|].
    apply (score_natal_aspect_within _ _ _ _ 1 0 0 1); [split; discriminate..|].
    apply (score_natal_aspect_within _ _ _ _ 1 0 0 1); [split; discriminate..|].
    apply (score_natal_aspect_within _ _ _ _ 2 1 1 2); [split; discriminate..|].
    apply (score_natal_aspect_within _ _ _ _ 1 1 1 1); [split; discriminate..|].
    apply (score_natal_aspect_within _ _ _ _ 1 1 1 1); [split; discriminate..|].
    apply (score_natal_aspect_within _ _ _ _ 1 1 1 1); [split; discriminate..|].
    apply (score_natal_aspect_within _ _ _ _ 1 1 1 1); [split; discriminate..|].
    apply natal_penalty_within. apply natal_penalty_within.
    cbn [fst]. apply within_zeros.
  - lra.
  - lra.
Qed.

(** Without a natal chart the natal group awards nothing and records
    nothing. *)
Lemma natal_score_empty_chart (times : list datetime) (ascmc cusps : list (list Q)) :
  calculate_natal_score times ascmc cusps ∅ = (Np.zeros (length times), ∅).
Proof. reflexivity. Qed.

End ScoringExtra.

(** ** The search without a natal chart (election_engine.py) *)

Module EngineNatalExtra.

Import ElectionEngine.
Local Open Scope Q_scope.

Lemma nth_zeros (n i : nat) : nth i (Np.zeros n) 0 = 0.
Proof.
  unfold Np.zeros. revert i. induction n as [|n IH]; intros [|i]; cbn; try reflexivity.
  apply IH.
Qed.

Section WithCollaborators.

Variable ymd : datetime -> Z * Z * Z.
Variable julday : Z -> Z -> Z -> Q -> Q.
Variable calc_ut : Q -> Z -> option VectorizedEphemeris.Position.
Variable houses : Q -> Q -> Q -> option (list Q * list Q).
Variable round1 : Q -> Q.
Variable calculate_moon_score :
  list datetime -> list Q -> list Q -> gmap Z (list Q) ->
  list (list Q) -> list (list Q) -> list Q * gmap string (list Q).
Variable calculate_ruler_score :
  list datetime -> string -> list Q -> list Z -> list Q -> gmap Z (list Q) ->
  list (list Q) -> list Q -> list Q * gmap string (list Q).

Lemma s_natal_compute_scores
      (calculate_natal_score :
         list datetime -> list (list Q) -> list (list Q) -> gmap Z Q ->
         list Q * gmap string (list Q))
      (times : list datetime) (th : Z) (natal : gmap Z Q)
      (longitudes speeds : gmap Z (list Q)) (cusps ascmc : list (list Q)) :
  s_natal (compute_scores calculate_moon_score calculate_ruler_score
             calculate_natal_score times th natal longitudes speeds cusps ascmc)
  = fst (calculate_natal_score times ascmc cusps natal).
Proof.
  unfold compute_scores. cbv zeta.
  repeat match goal with
         | |- context [match ?x with (_, _) => _ end] => destruct x
         end.
  reflexivity.
Qed.

(** X21: a search without a natal chart (none given, or an empty one)
    returns rows whose natal score is 0, whose general score is the whole
    total, and which have at most four stars: the label "Excelente" is out
    of reach. *)
Theorem search_without_natal_chart
        (start_dt end_dt : datetime) (lat lon : Q) (natal : option (gmap Z Q))
        (topic : string) (m : Z) (return_all : bool) (rows : list CandidateRow) :
  default ∅ natal = ∅ ->
  find_elections ymd julday calc_ut houses round1 calculate_moon_score
    calculate_ruler_score VectorizedScoring.calculate_natal_score
    start_dt end_dt lat lon natal topic m return_all = Ok rows ->
  List.Forall
    (fun row => score_natal row = 0
                /\ score_general row = score_total row - 0
                /\ (1 <= stars row <= 4)%Z
                /\ label row <> "Excelente"%string)
    rows.
Proof.
  intros Hnatal. unfold find_elections. rewrite Hnatal.
  destruct (time_grid start_dt end_dt m) as [times|e]; [|discriminate]. cbn [bind].
  destruct (VectorizedEphemeris.calculate_positions ymd julday calc_ut times
              (Some search_bodies)) as [positions|e]; [|discriminate]. cbn [bind].
  destruct (VectorizedHouses.calculate_houses ymd julday houses times lat lon)
    as [[cusps ascmc]|e]; [|discriminate]. cbn [bind].
  destruct (length times =? 0)%nat; [discriminate|].
  intros H. injection H as <-. unfold build_results.
  apply List.Forall_forall. intros row Hrow. apply in_map_iff in Hrow.
  destruct Hrow as [idx [<- _]].
  set (sc := compute_scores _ _ _ _ _ _ _ _ _ _).
  assert (nth idx (s_natal sc) 0 = 0) as Hzero.
  { subst sc. rewrite s_natal_compute_scores, ScoringExtra.natal_score_empty_chart.
    apply nth_zeros. }
  assert (nth idx (s_natal sc) 0 <= 0) as Hle by (rewrite Hzero; discriminate).
  pose proof (RowExtra.stars_capped_without_natal round1 times
                (VectorizedEphemeris.get_longitudes positions !!! 1%Z)
                (rejection_mask
                   (ThemeConfig.target_house (ThemeConfig.get_theme_config topic)) ∅
                   (VectorizedEphemeris.get_longitudes positions)
                   (VectorizedEphemeris.get_speeds positions) cusps ascmc (length times))
                sc idx Hle) as [Hstars Hlabel].
  split; [|split; [|split; [exact Hstars|exact Hlabel]]].
  - unfold make_row. destruct (label_of _). cbn [score_natal]. exact Hzero.
  - unfold make_row. destruct (label_of _). cbn [score_general score_total].
    rewrite Hzero. reflexivity.
Qed.

End WithCollaborators.

Lemma search_without_natal_chart_witness :
  exists rows,
    Sample.find_natal None = Ok rows
    /\ length rows = 1%nat
    /\ List.Forall
         (fun row => score_natal row = 0
                     /\ score_general row = score_total row - 0
                     /\ (1 <= stars row <= 4)%Z
                     /\ label row <> "Excelente"%string)
         rows.
Proof.
  destruct (Sample.find_natal None) as [rows|e] eqn:E; [|vm_compute in E; discriminate].
  exists rows. split; [reflexivity|]. split.
  - vm_compute in E. injection E as <-. reflexivity.
  - exact (search_without_natal_chart Sample.ymd Sample.julday Sample.calc_ut
             Sample.houses Sample.round1 Sample.no_moon_score Sample.no_ruler_score
             0%Z (timedelta_minutes 60) 0 0 None "trabajo" 60 true rows eq_refl E).
Defined.

End EngineNatalExtra.

(** ** The contextual score (scc_calculator.py) *)

Module SCCExtra.

Import SCC_Calculator.
Local Open Scope Q_scope.

Lemma absoluto_range (p : Q) : 0 <= _calcular_componente_absoluto p <= 100.
Proof.
  unfold _calcular_componente_absoluto, ENRAIZAMIENTO_RANGO, ENRAIZAMIENTO_MIN,
    ENRAIZAMIENTO_MAX. cbv zeta.
  destruct (Qle_bool p (-6)) eqn:Hlo; [split; discriminate|].
  destruct (Qle_bool 10 p) eqn:Hhi; [split; discriminate|].
  apply SCCFacts.Qle_bool_false in Hlo, Hhi.
  rewrite (SCCFacts.linear_form p). split; lra.
Qed.

Lemma absoluto_mono (a b : Q) :
  b <= a -> _calcular_componente_absoluto b <= _calcular_componente_absoluto a.
Proof.
  intros Hba. pose proof (absoluto_range a) as Ha. pose proof (absoluto_range b) as Hb.
  revert Ha Hb.
  unfold _calcular_componente_absoluto, ENRAIZAMIENTO_RANGO, ENRAIZAMIENTO_MIN,
    ENRAIZAMIENTO_MAX. cbv zeta.
  destruct (Qle_bool b (-6)) eqn:Hb1; [intros; lra|].
  apply SCCFacts.Qle_bool_false in Hb1.
  destruct (Qle_bool a (-6)) eqn:Ha1; [apply Qle_bool_iff in Ha1; lra|].
  destruct (Qle_bool 10 a) eqn:Ha2; [intros; lra|].
  apply SCCFacts.Qle_bool_false in Ha2.
  destruct (Qle_bool 10 b) eqn:Hb2; [apply Qle_bool_iff in Hb2; lra|].
  intros _ _. rewrite !SCCFacts.linear_form. lra.
Qed.

Lemma estimar_range (p : Q) : 0 <= _estimar_percentil_aproximado p <= 100.
Proof.
  unfold _estimar_percentil_aproximado.
  repeat match goal with
         | |- context [Qle_bool ?x ?y] => destruct (Qle_bool x y)
         end; split; discriminate.
Qed.

Section Loop.

Variable vo : list Q.
Variable n : nat.
Hypothesis Hn : length vo = n.

(** Resumed behind entries that are all below the point, the loop returns
    a percentage. *)
Lemma loop_range (p : Q) (rest pre : list Q) :
  vo = pre ++ rest -> (forall x, In x pre -> x < p) ->
  0 <= relativo_loop p vo n (length pre) rest <= 100.
Proof.
  revert pre. induction rest as [|v rest IH]; intros pre Hvo Hpre.
  - cbn [relativo_loop]. split; discriminate.
  - assert (0 < n)%nat as Hpos by (rewrite <- Hn, Hvo, length_app; cbn [length]; lia).
    assert (length pre < n)%nat as Hi
        by (rewrite <- Hn, Hvo, length_app; cbn [length]; lia).
    pose proof (SCCFacts.Qnat_pos n Hpos) as Hnpos.
    assert (forall x, 0 <= x -> x <= Qnat n -> 0 <= x / Qnat n * 100 <= 100) as Hpct.
    { intros x H0 H1. split.
      - apply Qmult_le_0_compat; [|discriminate].
        apply Qle_shift_div_l; [exact Hnpos|]. lra.
      - apply Qle_trans with (Qnat n / Qnat n * 100).
        + apply SCCFacts.pct_mono; assumption.
        + apply Qle_lteq. right. field. lra. }
    assert (0 <= Qnat (length pre)) as Hi0
        by (unfold Qnat; change 0 with (inject_Z 0); rewrite <- Zle_Qle; lia).
    assert (Qnat (length pre) <= Qnat n) as Hi1 by (apply SCCFacts.Qnat_le; lia).
    cbn [relativo_loop].
    destruct (Qle_bool p v) eqn:Hpv.
    + apply Qle_bool_iff in Hpv.
      destruct (length pre) as [|i] eqn:Hlen; cbn [Nat.eqb]; [split; discriminate|].
      destruct (Qeq_bool p v); [apply Hpct; assumption|].
      assert (In (nth (S i - 1) vo 0) pre) as Hin
          by (rewrite Hvo, app_nth1 by lia; apply nth_In; lia).
      pose proof (Hpre _ Hin) as Hprev.
      destruct (Qeq_bool v (nth (S i - 1) vo 0)); cbn [negb];
        [apply Hpct; assumption|].
      destruct (SCCFacts.interp_bounds _ v p Hprev Hpv) as [H0 H1].
      replace (S i - 1)%nat with i in * by lia.
      pose proof (SCCFacts.Qnat_S i) as HS.
      assert (0 <= Qnat i)
          by (unfold Qnat; change 0 with (inject_Z 0); rewrite <- Zle_Qle; lia).
      apply Hpct; lra.
    + apply SCCFacts.Qle_bool_false in Hpv.
      replace (S (length pre)) with (length (pre ++ [v]))
        by (rewrite length_app; cbn [length]; lia).
      apply IH.
      * rewrite <- app_assoc. exact Hvo.
      * intros x Hx. apply in_app_or in Hx. destruct Hx as [Hx|[<-|[]]];
          [apply Hpre, Hx|exact Hpv].
Qed.

(** Behind entries all below the point, with nothing but such entries
    left, the loop falls off the end. *)
Lemma loop_all_below (p : Q) (rest : list Q) (i : nat) :
  (forall x, In x rest -> x < p) -> relativo_loop p vo n i rest = 100.
Proof.
  revert i. induction rest as [|v rest IH]; intros i Hrest; [reflexivity|].
  cbn [relativo_loop].
  assert (Qle_bool p v = false) as ->.
  { destruct (Qle_bool p v) eqn:E; [|reflexivity].
    apply Qle_bool_iff in E. pose proof (Hrest v (or_introl eq_refl)). lra. }
  apply IH. intros x Hx. apply Hrest. right. exact Hx.
Qed.

End Loop.

Lemma relativo_range (p : Q) (V : list Q) : 0 <= _calcular_componente_relativo p V <= 100.
Proof.
  unfold _calcular_componente_relativo. destruct V as [|x V]; [split; discriminate|].
  apply (loop_range (PySort.sorted (x :: V)) _ eq_refl p (PySort.sorted (x :: V)) []);
    [reflexivity|intros y []].
Qed.

Lemma relativo_de_range (p : Q) (V : option (list Q)) : 0 <= relativo_de p V <= 100.
Proof.
  unfold relativo_de. destruct V as [vs|]; [destruct (1 <? length vs)%nat|];
    first [apply relativo_range|apply estimar_range].
Qed.

Lemma relativo_de_mono (V : option (list Q)) (a b : Q) :
  b <= a -> relativo_de b V <= relativo_de a V.
Proof.
  intros Hba. apply Qle_lteq in Hba. destruct Hba as [Hlt|Heq].
  - unfold relativo_de. destruct V as [vs|]; [destruct (1 <? length vs)%nat|].
    + apply SCCFacts._calcular_componente_relativo_mono, Hlt.
    + apply SCCFacts._estimar_percentil_aproximado_mono. lra.
    + apply SCCFacts._estimar_percentil_aproximado_mono. lra.
  - (* equal as rationals, possibly written differently *)
    assert (forall vo n i rest, relativo_loop b vo n i rest == relativo_loop a vo n i rest)
      as Hloop.
    { intros vo n i rest. revert i. induction rest as [|v rest IH]; intros i;
        cbn [relativo_loop]; [reflexivity|].
      assert (Qle_bool b v = Qle_bool a v) as ->.
      { destruct (Qle_bool a v) eqn:E.
        - apply Qle_bool_iff. apply Qle_bool_iff in E. lra.
        - apply SCCFacts.Qle_bool_false in E.
          destruct (Qle_bool b v) eqn:E'; [|reflexivity].
          apply Qle_bool_iff in E'. lra. }
      destruct (Qle_bool a v); [|apply IH].
      destruct (i =? 0)%nat; [reflexivity|].
      assert (Qeq_bool b v = Qeq_bool a v) as ->.
      { destruct (Qeq_bool a v) eqn:E.
        - apply Qeq_bool_iff. apply Qeq_bool_iff in E. lra.
        - apply Qeq_bool_neq in E.
          destruct (Qeq_bool b v) eqn:E'; [|reflexivity].
          apply Qeq_bool_iff in E'. exfalso. apply E. lra. }
      destruct (Qeq_bool a v); [reflexivity|].
      destruct (negb _); [|reflexivity].
      rewrite Heq. reflexivity. }
    assert (_estimar_percentil_aproximado b <= _estimar_percentil_aproximado a) as Hest
        by (apply SCCFacts._estimar_percentil_aproximado_mono; lra).
    unfold relativo_de. destruct V as [vs|]; [destruct (1 <? length vs)%nat|];
      try exact Hest.
    unfold _calcular_componente_relativo. destruct vs; [apply Qle_refl|].
    rewrite Hloop. apply Qle_refl.
Qed.

(** X25: the contextual score and its two components are percentages: for
    every raw rooting score and every reference batch, given or not, each
    lies between 0 and 100. *)
Theorem scc_is_a_percentage (p : Q) (V : option (list Q)) :
  0 <= _calcular_componente_absoluto p <= 100
  /\ 0 <= relativo_de p V <= 100
  /\ 0 <= scc_blend p V <= 100.
Proof.
  pose proof (absoluto_range p) as Ha. pose proof (relativo_de_range p V) as Hr.
  split; [exact Ha|]. split; [exact Hr|].
  unfold scc_blend, PESO_ABSOLUTO, PESO_RELATIVO. split; lra.
Qed.

(** X26: against one reference batch, given or not, a raw rooting score
    that is at least as large has a contextual score that is at least as
    large: the blend never reverses the order of two instants. *)
Theorem scc_blend_monotone (V : option (list Q)) (a b : Q) :
  b <= a -> scc_blend b V <= scc_blend a V.
Proof.
  intros Hba. pose proof (absoluto_mono a b Hba) as Ha.
  pose proof (relativo_de_mono V a b Hba) as Hr.
  unfold scc_blend, PESO_ABSOLUTO, PESO_RELATIVO. lra.
Qed.

Lemma scc_blend_monotone_witness :
  1 <= 2 /\ scc_blend 1 (Some [3; 1; 2]) <= scc_blend 2 (Some [3; 1; 2]).
Proof.
  assert (1 <= 2) as H by discriminate.
  split; [exact H|]. exact (scc_blend_monotone (Some [3; 1; 2]) 2 1 H).
Defined.

(** X27: [calcular_scc] never returns the category "LIMITADO" nor the
    reason "Calidad insuficiente": an instant is recommendable exactly when
    its unrounded score reaches 40, a recommendable instant falls in one of
    the four upper categories, and any other has category "NO RECOMENDABLE"
    with one of the two other reasons. *)
Theorem calcular_scc_unreachable_outcomes (round1 : Q -> Q) (p : Q) (V : option (list Q)) :
  let d := calcular_scc round1 p V in
  categoria d <> LIMITADO
  /\ motivo_no_recomendable d <> Some CalidadInsuficiente
  /\ (recomendable d = true <-> 40 <= scc_blend p V)
  /\ (recomendable d = false <-> categoria d = NO_RECOMENDABLE)
  /\ (recomendable d = true <-> motivo_no_recomendable d = None).
Proof.
  cbv zeta. unfold calcular_scc. cbv zeta.
  cbn [categoria motivo_no_recomendable recomendable].
  change (_calcular_componente_absoluto p * PESO_ABSOLUTO
          + relativo_de p V * PESO_RELATIVO) with (scc_blend p V).
  unfold UMBRAL_MINIMO_RECOMENDABLE, _asignar_categoria_scc, _get_motivo_no_recomendable,
    UMBRAL_MINIMO_RECOMENDABLE.
  destruct (Qle_bool 40 (scc_blend p V)) eqn:E; cbn [negb].
  - pose proof E as E'. apply Qle_bool_iff in E'.
    destruct (Qle_bool 75 (scc_blend p V));
      [|destruct (Qle_bool 65 (scc_blend p V));
        [|destruct (Qle_bool 50 (scc_blend p V))]];
      repeat split; try discriminate; try reflexivity; try (intros _; exact E');
      intros H; discriminate H.
  - pose proof E as E'. apply SCCFacts.Qle_bool_false in E'.
    unfold Np.Qlt_bool. rewrite E. cbn [negb].
    destruct (negb (Qle_bool 30 (_calcular_componente_absoluto p)));
      repeat split; try discriminate; try reflexivity;
      intros H; try discriminate H; lra.
Qed.

(** X28: against a non-empty reference batch, a raw score that no entry
    of the batch falls below has relative component 0, and one that
    exceeds every entry has relative component 100. *)
Theorem relative_pct_extremes (V : list Q) (p_low p_high : Q) :
  V <> [] ->
  (forall x, In x V -> p_low <= x) ->
  (forall x, In x V -> x < p_high) ->
  _calcular_componente_relativo p_low V = 0
  /\ _calcular_componente_relativo p_high V = 100.
Proof.
  intros Hne Hlow Hhigh.
  pose proof (AlgoFacts.sort_Permutation Qle_bool V) as Hperm.
  unfold _calcular_componente_relativo. destruct V as [|x V]; [congruence|].
  unfold PySort.sorted. split.
  - destruct (PySort.sort Qle_bool (x :: V)) as [|v0 rest] eqn:E.
    + apply Permutation_nil in Hperm. discriminate.
    + cbn [relativo_loop Nat.eqb].
      assert (Qle_bool p_low v0 = true) as ->; [|reflexivity].
      apply Qle_bool_iff, Hlow.
      apply (Permutation_in _ Hperm). left. reflexivity.
  - apply loop_all_below. intros y Hy. apply Hhigh.
    apply (Permutation_in _ Hperm). exact Hy.
Qed.

Lemma relative_pct_extremes_witness :
  _calcular_componente_relativo 1 [3; 1; 2] = 0
  /\ _calcular_componente_relativo 4 [3; 1; 2] = 100.
Proof.
  apply relative_pct_extremes.
  - discriminate.
  - intros x [<-|[<-|[<-|[]]]]; discriminate.
  - intros x [<-|[<-|[<-|[]]]]; reflexivity.
Defined.

End SCCExtra.

(** ** The two-phase search (algoritmo_busqueda.py) *)

Module AlgoExtra.

Import SCC_Calculator AlgoritmoBusqueda.

Lemma In_take {A : Type} (k : nat) (l : list A) (x : A) : In x (take k l) -> In x l.
Proof.
  revert k. induction l as [|y l IH]; intros [|k] H; cbn in H; try contradiction.
  destruct H as [<-|H]; [left; reflexivity|right; apply (IH k), H].
Qed.

Section Phase2.

Variable round1 round2 : Q -> Q.
Variable calcular_enraizamiento_avanzado : datetime -> option Resultado.
Variable as_completed : list datetime -> list datetime.
Variable tema : string.

(** The pool hands back every future exactly once, in some order. *)
Hypothesis as_completed_Permutation : forall l, Permutation (as_completed l) l.

(** X29: every entry that phase 2 returns is one of the instants it was
    given, was judged apt by the full evaluation, and has a rooting score of
    at least 25 percent; its percentage and total score are those computed
    from that evaluation. *)
Theorem fase_2_returns_rooted_instants (momentos : list datetime)
        (out : list MomentoSCC) :
  _fase_2_enraizamiento round1 round2 calcular_enraizamiento_avanzado as_completed tema
    momentos = Ok out ->
  List.Forall
    (fun x =>
       In (fecha_hora (momento x)) momentos
       /\ exists r,
           calcular_enraizamiento_avanzado (fecha_hora (momento x)) = Some r
           /\ apto r = true
           /\ (25 <= r_enraizamiento_score r * 100)%Q
           /\ enraizamiento_pct (momento x) = (r_enraizamiento_score r * 100)%Q
           /\ puntuacion_total (momento x)
              = round2 (r_enraizamiento_score r * 80 + r_calidad_score r * 20)%Q)
    out.
Proof.
  unfold _fase_2_enraizamiento. destruct momentos as [|t0 rest]; [discriminate|].
  set (momentos := t0 :: rest). intros H. injection H as <-.
  apply List.Forall_forall. intros x Hx. apply In_take in Hx.
  apply (Permutation_in _ (AlgoFacts.sort_Permutation before_desc _)) in Hx.
  unfold _aplicar_scc_a_momentos, procesar_momentos_con_scc in Hx.
  apply in_map_iff in Hx. destruct Hx as [m [<- Hm]]. cbn [momento].
  apply list_elem_of_In, list_elem_of_omap in Hm. destruct Hm as [t [Ht Hproc]].
  apply list_elem_of_In in Ht.
  apply (Permutation_in _ (as_completed_Permutation momentos)) in Ht.
  unfold _procesar_momento_paralelo in Hproc.
  destruct (calcular_enraizamiento_avanzado t) as [r|] eqn:Hr; [|discriminate].
  destruct (apto r) eqn:Hapto; [|discriminate].
  destruct (Qle_bool UMBRAL_ENRAIZAMIENTO_MINIMO (r_enraizamiento_score r * 100)) eqn:Hu;
    [|discriminate].
  injection Hproc as <-. cbn [fecha_hora enraizamiento_pct puntuacion_total].
  split; [exact Ht|]. exists r. split; [exact Hr|]. split; [exact Hapto|].
  split; [apply Qle_bool_iff, Hu|]. split; reflexivity.
Qed.

End Phase2.

Lemma fase_2_returns_rooted_instants_witness :
  exists out,
    Sample.fase_2 [0%Z; timedelta_minutes 30] = Ok out
    /\ List.Forall
         (fun x =>
            In (fecha_hora (momento x)) [0%Z; timedelta_minutes 30]
            /\ exists r,
                Sample.evaluate (fecha_hora (momento x)) = Some r
                /\ apto r = true
                /\ (25 <= r_enraizamiento_score r * 100)%Q
                /\ enraizamiento_pct (momento x) = (r_enraizamiento_score r * 100)%Q
                /\ puntuacion_total (momento x)
                   = Sample.round1
                       (r_enraizamiento_score r * 80 + r_calidad_score r * 20)%Q)
         out.
Proof.
  destruct (Sample.fase_2 [0%Z; timedelta_minutes 30]) as [out|e] eqn:E;
    [|vm_compute in E; discriminate].
  exists out. split; [reflexivity|].
  apply (fase_2_returns_rooted_instants Sample.round1 Sample.round1 Sample.evaluate
           Sample.in_order "trabajo" (fun l => Permutation_refl l)
           [0%Z; timedelta_minutes 30] out E).
Defined.

(** X30: phase 1 evaluates exactly the instants [start + k * 30] minutes,
    [k >= 0], that are not later than [end]; unlike the grid of
    [find_elections], [end] itself is evaluated when it lies on the grid. *)
Theorem generar_momentos_fase1_membership (fecha_inicio fecha_fin t : datetime) :
  In t (_generar_momentos_fase1 fecha_inicio fecha_fin)
  <-> exists k : Z, (0 <= k)%Z /\ t = (fecha_inicio + k * timedelta_minutes 30)%Z
                    /\ (t <= fecha_fin)%Z.
Proof.
  unfold _generar_momentos_fase1.
  assert (0 < timedelta_minutes 30)%Z as Htd by reflexivity.
  destruct (Z.ltb_spec fecha_fin fecha_inicio) as [Hlt|Hge].
  - split; [intros []|]. intros [k [Hk [-> Hle]]]. nia.
  - rewrite in_map_iff. split.
    + intros [k [<- Hin]]. apply in_seq in Hin. exists (Z.of_nat k).
      split; [lia|]. split; [reflexivity|].
      assert (Z.of_nat k <= (fecha_fin - fecha_inicio) / timedelta_minutes 30)%Z
        as Hk by lia.
      pose proof (Z.mul_div_le (fecha_fin - fecha_inicio) _ Htd). nia.
    + intros [k [Hk [-> Hle]]]. exists (Z.to_nat k). split; [f_equal; lia|].
      apply in_seq. split; [lia|].
      assert (k <= (fecha_fin - fecha_inicio) / timedelta_minutes 30)%Z
        by (apply Z.div_le_lower_bound; [exact Htd|nia]).
      pose proof (Z.div_pos (fecha_fin - fecha_inicio) _ ltac:(lia) Htd). lia.
Qed.

(** *** Thinning out close instants *)

(** The test of the loop, on microseconds. *)
Lemma cercanos_test (d : Z) (momento ultimo : datetime) :
  Qle_bool (inject_Z d) (total_seconds (momento - ultimo) / 60) = true
  <-> (ultimo + timedelta_minutes d <= momento)%Z.
Proof.
  rewrite Qle_bool_iff.
  unfold total_seconds, timedelta_minutes, MICROS_PER_MINUTE, MICROS_PER_SECOND.
  assert (inject_Z (momento - ultimo) / inject_Z 1000000 / 60
          == inject_Z (momento - ultimo) / inject_Z (60 * 1000000))%Q as ->.
  { rewrite inject_Z_mult. field; repeat split; discriminate. }
  assert (0 < inject_Z (60 * 1000000))%Q as Hpos by reflexivity.
  split.
  - intros H. apply (Qmult_le_compat_r _ _ (inject_Z (60 * 1000000))) in H;
      [|apply Qlt_le_weak, Hpos].
    rewrite <- inject_Z_mult in H.
    assert (inject_Z (momento - ultimo) / inject_Z (60 * 1000000)
            * inject_Z (60 * 1000000) == inject_Z (momento - ultimo))%Q as E
        by (field; repeat split; discriminate).
    rewrite E in H. rewrite <- Zle_Qle in H. lia.
  - intros H. apply Qle_shift_div_l; [exact Hpos|].
    rewrite <- inject_Z_mult, <- Zle_Qle. lia.
Qed.

Lemma cercanos_loop_In (d : Z) (ultimo : datetime) (rest : list datetime) (t : datetime) :
  In t (cercanos_loop d ultimo rest) -> In t rest.
Proof.
  revert ultimo. induction rest as [|m rest IH]; intros ultimo H; cbn [cercanos_loop] in H;
    [contradiction|].
  destruct (Qle_bool _ _).
  - destruct H as [<-|H]; [left; reflexivity|right; apply (IH m), H].
  - right. apply (IH ultimo), H.
Qed.

Lemma cercanos_loop_Sorted (d : Z) (ultimo : datetime) (rest : list datetime) :
  Sorted (fun a b => (a + timedelta_minutes d <= b)%Z) (ultimo :: cercanos_loop d ultimo rest).
Proof.
  revert ultimo. induction rest as [|m rest IH]; intros ultimo; cbn [cercanos_loop].
  - repeat constructor.
  - destruct (Qle_bool _ _) eqn:E.
    + constructor; [apply IH|]. constructor. apply cercanos_test, E.
    + apply IH.
Qed.

Lemma cercanos_loop_cover (d : Z) (ultimo : datetime) (rest : list datetime) :
  StronglySorted Z.le (ultimo :: rest) ->
  forall t, In t rest ->
    exists k, In k (ultimo :: cercanos_loop d ultimo rest)
              /\ (k <= t)%Z /\ (t = k \/ (t < k + timedelta_minutes d)%Z).
Proof.
  revert ultimo. induction rest as [|m rest IH]; intros ultimo Hs t Ht; [contradiction|].
  apply StronglySorted_inv in Hs. destruct Hs as [Hs Hall].
  pose proof Hs as Hs'. apply StronglySorted_inv in Hs'. destruct Hs' as [Hrest Hm].
  cbn [cercanos_loop]. destruct (Qle_bool _ _) eqn:E.
  - destruct Ht as [<-|Ht].
    + exists m. split; [right; left; reflexivity|]. split; [lia|left; reflexivity].
    + destruct (IH m Hs t Ht) as [k [Hk Hkt]]. exists k. split; [right; exact Hk|exact Hkt].
  - assert (~ (ultimo + timedelta_minutes d <= m)%Z) as Hclose.
    { intros H. apply cercanos_test in H. congruence. }
    destruct Ht as [<-|Ht].
    + exists ultimo. split; [left; reflexivity|].
      inversion Hall as [|? ? Hum _]; subst. split; [exact Hum|right; lia].
    + apply (IH ultimo); [|exact Ht].
      constructor; [exact Hrest|]. inversion Hall; assumption.
Qed.

(** X10: [_eliminar_momentos_cercanos] returns instants of the input in
    ascending order, each at least the minimal distance after the one
    before it, and every instant of the input is either kept or lies less
    than the minimal distance after a kept one. *)
Theorem eliminar_momentos_cercanos_spacing (momentos : list datetime) (d : Z) :
  let out := _eliminar_momentos_cercanos momentos d in
  Sorted (fun a b => (a + timedelta_minutes d <= b)%Z) out
  /\ (forall t, In t out -> In t momentos)
  /\ (forall t, In t momentos ->
        exists k, In k out /\ (k <= t)%Z
                  /\ (t = k \/ (t < k + timedelta_minutes d)%Z)).
Proof.
  cbv zeta. unfold _eliminar_momentos_cercanos.
  pose proof (AlgoFacts.sort_Permutation Z.leb momentos) as Hperm.
  assert (StronglySorted Z.le (PySort.sort Z.leb momentos)) as Hsorted.
  { apply Sorted_StronglySorted; [intros x y z; apply Z.le_trans|].
    apply (AlgoFacts.sort_Sorted Z.leb Z.le).
    - intros x y H. apply Z.leb_le, H.
    - intros x y H. apply Z.leb_gt in H. lia. }
  destruct (PySort.sort Z.leb momentos) as [|primero rest].
  - split; [constructor|]. split; [intros t []|].
    intros t Ht. apply (Permutation_in _ (Permutation_sym Hperm)) in Ht. destruct Ht.
  - split; [apply cercanos_loop_Sorted|]. split.
    + intros t Ht. apply (Permutation_in _ Hperm).
      destruct Ht as [<-|Ht]; [left; reflexivity|right].
      apply (cercanos_loop_In d primero), Ht.
    + intros t Ht. apply (Permutation_in _ (Permutation_sym Hperm)) in Ht.
      destruct Ht as [<-|Ht].
      * exists primero. split; [left; reflexivity|]. split; [lia|left; reflexivity].
      * apply cercanos_loop_cover; assumption.
Qed.

End AlgoExtra.
